(** * Ubuntu Image Fetcher: a shallow embedding of [ubuntu_image_fetcher.py]

  The development models the fetch pipeline of the class
  [UbuntuImageFetcher] (and the helper [get_unique_filepath] of the starter
  script) and proves the properties of its specification.

  Layout: first the definitions (the Python runtime functions the program
  calls, then the program itself), then the theorems.

  Conventions.
  - A Python [str] or [bytes] value is a [string]; a character is a code
    point below 256.
  - A Python [int] is a [Z].
  - A method that prints, raises or touches the disk is a computation in the
    monad [M]: it threads the interpreter state (the fetcher object, the
    file system, the trace of effects) and either returns or raises. *)

From Stdlib Require Import ZArith Lia Ascii String List.
From stdpp Require Import base tactics option list strings gmap pretty.

Set Warnings "-register-all,-abstract-large-number".
Local Open Scope Z_scope.

(* ===================================================================== *)
(** * Part I: definitions *)
(* ===================================================================== *)

(** ** Python built-ins on strings *)

Module Py.

Definition is_upper (c : ascii) : bool :=
  (65 <=? nat_of_ascii c)%nat && (nat_of_ascii c <=? 90)%nat.

Definition is_lower (c : ascii) : bool :=
  (97 <=? nat_of_ascii c)%nat && (nat_of_ascii c <=? 122)%nat.

Definition is_digit (c : ascii) : bool :=
  (48 <=? nat_of_ascii c)%nat && (nat_of_ascii c <=? 57)%nat.

Definition is_alpha (c : ascii) : bool := is_upper c || is_lower c.

(** [c.lower()] on one character (ASCII letters only). *)
Definition lower_char (c : ascii) : ascii :=
  if is_upper c then ascii_of_nat (nat_of_ascii c + 32) else c.

(** [s.lower()] *)
Fixpoint lower (s : string) : string :=
  match s with
  | EmptyString => EmptyString
  | String c r => String (lower_char c) (lower r)
  end.

(** [s.startswith(p)] *)
Fixpoint startswith (p s : string) : bool :=
  match p, s with
  | EmptyString, _ => true
  | String a p', String b s' => if decide (a = b) then startswith p' s' else false
  | String _ _, EmptyString => false
  end.

(** [sub in s] *)
Fixpoint contains (sub s : string) : bool :=
  startswith sub s ||
  match s with
  | EmptyString => false
  | String _ r => contains sub r
  end.

(** [x in (a, b, ...)] for a tuple of strings *)
Definition in_tuple (x : string) (t : list string) : bool :=
  bool_decide (x ∈ t).

(** [s[n:]] *)
Fixpoint drop (n : nat) (s : string) : string :=
  match n, s with
  | O, _ => s
  | S n', String _ r => drop n' r
  | S _, EmptyString => EmptyString
  end.

(** [s[:n]] *)
Fixpoint take (n : nat) (s : string) : string :=
  match n, s with
  | O, _ => EmptyString
  | S n', String c r => String c (take n' r)
  | S _, EmptyString => EmptyString
  end.

(** [s.find(sub)], [None] for -1 *)
Fixpoint find (sub s : string) : option nat :=
  if startswith sub s then Some O
  else match s with
       | EmptyString => None
       | String _ r => S <$> find sub r
       end.

(** [s.rfind(sub)], [None] for -1 *)
Fixpoint rfind (sub s : string) : option nat :=
  match s with
  | EmptyString => if startswith sub s then Some O else None
  | String _ r =>
      match rfind sub r with
      | Some i => Some (S i)
      | None => if startswith sub s then Some O else None
      end
  end.

(** [s.partition(sep)]: the text before the first [sep], whether [sep] was
    found, and the text after it. *)
Definition partition (sep s : string) : string * bool * string :=
  match find sep s with
  | Some i => (take i s, true, drop (i + String.length sep) s)
  | None => (s, false, EmptyString)
  end.

(** [s.rpartition(sep)] *)
Definition rpartition (sep s : string) : string * bool * string :=
  match rfind sep s with
  | Some i => (take i s, true, drop (i + String.length sep) s)
  | None => (EmptyString, false, s)
  end.

(** [s.split(sep)] for a non-empty separator.  [skip] counts the characters
    of a matched separator that are still to be passed over, [cur] is the
    current piece in reverse. *)
Fixpoint split_go (sep : string) (skip : nat) (cur : string) (s : string)
  : list string :=
  match s with
  | EmptyString => [String.rev cur]
  | String c r =>
      match skip with
      | S k => split_go sep k cur r
      | O =>
          if startswith sep s
          then String.rev cur :: split_go sep (String.length sep - 1) EmptyString r
          else split_go sep O (String c cur) r
      end
  end.

Definition split (sep s : string) : list string :=
  split_go sep O EmptyString s.

(** [s.replace(c, "")] for a one-character [c] *)
Fixpoint remove_char (c : ascii) (s : string) : string :=
  match s with
  | EmptyString => EmptyString
  | String a r => if decide (a = c) then remove_char c r else String a (remove_char c r)
  end.

Fixpoint mem_char (c : ascii) (chars : string) : bool :=
  match chars with
  | EmptyString => false
  | String a r => if decide (a = c) then true else mem_char c r
  end.

(** [s.lstrip(chars)], [s.rstrip(chars)], [s.strip(chars)] *)
Fixpoint lstrip (chars s : string) : string :=
  match s with
  | EmptyString => EmptyString
  | String c r => if mem_char c chars then lstrip chars r else s
  end.

Definition rstrip (chars s : string) : string :=
  String.rev (lstrip chars (String.rev s)).

Definition strip (chars s : string) : string :=
  rstrip chars (lstrip chars s).

(** [all(p(c) for c in s)] *)
Fixpoint all_chars (p : ascii → bool) (s : string) : bool :=
  match s with
  | EmptyString => true
  | String c r => p c && all_chars p r
  end.

(** The characters [int()] strips around a literal. *)
Definition int_space : string :=
  String "009" (String "010" (String "011" (String "012" (String "013" " ")))).

(** Value of a digit character. *)
Definition digit_val (c : ascii) : Z := Z.of_nat (nat_of_ascii c) - 48.

(** The digits of an [int()] literal: groups of digits, single underscores
    allowed between two digits.  [prev] tells whether the previous character
    was a digit. *)
Fixpoint int_digits (prev : bool) (acc : Z) (s : string) : option Z :=
  match s with
  | EmptyString => if prev then Some acc else None
  | String c r =>
      if is_digit c then int_digits true (10 * acc + digit_val c) r
      else if decide (c = "_"%char) then
             (if prev then
                match r with
                | String d _ => if is_digit d then int_digits false acc r else None
                | EmptyString => None
                end
              else None)
      else None
  end.

(** [int(s)] for a string: [None] stands for [ValueError].  Surrounding
    white space is stripped, one sign is allowed, the base is ten. *)
Definition int (s : string) : option Z :=
  match strip int_space s with
  | String "-" r => Z.opp <$> int_digits false 0 r
  | String "+" r => int_digits false 0 r
  | t => int_digits false 0 t
  end.

(** [str(n)] as used by an f-string *)
Definition str (n : Z) : string := pretty n.

(** [c * n]: the character [c] repeated [n] times *)
Fixpoint repeat_char (n : nat) (c : ascii) : string :=
  match n with
  | O => EmptyString
  | S n' => String c (repeat_char n' c)
  end.

(** [str(n).zfill(w)] for a natural [n], as [strftime] pads its fields *)
Definition zfill (w : nat) (n : N) : string :=
  let s := pretty n in
  repeat_char (w - String.length s) "0" +:+ s.

End Py.

(** ** [os.path] (POSIX flavour) *)

Module OsPath.

(** [os.path.join(a, b)] *)
Definition join (a b : string) : string :=
  if Py.startswith "/" b then b
  else if bool_decide (a = "") || Py.startswith "/" (String.rev a) then a +:+ b
  else a +:+ "/" +:+ b.

(** [os.path.basename(p)]: the text after the last slash *)
Definition basename (p : string) : string :=
  match Py.rfind "/" p with
  | Some i => Py.drop (S i) p
  | None => p
  end.

(** The loop of [genericpath._splitext] that skips leading dots: is there a
    character other than a dot among the first [n] characters of [s]? *)
Fixpoint has_non_dot (n : nat) (s : string) : bool :=
  match n, s with
  | S n', String c r => if decide (c = "."%char) then has_non_dot n' r else true
  | _, _ => false
  end.

(** [os.path.splitext(p)] *)
Definition splitext (p : string) : string * string :=
  let start := match Py.rfind "/" p with Some i => S i | None => O end in
  match Py.rfind "." p with
  | Some dot =>
      if bool_decide (start ≤ dot)%nat && has_non_dot (dot - start) (Py.drop start p)
      then (Py.take dot p, Py.drop dot p)
      else (p, EmptyString)
  | None => (p, EmptyString)
  end.

End OsPath.

(** ** [urllib.parse.urlparse]

  The parts of the result the program reads: [scheme], [netloc], [path] and
  the [hostname] property.  [None] stands for the [ValueError] raised on
  unbalanced brackets in the network location.  The checks CPython makes on
  the text inside brackets and on non-ASCII network locations are not
  modelled. *)

Module Url.

Record ParseResult := {
  scheme : string;
  netloc : string;
  path : string;
  params : string;
  query : string;
  fragment : string
}.

(** A character allowed in a scheme: letter, digit, plus, minus or dot. *)
Definition scheme_char (c : ascii) : bool :=
  Py.is_alpha c || Py.is_digit c || Py.mem_char c "+-.".

(** C0 control characters and space, stripped from the left of a URL. *)
Definition c0_or_space (c : ascii) : bool := (nat_of_ascii c <=? 32)%nat.

Fixpoint lstrip_c0 (s : string) : string :=
  match s with
  | EmptyString => EmptyString
  | String c r => if c0_or_space c then lstrip_c0 r else s
  end.

(** Tab, carriage return and line feed are removed wherever they stand. *)
Definition remove_unsafe (s : string) : string :=
  Py.remove_char "009" (Py.remove_char "013" (Py.remove_char "010" s)).

(** Split off the scheme: [(scheme, rest)]. *)
Definition split_scheme (url : string) : string * string :=
  match Py.find ":" url, url with
  | Some (S i), String c _ =>
      if Py.is_alpha c && Py.all_chars scheme_char (Py.take (S i) url)
      then (Py.lower (Py.take (S i) url), Py.drop (S (S i)) url)
      else (EmptyString, url)
  | _, _ => (EmptyString, url)
  end.

(** Length of the longest prefix of [s] free of the characters [/?#]. *)
Fixpoint netloc_len (s : string) : nat :=
  match s with
  | EmptyString => O
  | String c r => if Py.mem_char c "/?#" then O else S (netloc_len r)
  end.

(** [_splitnetloc(url, 2)] for a [url] that starts with two slashes. *)
Definition splitnetloc (url : string) : string * string :=
  let r := Py.drop 2 url in
  (Py.take (netloc_len r) r, Py.drop (netloc_len r) r).

Definition unbalanced_brackets (netloc : string) : bool :=
  (Py.contains "[" netloc && negb (Py.contains "]" netloc)) ||
  (Py.contains "]" netloc && negb (Py.contains "[" netloc)).

(** Schemes whose last path segment may carry parameters. *)
Definition uses_params : list string :=
  [""; "ftp"; "hdl"; "prospero"; "http"; "imap"; "https"; "shttp"; "rtsp";
   "rtsps"; "rtspu"; "sip"; "sips"; "mms"; "sftp"; "tel"].

(** [_splitparams(url)]: cut at the first semicolon of the last segment. *)
Definition splitparams (url : string) : string * string :=
  let start := match Py.rfind "/" url with Some i => i | None => O end in
  match Py.find ";" (Py.drop start url) with
  | Some j => (Py.take (start + j) url, Py.drop (S (start + j)) url)
  | None => (url, EmptyString)
  end.

Definition urlparse (url : string) : option ParseResult :=
  let url := remove_unsafe (lstrip_c0 url) in
  let '(sch, url) := split_scheme url in
  let '(nl, url) :=
    if Py.startswith "//" url then splitnetloc url else (EmptyString, url) in
  if unbalanced_brackets nl then None
  else
    let '(url, _, frag) := Py.partition "#" url in
    let '(url, _, qry) := Py.partition "?" url in
    let '(pth, prm) :=
      if Py.in_tuple sch uses_params && Py.contains ";" url
      then splitparams url else (url, EmptyString) in
    Some {| scheme := sch; netloc := nl; path := pth; params := prm;
            query := qry; fragment := frag |}.

(** The [hostname] property: [None] when the host is empty. *)
Definition hostname (p : ParseResult) : option string :=
  let '(_, _, hostinfo) := Py.rpartition "@" (netloc p) in
  let '(_, have_open_br, bracketed) := Py.partition "[" hostinfo in
  let host :=
    if have_open_br then (Py.partition "]" bracketed).1.1
    else (Py.partition ":" hostinfo).1.1 in
  if bool_decide (host = "") then None
  else
    let '(h, percent, zone) := Py.partition "%" host in
    Some (Py.lower h +:+ (if percent then "%" else "") +:+ zone).

End Url.

(** ** [hashlib.sha256]

  The digest of FIPS 180-4 over 32-bit words held in [Z], with the
  wrap-around written out. *)

Module Sha256.

Definition w32 (x : Z) : Z := x mod 2 ^ 32.
Definition add32 (x y : Z) : Z := w32 (x + y).
Definition rotr (n x : Z) : Z := Z.lor (Z.shiftr x n) (w32 (Z.shiftl x (32 - n))).
Definition not32 (x : Z) : Z := 2 ^ 32 - 1 - x.

Definition ch (x y z : Z) : Z := Z.lxor (Z.land x y) (Z.land (not32 x) z).
Definition maj (x y z : Z) : Z :=
  Z.lxor (Z.lxor (Z.land x y) (Z.land x z)) (Z.land y z).
Definition bsig0 (x : Z) : Z := Z.lxor (Z.lxor (rotr 2 x) (rotr 13 x)) (rotr 22 x).
Definition bsig1 (x : Z) : Z := Z.lxor (Z.lxor (rotr 6 x) (rotr 11 x)) (rotr 25 x).
Definition ssig0 (x : Z) : Z := Z.lxor (Z.lxor (rotr 7 x) (rotr 18 x)) (Z.shiftr x 3).
Definition ssig1 (x : Z) : Z := Z.lxor (Z.lxor (rotr 17 x) (rotr 19 x)) (Z.shiftr x 10).

(** The constants are fractional parts of roots of the first primes, on 32
    bits: cube roots for the round constants, square roots for the initial
    hash value. *)
Definition is_prime (n : Z) : bool :=
  (1 <? n) && forallb (λ d, negb (n mod d =? 0)) (seqZ 2 (n - 2)).

Definition first_primes (count : nat) : list Z :=
  take count (filter (λ n, is_prime n = true) (seqZ 2 310)).

(** The integer cube root of [n], found bit by bit below [2 ^ bits]. *)
Fixpoint cube_root (bits : nat) (acc n : Z) : Z :=
  match bits with
  | O => acc
  | S b =>
      let cand := acc + 2 ^ Z.of_nat b in
      if cand * cand * cand <=? n then cube_root b cand n else cube_root b acc n
  end.

Definition K : list Z :=
  Eval vm_compute in map (λ p, w32 (cube_root 36 0 (p * 2 ^ 96))) (first_primes 64).

Definition H0 : list Z :=
  Eval vm_compute in map (λ p, w32 (Z.sqrt (p * 2 ^ 64))) (first_primes 8).

(** Big-endian bytes of [x], [n] of them. *)
Fixpoint be_bytes (n : nat) (x : Z) : list Z :=
  match n with
  | O => []
  | S n' => (Z.shiftr x (8 * Z.of_nat n')) mod 256 :: be_bytes n' x
  end.

(** The message followed by the bit 1, zeros up to 56 modulo 64, and the
    length in bits on eight bytes. *)
Definition pad (msg : list Z) : list Z :=
  let len := Z.of_nat (length msg) in
  let zeros := Z.to_nat ((55 - len) mod 64) in
  msg ++ [128] ++ replicate zeros 0 ++ be_bytes 8 (8 * len).

Fixpoint words (fuel : nat) (bs : list Z) : list Z :=
  match fuel, bs with
  | S f, b0 :: b1 :: b2 :: b3 :: r =>
      (b0 * 2 ^ 24 + b1 * 2 ^ 16 + b2 * 2 ^ 8 + b3) :: words f r
  | _, _ => []
  end.

(** The message schedule: [w] holds the words so far, most recent first. *)
Fixpoint schedule (n : nat) (w : list Z) : list Z :=
  match n with
  | O => w
  | S n' =>
      let at_ i := nth i w 0 in
      schedule n'
        (add32 (add32 (ssig1 (at_ 1%nat)) (at_ 6%nat))
               (add32 (ssig0 (at_ 14%nat)) (at_ 15%nat)) :: w)
  end.

Definition round (st : list Z) (kw : Z * Z) : list Z :=
  match st with
  | [a; b; c; d; e; f; g; h] =>
      let t1 := add32 (add32 (add32 h (bsig1 e)) (add32 (ch e f g) kw.1)) kw.2 in
      let t2 := add32 (bsig0 a) (maj a b c) in
      [add32 t1 t2; a; b; c; add32 d t1; e; f; g]
  | _ => st
  end.

Definition compress (h : list Z) (block : list Z) : list Z :=
  let w := rev (schedule 48 (rev block)) in
  zip_with add32 h (fold_left round (zip K w) h).

Fixpoint blocks (fuel : nat) (ws : list Z) (h : list Z) : list Z :=
  match fuel with
  | O => h
  | S f =>
      match ws with
      | [] => h
      | _ => blocks f (skipn 16 ws) (compress h (firstn 16 ws))
      end
  end.

Definition hex_digit (x : Z) : ascii :=
  ascii_of_nat (Z.to_nat (if x <? 10 then 48 + x else 87 + x)).

Fixpoint hex (bs : list Z) : string :=
  match bs with
  | [] => EmptyString
  | b :: r => String (hex_digit (b / 16)) (String (hex_digit (b mod 16)) (hex r))
  end.

Definition bytes_of (s : string) : list Z :=
  map (λ c, Z.of_nat (nat_of_ascii c)) (list_ascii_of_string s).

(** [hashlib.sha256(data).hexdigest()] *)
Definition hexdigest (data : string) : string :=
  let p := pad (bytes_of data) in
  let ws := words (length p) p in
  hex (concat (map (be_bytes 4) (blocks (length ws) ws H0))).

End Sha256.

(** ** [json]: values, [json.dump(obj, f, indent=2)] and [json.load]

  A value is what [json.load] returns: [None], a [bool], an [int], a [str],
  a [list] or a [dict] with string keys held in insertion order.  Numbers
  with a fraction or an exponent and code points above 255 are outside the
  model: the decoder gives [None] on them. *)

Module Json.

Inductive json :=
| JNull
| JBool (b : bool)
| JInt (n : Z)
| JStr (s : string)
| JList (items : list json)
| JDict (pairs : list (string * json)).

Definition dquote : ascii := "034"%char.
Definition backslash : ascii := "092"%char.
Definition newline : ascii := "010"%char.

(** *** Encoder *)

Definition hex_char (n : nat) : ascii :=
  ascii_of_nat (if (n <? 10)%nat then 48 + n else 87 + n)%nat.

(** [encode_basestring_ascii] on one character. *)
Definition escape_char (c : ascii) : string :=
  let n := nat_of_ascii c in
  if decide (c = dquote) then String backslash (String dquote EmptyString)
  else if decide (c = backslash) then String backslash (String backslash EmptyString)
  else if (32 <=? n)%nat && (n <=? 126)%nat then String c EmptyString
  else if decide (n = 8%nat) then String backslash "b"
  else if decide (n = 12%nat) then String backslash "f"
  else if decide (n = 10%nat) then String backslash "n"
  else if decide (n = 13%nat) then String backslash "r"
  else if decide (n = 9%nat) then String backslash "t"
  else String backslash
         (String "u" (String "0" (String "0"
            (String (hex_char (n / 16)) (String (hex_char (n mod 16)) EmptyString))))).

Fixpoint escape (s : string) : string :=
  match s with
  | EmptyString => EmptyString
  | String c r => escape_char c +:+ escape r
  end.

Definition encode_string (s : string) : string :=
  String dquote (escape s +:+ String dquote EmptyString).

Fixpoint spaces (n : nat) : string :=
  match n with
  | O => EmptyString
  | S n' => String " " (spaces n')
  end.

(** A line break followed by the indentation of [level]. *)
Definition newline_indent (level : nat) : string :=
  String newline (spaces (2 * level)).

(** The text [json.dump(v, f, indent=2)] writes for a value nested [level]
    deep. *)
Fixpoint encode (level : nat) (v : json) : string :=
  match v with
  | JNull => "null"
  | JBool true => "true"
  | JBool false => "false"
  | JInt n => Py.str n
  | JStr s => encode_string s
  | JList [] => "[]"
  | JList (x :: xs) =>
      "[" +:+ newline_indent (S level) +:+ encode (S level) x +:+
      (fix rest (l : list json) : string :=
         match l with
         | [] => newline_indent level +:+ "]"
         | y :: l' =>
             "," +:+ newline_indent (S level) +:+ encode (S level) y +:+ rest l'
         end) xs
  | JDict [] => "{}"
  | JDict ((k, x) :: kvs) =>
      "{" +:+ newline_indent (S level) +:+ encode_string k +:+ ": " +:+
      encode (S level) x +:+
      (fix rest (l : list (string * json)) : string :=
         match l with
         | [] => newline_indent level +:+ "}"
         | (k', y) :: l' =>
             "," +:+ newline_indent (S level) +:+ encode_string k' +:+ ": " +:+
             encode (S level) y +:+ rest l'
         end) kvs
  end.

Definition dumps (v : json) : string := encode O v.

(** *** Decoder *)

Definition is_ws (c : ascii) : bool :=
  Py.mem_char c (String " " (String "009" (String "010" (String "013" EmptyString)))).

Fixpoint skip_ws (s : string) : string :=
  match s with
  | EmptyString => EmptyString
  | String c r => if is_ws c then skip_ws r else s
  end.

Definition hex_val (c : ascii) : option nat :=
  let n := nat_of_ascii c in
  if Py.is_digit c then Some (n - 48)%nat
  else if (97 <=? n)%nat && (n <=? 102)%nat then Some (n - 87)%nat
  else if (65 <=? n)%nat && (n <=? 70)%nat then Some (n - 55)%nat
  else None.

(** The character an escape letter stands for ([BACKSLASH]). *)
Definition unescape (e : ascii) : option ascii :=
  if decide (e = dquote) then Some dquote
  else if decide (e = backslash) then Some backslash
  else if decide (e = "/"%char) then Some "/"%char
  else if decide (e = "b"%char) then Some "008"%char
  else if decide (e = "f"%char) then Some "012"%char
  else if decide (e = "n"%char) then Some "010"%char
  else if decide (e = "r"%char) then Some "013"%char
  else if decide (e = "t"%char) then Some "009"%char
  else None.

(** [py_scanstring] in strict mode, from just after the opening quote: the
    decoded text and what follows the closing quote. *)
Fixpoint scanstring (s : string) : option (string * string) :=
  match s with
  | EmptyString => None
  | String c r =>
      if decide (c = dquote) then Some (EmptyString, r)
      else if decide (c = backslash) then
        match r with
        | String "u" (String h1 (String h2 (String h3 (String h4 r')))) =>
            a ← hex_val h1; b ← hex_val h2; c' ← hex_val h3; d ← hex_val h4;
            if decide (a = O ∧ b = O) then
              '(t, r'') ← scanstring r';
              Some (String (ascii_of_nat (16 * c' + d)) t, r'')
            else None
        | String e r' =>
            ch ← unescape e;
            '(t, r'') ← scanstring r';
            Some (String ch t, r'')
        | EmptyString => None
        end
      else if (nat_of_ascii c <? 32)%nat then None
      else
        '(t, r') ← scanstring r;
        Some (String c t, r')
  end.

Fixpoint scan_digits (acc : Z) (s : string) : Z * string :=
  match s with
  | EmptyString => (acc, EmptyString)
  | String c r =>
      if Py.is_digit c then scan_digits (10 * acc + Py.digit_val c) r else (acc, s)
  end.

Definition starts_with_digit (s : string) : bool :=
  match s with
  | String d _ => Py.is_digit d
  | EmptyString => false
  end.

(** Does a fraction or an exponent follow the integer part? *)
Definition float_tail (s : string) : bool :=
  match s with
  | String c r =>
      if decide (c = "."%char) then starts_with_digit r
      else if decide (c = "e"%char ∨ c = "E"%char) then
        starts_with_digit r ||
        match r with
        | String sg r' =>
            bool_decide (sg = "+"%char ∨ sg = "-"%char) && starts_with_digit r'
        | EmptyString => false
        end
      else false
  | EmptyString => false
  end.

(** [NUMBER_RE] at the head of [s], for an integer literal. *)
Definition scan_number (s : string) : option (Z * string) :=
  let '(neg, t) :=
    match s with
    | String "-" r => (true, r)
    | _ => (false, s)
    end in
  match t with
  | String c r =>
      if Py.is_digit c then
        let '(n, r') :=
          if decide (c = "0"%char) then (0, r) else scan_digits (Py.digit_val c) r in
        if float_tail r' then None
        else Some (if neg : bool then - n else n, r')
      else None
  | EmptyString => None
  end.

(** Set [k] to [v] in a dict: in place when the key is there, at the end
    otherwise. *)
Fixpoint dict_set (k : string) (v : json) (d : list (string * json))
  : list (string * json) :=
  match d with
  | [] => [(k, v)]
  | (k', v') :: d' =>
      if decide (k = k') then (k, v) :: d' else (k', v') :: dict_set k v d'
  end.

(** [dict(pairs)] *)
Definition dict_of_pairs (pairs : list (string * json)) : list (string * json) :=
  fold_left (λ d kv, dict_set kv.1 kv.2 d) pairs [].

(** The scanner.  Every call consumes at least one character, so a [fuel] of
    one more than the length of the text is enough. *)
Fixpoint scan_once (fuel : nat) (s : string) : option (json * string) :=
  match fuel with
  | O => None
  | S f =>
      match s with
      | EmptyString => None
      | String c r =>
          if decide (c = dquote) then
            '(t, r') ← scanstring r; Some (JStr t, r')
          else if decide (c = "{"%char) then
            match skip_ws r with
            | String "}" r' => Some (JDict [], r')
            | String "034" r' => object_loop f r' []
            | _ => None
            end
          else if decide (c = "["%char) then
            match skip_ws r with
            | String "]" r' => Some (JList [], r')
            | r' => array_loop f r' []
            end
          else if Py.startswith "null" s then Some (JNull, Py.drop 4 s)
          else if Py.startswith "true" s then Some (JBool true, Py.drop 4 s)
          else if Py.startswith "false" s then Some (JBool false, Py.drop 5 s)
          else '(n, r') ← scan_number s; Some (JInt n, r')
      end
  end
with object_loop (fuel : nat) (s : string) (acc : list (string * json))
  : option (json * string) :=
  match fuel with
  | O => None
  | S f =>
      '(k, r) ← scanstring s;
      match skip_ws r with
      | String ":" r1 =>
          '(v, r2) ← scan_once f (skip_ws r1);
          match skip_ws r2 with
          | String "}" r3 => Some (JDict (dict_of_pairs (acc ++ [(k, v)])), r3)
          | String "," r3 =>
              match skip_ws r3 with
              | String "034" r4 => object_loop f r4 (acc ++ [(k, v)])
              | _ => None
              end
          | _ => None
          end
      | _ => None
      end
  end
with array_loop (fuel : nat) (s : string) (acc : list json)
  : option (json * string) :=
  match fuel with
  | O => None
  | S f =>
      '(v, r) ← scan_once f s;
      match skip_ws r with
      | String "]" r1 => Some (JList (acc ++ [v]), r1)
      | String "," r1 => array_loop f (skip_ws r1) (acc ++ [v])
      | _ => None
      end
  end.

(** [json.loads(s)]: [None] stands for [JSONDecodeError]. *)
Definition loads (s : string) : option json :=
  '(v, r) ← scan_once (S (String.length s)) (skip_ws s);
  if bool_decide (skip_ws r = EmptyString) then Some v else None.

End Json.

(** ** The interpreter state and the effects of the program *)

Module Runtime.

(** Python exceptions, by the class an [except] clause tests.  [OutOfFuel]
    is not a Python exception: it marks a loop of the model that ran out of
    fuel (which never happens, see [get_unique_filepath_total]). *)
Inductive exn :=
| Timeout
| ConnectionError
| HTTPError
| TooManyRedirects
| RequestException
| OSError
| ValueError
| KeyError
| TypeError
| AttributeError
| OutOfFuel.

(** [isinstance(e, requests.exceptions.RequestException)] *)
Definition is_request_exception (e : exn) : bool :=
  match e with
  | Timeout | ConnectionError | HTTPError | TooManyRedirects | RequestException => true
  | _ => false
  end.

(** The lines the program prints, one constructor per [print] statement
    (the success block of [download_image] counts as one). *)
Inductive message :=
| MsgInvalidUrl
| MsgOnlyHttp
| MsgLocalUrl
| MsgContentTypeNotAllowed (content_type : string)
| MsgFileTooLargeHeader (size : Z)
| MsgSecurityHeadersMissing (missing : list string)
| MsgDuplicate
| MsgFileTooLarge (size limit : Z)
| MsgExceededDuringDownload
| MsgEmptyFile
| MsgFetched (filepath : string) (size : Z)
| MsgDownloaded (filepath : string) (size : Z)
| MsgTimeout
| MsgConnectionError
| MsgHTTPError
| MsgTooManyRedirects
| MsgRequestError
| MsgFileError
| MsgUnexpected (e : exn)
| MsgMetadataWarning.

(** What the outside world sees of a run, in order. *)
Inductive event :=
| EvPrint (m : message)
| EvMakedirs (dir : string)
| EvHead (url : string)
| EvGet (url : string)
| EvReadContent
| EvOpen (path : string)
| EvWrite (path : string) (count : nat)
| EvRemove (path : string)
| EvDump (path : string).

Inductive node :=
| File (data : string)
| Dir.

(** The attributes of a [UbuntuImageFetcher] object. *)
Record fetcher := {
  download_dir : string;
  metadata_file : string;
  downloaded_hashes : Json.json;
  max_file_size : Z;
  allowed_content_types : list string
}.

Record state := {
  self : fetcher;
  fs : gmap string node;
  trace : list event
}.

(** [datetime.now()] *)
Record datetime := {
  year : N; month : N; day : N;
  hour : N; minute : N; second : N; microsecond : N
}.

(** A [requests.Response]: reading [content] may raise. *)
Record Response := {
  status_code : Z;
  headers : list (string * string);
  content : exn + string
}.

(** What the environment answers during one call of [download_image]: the
    replies of the network, the clock, and the faults of the disk
    ([write_fault = Some i]: the write number [i] of the body raises). *)
Record Env := {
  head_reply : exn + Response;
  get_reply : exn + Response;
  now_filename : datetime;
  now_metadata : datetime;
  makedirs_fault : bool;
  open_fault : bool;
  write_fault : option nat;
  dump_fault : bool
}.

(** Computations: state passing with exceptions. *)
Definition M (A : Type) : Type := state → (exn + A) * state.

#[global] Instance M_ret : MRet M := λ A x st, (inr x, st).

#[global] Instance M_bind : MBind M := λ A B f m st,
  match m st with
  | (inr x, st') => f x st'
  | (inl e, st') => (inl e, st')
  end.

Definition raise {A} (e : exn) : M A := λ st, (inl e, st).

(** [try: body except: handler] *)
Definition try_except {A} (body : M A) (handler : exn → M A) : M A := λ st,
  match body st with
  | (inr x, st') => (inr x, st')
  | (inl e, st') => handler e st'
  end.

Definition lift {A} (r : exn + A) : M A := λ st, (r, st).

Definition get_self : M fetcher := λ st, (inr (self st), st).
Definition get_fs : M (gmap string node) := λ st, (inr (fs st), st).

Definition set_fs (f : gmap string node) : M unit := λ st,
  (inr (), {| self := self st; fs := f; trace := trace st |}).

Definition set_downloaded_hashes (l : Json.json) : M unit := λ st,
  (inr (),
   {| self := {| download_dir := download_dir (self st);
                 metadata_file := metadata_file (self st);
                 downloaded_hashes := l;
                 max_file_size := max_file_size (self st);
                 allowed_content_types := allowed_content_types (self st) |};
      fs := fs st; trace := trace st |}).

Definition emit (e : event) : M unit := λ st,
  (inr (), {| self := self st; fs := fs st; trace := trace st ++ [e] |}).

Definition print (m : message) : M unit := emit (EvPrint m).

(** *** The file system *)

(** [os.path.exists(p)] *)
Definition exists_ (f : gmap string node) (p : string) : bool :=
  bool_decide (is_Some (f !! p)).

(** [os.makedirs(dir, exist_ok=True)] *)
Definition makedirs (env : Env) (dir : string) : M unit :=
  emit (EvMakedirs dir) ;;
  f ← get_fs;
  match f !! dir with
  | Some Dir => mret ()
  | Some (File _) => raise OSError
  | None => if makedirs_fault env then raise OSError else set_fs (<[dir := Dir]> f)
  end.

(** [open(path, 'wb')]: the file is created or truncated. *)
Definition open_wb (env : Env) (path : string) : M unit :=
  f ← get_fs;
  match f !! path with
  | Some Dir => raise OSError
  | _ =>
      if open_fault env then raise OSError
      else emit (EvOpen path) ;; set_fs (<[path := File EmptyString]> f)
  end.

(** [f.write(chunk)], the write number [i] on the file at [path]. *)
Definition write (env : Env) (path : string) (i : nat) (chunk : string) : M unit :=
  if bool_decide (write_fault env = Some i) then raise OSError
  else
    f ← get_fs;
    match f !! path with
    | Some (File data) =>
        emit (EvWrite path (String.length chunk)) ;;
        set_fs (<[path := File (data +:+ chunk)]> f)
    | _ => raise OSError
    end.

(** [os.remove(path)] *)
Definition remove (path : string) : M unit :=
  f ← get_fs;
  match f !! path with
  | Some (File _) => emit (EvRemove path) ;; set_fs (delete path f)
  | _ => raise OSError
  end.

(** [os.path.getsize(path)] (the size of a directory entry is not used by
    the program; 4096 stands for it). *)
Definition getsize (path : string) : M Z :=
  f ← get_fs;
  match f !! path with
  | Some (File data) => mret (Z.of_nat (String.length data))
  | Some Dir => mret 4096
  | None => raise OSError
  end.

(** *** The clock *)

(** [strftime('%Y%m%d_%H%M%S')] *)
Definition strftime (t : datetime) : string :=
  Py.zfill 4 (year t) +:+ Py.zfill 2 (month t) +:+ Py.zfill 2 (day t) +:+ "_" +:+
  Py.zfill 2 (hour t) +:+ Py.zfill 2 (minute t) +:+ Py.zfill 2 (second t).

(** [isoformat()] *)
Definition isoformat (t : datetime) : string :=
  Py.zfill 4 (year t) +:+ "-" +:+ Py.zfill 2 (month t) +:+ "-" +:+
  Py.zfill 2 (day t) +:+ "T" +:+ Py.zfill 2 (hour t) +:+ ":" +:+
  Py.zfill 2 (minute t) +:+ ":" +:+ Py.zfill 2 (second t) +:+
  (if bool_decide (microsecond t = 0%N) then EmptyString
   else "." +:+ Py.zfill 6 (microsecond t)).

(** *** The network *)

(** [requests.head(url, ...)] and [requests.get(url, ...)] *)
Definition requests_head (env : Env) (url : string) : M Response :=
  emit (EvHead url) ;; lift (head_reply env).

Definition requests_get (env : Env) (url : string) : M Response :=
  emit (EvGet url) ;; lift (get_reply env).

(** [response.raise_for_status()] *)
Definition raise_for_status (r : Response) : M unit :=
  if bool_decide (400 ≤ status_code r < 600) then raise HTTPError else mret ().

(** [response.headers.get(name)]: the keys compare without case. *)
Fixpoint headers_get (name : string) (h : list (string * string)) : option string :=
  match h with
  | [] => None
  | (k, v) :: h' =>
      if bool_decide (Py.lower k = Py.lower name) then Some v else headers_get name h'
  end.

(** [iter_slices(string, slice_length)]: the slices of a content already
    read; at most one slice per character. *)
Fixpoint iter_slices (fuel : nat) (slice_length : nat) (s : string) : list string :=
  match fuel, s with
  | S f, String _ _ =>
      Py.take slice_length s :: iter_slices f slice_length (Py.drop slice_length s)
  | _, _ => []
  end.

(** [response.iter_content(chunk_size)] *)
Definition iter_content (response : Response) (chunk_size : Z) : M (list string) :=
  body ← lift (content response);
  let slice_length :=
    if chunk_size <=? 0 then String.length body else Z.to_nat chunk_size in
  mret (iter_slices (String.length body) slice_length body).

(** *** Python operations on loaded JSON values *)

(** [for x in v] *)
Definition py_iter (v : Json.json) : exn + list Json.json :=
  match v with
  | Json.JList l => inr l
  | Json.JDict d => inr (map (λ kv, Json.JStr kv.1) d)
  | Json.JStr s => inr (map (λ c, Json.JStr (String c EmptyString)) (list_ascii_of_string s))
  | _ => inl TypeError
  end.

Fixpoint dict_get (k : string) (d : list (string * Json.json)) : option Json.json :=
  match d with
  | [] => None
  | (k', v) :: d' => if decide (k = k') then Some v else dict_get k d'
  end.

(** [v[key]] for a string [key] *)
Definition py_getitem (v : Json.json) (key : string) : exn + Json.json :=
  match v with
  | Json.JDict d =>
      match dict_get key d with
      | Some x => inr x
      | None => inl KeyError
      end
  | _ => inl TypeError
  end.

(** [v == s] for a string [s] *)
Definition py_eq_str (v : Json.json) (s : string) : bool :=
  match v with
  | Json.JStr t => bool_decide (t = s)
  | _ => false
  end.

(** [v.append(x)] *)
Definition py_append (v x : Json.json) : exn + Json.json :=
  match v with
  | Json.JList l => inr (Json.JList (l ++ [x]))
  | _ => inl AttributeError
  end.

End Runtime.

(** ** [ubuntu_image_fetcher_starter.py] *)

Module Starter.
Import Runtime.

(** The [while os.path.exists(filepath)] loop of [get_unique_filepath].
    [fuel] bounds the number of times the body runs; [None] when it runs
    out. *)
Fixpoint probe (f : gmap string node) (directory name ext : string)
    (fuel : nat) (filepath : string) (counter : Z) : option string :=
  if exists_ f filepath then
    match fuel with
    | O => None
    | S fuel' =>
        let new_filename := name +:+ "_" +:+ Py.str counter +:+ ext in
        probe f directory name ext fuel' (OsPath.join directory new_filename)
          (counter + 1)
    end
  else Some filepath.

(** The path the loop probes for the counter [k]. *)
Definition candidate (directory name ext : string) (k : Z) : string :=
  OsPath.join directory (name +:+ "_" +:+ Py.str k +:+ ext).

(** [get_unique_filepath(directory, filename)] on the directory snapshot
    [f].  The body of the loop runs at most once per existing path and once
    more, hence the fuel. *)
Definition get_unique_filepath (f : gmap string node) (directory filename : string)
  : option string :=
  let filepath := OsPath.join directory filename in
  if negb (exists_ f filepath) then Some filepath
  else
    let '(name, ext) := OsPath.splitext filename in
    probe f directory name ext (S (size f)) filepath 1.

End Starter.

(** ** [ubuntu_image_fetcher.py]: the class [UbuntuImageFetcher] *)

Module UbuntuImageFetcher.
Import Runtime Json.

(** [load_download_history]: [read_fault] tells whether reading the file
    raises [IOError]. *)
Definition load_download_history (f : gmap string node) (metadata_file : string)
    (read_fault : bool) : json :=
  match f !! metadata_file with
  | Some (File text) =>
      if read_fault then JList []
      else match loads text with
           | Some v => v
           | None => JList []
           end
  | Some Dir => JList []
  | None => JList []
  end.

(** [__init__] *)
Definition init (f : gmap string node) (read_fault : bool) : fetcher :=
  let download_dir := "Fetched_Images" in
  let metadata_file := OsPath.join download_dir "download_metadata.json" in
  {| download_dir := download_dir;
     metadata_file := metadata_file;
     downloaded_hashes := load_download_history f metadata_file read_fault;
     max_file_size := 50 * 1024 * 1024;
     allowed_content_types :=
       ["image/jpeg"; "image/jpg"; "image/png"; "image/gif";
        "image/bmp"; "image/webp"; "image/svg+xml"; "image/tiff"] |}.

(** [is_valid_url] *)
Definition is_valid_url (url : string) : M bool :=
  match Url.urlparse url with
  | None => mret false
  | Some parsed =>
      if negb (Py.in_tuple (Url.scheme parsed) ["http"; "https"]) then
        print MsgOnlyHttp ;; mret false
      else if match Url.hostname parsed with
              | Some h => Py.in_tuple h ["localhost"; "127.0.0.1"; "0.0.0.0"]
              | None => false
              end then
        print MsgLocalUrl ;; mret false
      else mret true
  end.

(** [response.headers.get('Content-Type', '').lower().split(';')[0]] *)
Definition declared_content_type (response : Response) : string :=
  nth 0 (Py.split ";" (Py.lower (default EmptyString
                                   (headers_get "Content-Type" (headers response)))))
    EmptyString.

(** [validate_response_headers] *)
Definition validate_response_headers (response : Response) : M bool :=
  slf ← get_self;
  let content_type := declared_content_type response in
  if negb (bool_decide (content_type = "")) &&
     negb (Py.in_tuple content_type (allowed_content_types slf)) then
    print (MsgContentTypeNotAllowed content_type) ;; mret false
  else
    let too_large :=
      match headers_get "Content-Length" (headers response) with
      | Some content_length =>
          if bool_decide (content_length = "") then None
          else match Py.int content_length with
               | Some size => if size >? max_file_size slf then Some size else None
               | None => None
               end
      | None => None
      end in
    match too_large with
    | Some size => print (MsgFileTooLargeHeader size) ;; mret false
    | None =>
        let security_headers :=
          ["X-Content-Type-Options"; "X-Frame-Options"; "Content-Security-Policy"] in
        let missing_headers :=
          filter (λ h, headers_get h (headers response) = None) security_headers in
        (if negb (bool_decide (missing_headers = [])) &&
            negb (Py.startswith "image/" content_type)
         then print (MsgSecurityHeadersMissing missing_headers)
         else mret ()) ;;
        mret true
    end.

(** [calculate_content_hash]: a [requests.Response] always has the attribute
    [content]; reading it fetches the whole body. *)
Definition calculate_content_hash (response : Response) : M string :=
  emit EvReadContent ;;
  body ← lift (content response);
  mret (Sha256.hexdigest body).

(** The loop of [is_duplicate] over the records. *)
Fixpoint is_duplicate_loop (records : list json) (content_hash : string)
  : exn + bool :=
  match records with
  | [] => inr false
  | record :: rest =>
      match py_getitem record "hash" with
      | inl e => inl e
      | inr h =>
          if py_eq_str h content_hash then inr true
          else is_duplicate_loop rest content_hash
      end
  end.

(** [is_duplicate] *)
Definition is_duplicate (content_hash url : string) : M bool :=
  slf ← get_self;
  records ← lift (py_iter (downloaded_hashes slf));
  lift (is_duplicate_loop records content_hash).

(** [is_safe_filename] *)
Definition is_safe_filename (filename : string) : bool :=
  let dangerous_chars :=
    [".."; "/"; String Json.backslash EmptyString; ":"; "*"; "?";
     String Json.dquote EmptyString; "<"; ">"; "|"] in
  negb (existsb (λ char, Py.contains char filename) dangerous_chars) &&
  bool_decide (String.length filename < 255)%nat.

(** [get_extension_from_content_type] *)
Definition get_extension_from_content_type (content_type : string) : string :=
  let extensions :=
    [("image/jpeg", ".jpg"); ("image/jpg", ".jpg"); ("image/png", ".png");
     ("image/gif", ".gif"); ("image/bmp", ".bmp"); ("image/webp", ".webp");
     ("image/svg+xml", ".svg"); ("image/tiff", ".tiff")] in
  default ".jpg" (snd <$> List.find (λ kv, bool_decide (kv.1 = content_type)) extensions).

(** The quote characters [strip] removes from a [Content-Disposition] name. *)
Definition quotes : string := String Json.dquote "'".

(** [extract_filename] *)
Definition extract_filename (env : Env) (url : string) (response : Response)
  : M string :=
  let content_disposition :=
    default EmptyString (headers_get "Content-Disposition" (headers response)) in
  let from_header :=
    if Py.contains "filename=" content_disposition then
      let filename :=
        Py.strip quotes (nth 1 (Py.split "filename=" content_disposition) EmptyString) in
      if negb (bool_decide (filename = "")) && is_safe_filename filename
      then Some filename else None
    else None in
  match from_header with
  | Some filename => mret filename
  | None =>
      match Url.urlparse url with
      | None => raise ValueError
      | Some parsed_url =>
          let filename := OsPath.basename (Url.path parsed_url) in
          let filename :=
            if bool_decide (filename = "") || negb (Py.contains "." filename) then
              let content_type := declared_content_type response in
              let extension := get_extension_from_content_type content_type in
              "image_" +:+ strftime (now_filename env) +:+ extension
            else filename in
          mret (if is_safe_filename filename then filename
                else "safe_image_" +:+ strftime (now_filename env) +:+ ".jpg")
      end
  end.

(** [get_unique_filepath]: the body is that of the starter script with
    [self.download_dir] for the directory. *)
Definition get_unique_filepath (filename : string) : M string :=
  slf ← get_self;
  f ← get_fs;
  match Starter.get_unique_filepath f (download_dir slf) filename with
  | Some filepath => mret filepath
  | None => raise OutOfFuel
  end.

(** [save_download_metadata] *)
Definition save_download_metadata (env : Env) (content_hash url filepath : string)
    (file_size : Z) : M unit :=
  let metadata :=
    JDict [("hash", JStr content_hash);
           ("url", JStr url);
           ("filepath", JStr filepath);
           ("file_size", JInt file_size);
           ("download_date", JStr (isoformat (now_metadata env)))] in
  slf ← get_self;
  ledger ← lift (py_append (downloaded_hashes slf) metadata);
  set_downloaded_hashes ledger ;;
  try_except
    (if dump_fault env then raise OSError
     else
       f ← get_fs;
       match f !! metadata_file slf with
       | Some Dir => raise OSError
       | _ =>
           emit (EvDump (metadata_file slf)) ;;
           set_fs (<[metadata_file slf := File (dumps ledger)]> f)
       end)
    (λ e, match e with
          | OSError => print MsgMetadataWarning
          | _ => raise e
          end).

(** The body of [with open(filepath, 'wb') as f], from the chunk number [i]
    on: [Some b] when the loop returns [b], [None] when it runs to its
    end. *)
Fixpoint write_chunks (env : Env) (filepath : string) (chunks : list string)
    (i : nat) (downloaded_size : Z) : M (option bool) :=
  match chunks with
  | [] => mret None
  | chunk :: rest =>
      if bool_decide (chunk = "") then
        write_chunks env filepath rest i downloaded_size
      else
        write env filepath i chunk ;;
        let downloaded_size := downloaded_size + Z.of_nat (String.length chunk) in
        slf ← get_self;
        if downloaded_size >? max_file_size slf then
          remove filepath ;;
          print MsgExceededDuringDownload ;;
          mret (Some false)
        else write_chunks env filepath rest (S i) downloaded_size
  end.

(** [int(response.headers.get('Content-Length', 0))] *)
Definition declared_file_size (response : Response) : M Z :=
  match headers_get "Content-Length" (headers response) with
  | None => mret 0
  | Some text =>
      match Py.int text with
      | Some n => mret n
      | None => raise ValueError
      end
  end.

(** The [except] clauses of [download_image]. *)
Definition report (e : exn) : M bool :=
  print (match e with
         | Timeout => MsgTimeout
         | ConnectionError => MsgConnectionError
         | HTTPError => MsgHTTPError
         | TooManyRedirects => MsgTooManyRedirects
         | RequestException => MsgRequestError
         | OSError => MsgFileError
         | _ => MsgUnexpected e
         end) ;;
  mret false.

(** [download_image], lines 122 to 167: from the duplicate check passed to
    the end. *)
Definition store (env : Env) (url : string) (batch_mode : bool)
    (response : Response) (content_hash : string) : M bool :=
  filename ← extract_filename env url response;
  filepath ← get_unique_filepath filename;
  file_size ← declared_file_size response;
  slf ← get_self;
  if file_size >? max_file_size slf then
    print (MsgFileTooLarge file_size (max_file_size slf)) ;; mret false
  else
    open_wb env filepath ;;
    chunks ← iter_content response 8192;
    early ← write_chunks env filepath chunks 0 0;
    match early with
    | Some b => mret b
    | None =>
        actual_size ← getsize filepath;
        if bool_decide (actual_size = 0) then
          remove filepath ;; print MsgEmptyFile ;; mret false
        else
          save_download_metadata env content_hash url filepath actual_size ;;
          print (if batch_mode then MsgDownloaded filepath actual_size
                 else MsgFetched filepath actual_size) ;;
          mret true
    end.

(** [download_image], lines 76 to 110: the directory, the check of the URL,
    the HEAD request and the GET request.  [None] when the method has
    returned [False], the response of the GET request otherwise. *)
Definition request (env : Env) (url : string) : M (option Response) :=
  slf ← get_self;
  makedirs env (download_dir slf) ;;
  valid ← is_valid_url url;
  if negb valid then print MsgInvalidUrl ;; mret None
  else
    head_ok ← try_except
                (head_response ← requests_head env url;
                 validate_response_headers head_response)
                (λ e, if is_request_exception e then mret true else raise e);
    if negb head_ok then mret None
    else
      response ← requests_get env url;
      raise_for_status response ;;
      mret (Some response).

(** [download_image], lines 112 to 167: the headers of the response, the
    duplicate check, then [store]. *)
Definition check_and_store (env : Env) (url : string) (batch_mode : bool)
    (response : Response) : M bool :=
  ok ← validate_response_headers response;
  if negb ok then mret false
  else
    content_hash ← calculate_content_hash response;
    dup ← is_duplicate content_hash url;
    if dup : bool then print MsgDuplicate ;; mret false
    else store env url batch_mode response content_hash.

(** [download_image] *)
Definition download_image (env : Env) (url : string) (batch_mode : bool) : M bool :=
  try_except
    (r ← request env url;
     match r with
     | None => mret false
     | Some response => check_and_store env url batch_mode response
     end)
    report.

(** The loop of [multiple_urls_mode]: the number of successful calls. *)
Fixpoint process_urls (calls : list (Env * string)) (successful : nat) : M nat :=
  match calls with
  | [] => mret successful
  | (env, url) :: rest =>
      ok ← download_image env url true;
      process_urls rest (if ok : bool then S successful else successful)
  end.

End UbuntuImageFetcher.

(** ** Vocabulary of the specification *)

Module Spec.
Import Runtime Json.

(** Events that create, change or delete a file. *)
Definition is_file_event (e : event) : bool :=
  match e with
  | EvOpen _ | EvWrite _ _ | EvRemove _ | EvDump _ => true
  | _ => false
  end.


(** The file system once the directory [d] has been ensured. *)
Definition ensure_dir (d : string) (f : gmap string node) : gmap string node :=
  match f !! d with
  | None => <[d := Dir]> f
  | Some _ => f
  end.

(** [st'] comes from [st] by a step that keeps the fetcher object, at most
    ensures the directory [d], and adds only the events [evs], none of them
    on a file. *)
Definition quiet (d : string) (st st' : state) : Prop :=
  self st' = self st ∧
  (fs st' = fs st ∨ fs st' = ensure_dir d (fs st)) ∧
  ∃ evs, trace st' = trace st ++ evs ∧
         Forall (λ e, is_file_event e = false) evs.

(** The settings of two fetcher objects agree. *)
Definition same_config (a b : fetcher) : Prop :=
  download_dir a = download_dir b ∧
  metadata_file a = metadata_file b ∧
  max_file_size a = max_file_size b ∧
  allowed_content_types a = allowed_content_types b.

(** The ledger [b] is the ledger [a], possibly with entries appended. *)
Definition ledger_extends (a b : json) : Prop :=
  a = b ∨ ∃ l es, a = JList l ∧ b = JList (l ++ es).

(** [st'] comes from [st] by steps that keep the settings, only append to the
    ledger and remove no directory. *)
Definition grows (st st' : state) : Prop :=
  same_config (self st) (self st') ∧
  ledger_extends (downloaded_hashes (self st)) (downloaded_hashes (self st')) ∧
  ∀ d, fs st !! d = Some Dir → fs st' !! d = Some Dir.

(** Every run of [m] relates the state before to the state after by [R]. *)
Definition mframe {A} (R : state → state → Prop) (m : M A) : Prop :=
  ∀ st r st', m st = (r, st') → R st st'.

(** The shape of a ledger entry: the string fields [hash], [url], [filepath]
    and [download_date] and the integer field [file_size], and no other. *)
Definition entry_shape (v : json) : Prop :=
  ∃ h u p n d,
    v = JDict [("hash", JStr h); ("url", JStr u); ("filepath", JStr p);
               ("file_size", JInt n); ("download_date", JStr d)].

(** The keys of every dict of [v] are distinct, as in a Python value. *)
Fixpoint wf_json (v : json) : Prop :=
  match v with
  | JList l => (fix all (l : list json) : Prop :=
                  match l with
                  | [] => True
                  | x :: l' => wf_json x ∧ all l'
                  end) l
  | JDict d => NoDup (map fst d) ∧
               (fix all (d : list (string * json)) : Prop :=
                  match d with
                  | [] => True
                  | kv :: d' => wf_json kv.2 ∧ all d'
                  end) d
  | _ => True
  end.



End Spec.

(** Further vocabulary: the entry [save_download_metadata] appends, a fetcher
    object with another ledger, chunks put together, an environment with
    another answer of the disk to the write of the ledger. *)

Module Ledger.
Import Runtime Json.

Definition entry (content_hash url filepath : string) (file_size : Z) (date : string)
  : json :=
  JDict [("hash", JStr content_hash);
         ("url", JStr url);
         ("filepath", JStr filepath);
         ("file_size", JInt file_size);
         ("download_date", JStr date)].

Definition with_ledger (slf : fetcher) (ledger : json) : fetcher :=
  {| download_dir := download_dir slf;
     metadata_file := metadata_file slf;
     downloaded_hashes := ledger;
     max_file_size := max_file_size slf;
     allowed_content_types := allowed_content_types slf |}.

Fixpoint joined (chunks : list string) : string :=
  match chunks with
  | [] => EmptyString
  | chunk :: rest => chunk +:+ joined rest
  end.

Fixpoint total_length (chunks : list string) : Z :=
  match chunks with
  | [] => 0
  | chunk :: rest => Z.of_nat (String.length chunk) + total_length rest
  end.

(** Is there a directory at [p]? *)
Definition isdir (f : gmap string node) (p : string) : bool :=
  match f !! p with
  | Some Dir => true
  | _ => false
  end.

Definition with_dump_fault (b : bool) (env : Env) : Env :=
  {| head_reply := head_reply env;
     get_reply := get_reply env;
     now_filename := now_filename env;
     now_metadata := now_metadata env;
     makedirs_fault := makedirs_fault env;
     open_fault := open_fault env;
     write_fault := write_fault env;
     dump_fault := b |}.

End Ledger.

(** ** Sample data: a clock, responses, environments and states *)

Module Sample.
Import Runtime Json.

Definition clock : datetime :=
  {| year := 2026; month := 1; day := 2;
     hour := 3; minute := 4; second := 5; microsecond := 0 |}.

Definition response (h : list (string * string)) (body : string) : Response :=
  {| status_code := 200; headers := h; content := inr body |}.

(** An environment whose HEAD request fails to connect and whose GET request
    is answered by [r], with a disk that works. *)
Definition env (r : Response) : Env :=
  {| head_reply := inl ConnectionError;
     get_reply := inr r;
     now_filename := clock;
     now_metadata := clock;
     makedirs_fault := false;
     open_fault := false;
     write_fault := None;
     dump_fault := false |}.

(** The same with a body whose write number [i] fails. *)
Definition env_disk_full (r : Response) (i : nat) : Env :=
  {| head_reply := inl ConnectionError;
     get_reply := inr r;
     now_filename := clock;
     now_metadata := clock;
     makedirs_fault := false;
     open_fault := false;
     write_fault := Some i;
     dump_fault := false |}.

(** A fresh fetcher on an empty disk. *)
Definition start : state :=
  {| self := UbuntuImageFetcher.init ∅ false; fs := ∅; trace := [] |}.


Definition png (body : string) : Response :=
  response [("Content-Type", "image/png")] body.

End Sample.

(** ** Sample runs *)

Module Runs.
Import Runtime Json Sample.

Definition cat_url : string := "https://example.com/cat.png".
Definition mirror_url : string := "https://example.com/cat_mirror.png".
Definition dog_url : string := "https://example.com/dog.png".

(** The body [hello] served as a PNG of declared length 5. *)
Definition cat : Response :=
  response [("Content-Type", "image/png"); ("Content-Length", "5")] "hello".

(** The same body served by a mirror without any header. *)
Definition cat_mirror : Response := response [] "hello".

(** The ledger entry of the first fetch of [cat]. *)
Definition cat_entry : json :=
  Ledger.entry (Sha256.hexdigest "hello") cat_url "Fetched_Images/cat.png" 5
    "2026-01-02T03:04:05".

(** The state after [cat] has been fetched from [cat_url]. *)
Definition after_cat : state :=
  (UbuntuImageFetcher.download_image (env cat) cat_url false start).2.

(** Another fetch in between. *)
Definition between : list (Env * string) := [(env (png "woof"), dog_url)].

Definition after_dog : state :=
  (UbuntuImageFetcher.process_urls between 0 after_cat).2.


(** A response whose Content-Length is no number. *)
Definition garbled : Response :=
  response [("Content-Type", "image/png"); ("Content-Length", "abc")] "hello".

(** A body of 8195 bytes: two chunks. *)
Definition two_chunks : Response := png (Py.repeat_char 8195 "x").

(** A response that names an unsafe file in its Content-Disposition. *)
Definition evil : Response :=
  response [("Content-Disposition", "attachment; filename=../evil.png")] "abc".

End Runs.

(** ** Vocabulary for file names *)

Module Names.
Import Runtime.

(** The ranges of the fields of a [datetime] with a year of four digits
    (for earlier years the width of [%Y] depends on the C library). *)
Definition datetime_ok (t : datetime) : Prop :=
  (1000 ≤ year t ≤ 9999)%N ∧ (1 ≤ month t ≤ 12)%N ∧ (1 ≤ day t ≤ 31)%N ∧
  (hour t < 24)%N ∧ (minute t < 60)%N ∧ (second t < 60)%N ∧
  (microsecond t < 1000000)%N.

(** The candidate the Content-Disposition header gives, when the header has a
    [filename=] part. *)
Definition header_candidate (response : Response) : option string :=
  let content_disposition :=
    default EmptyString (headers_get "Content-Disposition" (headers response)) in
  if Py.contains "filename=" content_disposition
  then Some (Py.strip UbuntuImageFetcher.quotes
               (nth 1 (Py.split "filename=" content_disposition) EmptyString))
  else None.

(** The header gives a candidate that [extract_filename] takes. *)
Definition header_usable (response : Response) : bool :=
  match header_candidate response with
  | Some c => negb (bool_decide (c = "")) && UbuntuImageFetcher.is_safe_filename c
  | None => false
  end.

(** The time-stamped names [extract_filename] makes up. *)
Definition stamped (env : Env) (response : Response) : string :=
  "image_" +:+ strftime (now_filename env) +:+
  UbuntuImageFetcher.get_extension_from_content_type
    (UbuntuImageFetcher.declared_content_type response).

Definition safe_stamped (env : Env) : string :=
  "safe_image_" +:+ strftime (now_filename env) +:+ ".jpg".

(** Characters of the names the program makes up. *)
Definition stamp_char (c : ascii) : bool :=
  Py.is_digit c || bool_decide (c = "_"%char).

Definition name_char (c : ascii) : bool :=
  Py.is_digit c || Py.is_lower c || bool_decide (c = "_"%char) ||
  bool_decide (c = "."%char).

Definition not_dot (c : ascii) : bool := negb (bool_decide (c = "."%char)).

End Names.

(** ** Vocabulary for the text of a JSON document *)

Module JsonText.
Import Json.

(** What [encode] writes after the first item of a list and after the first
    pair of a dict. *)
Fixpoint list_rest (level : nat) (l : list json) : string :=
  match l with
  | [] => newline_indent level +:+ "]"
  | y :: l' =>
      "," +:+ newline_indent (S level) +:+ encode (S level) y +:+ list_rest level l'
  end.

Fixpoint dict_rest (level : nat) (l : list (string * json)) : string :=
  match l with
  | [] => newline_indent level +:+ "}"
  | (k', y) :: l' =>
      "," +:+ newline_indent (S level) +:+ encode_string k' +:+ ": " +:+
      encode (S level) y +:+ dict_rest level l'
  end.

(** The text after a number does not go on as a number. *)
Definition delimited (rest : string) : bool :=
  match rest with
  | EmptyString => true
  | String c _ =>
      negb (Py.is_digit c) && negb (bool_decide (c = "."%char)) &&
      negb (bool_decide (c = "e"%char)) && negb (bool_decide (c = "E"%char))
  end.

(** A printable ASCII character or a line feed. *)
Definition plain_ascii (c : ascii) : bool :=
  (32 <=? nat_of_ascii c)%nat && (nat_of_ascii c <=? 126)%nat ||
  bool_decide (c = newline).

(** The characters a JSON value starts with. *)
Definition head_char (c : ascii) : bool :=
  Py.is_digit c ||
  Py.mem_char c (String dquote "-ntf[{").

Definition starts_value (s : string) : bool :=
  match s with
  | String c _ => head_char c
  | EmptyString => false
  end.

End JsonText.


(** ** Vocabulary for the effects of a fetch on the disk *)

Module Effects.
Import Runtime.

(** A file name without a directory part: no slash, not empty, not [..]. *)
Definition plain_name (n : string) : bool :=
  negb (Py.contains "/" n) && negb (bool_decide (n = "")) &&
  negb (bool_decide (n = "..")).

(** The event [e] opens, writes or removes no file other than [p] and writes
    no ledger other than [mf]. *)
Definition on_path (p mf : string) (e : event) : bool :=
  match e with
  | EvOpen q | EvWrite q _ | EvRemove q => bool_decide (q = p)
  | EvDump q => bool_decide (q = mf)
  | _ => true
  end.

(** [st'] comes from [st] by steps that keep the paths of the fetcher object,
    change the file system at most at [p] and at the ledger file, may create
    the download directory, and act on no other file. *)
Definition confined (p : string) (st st' : state) : Prop :=
  download_dir (self st') = download_dir (self st) ∧
  metadata_file (self st') = metadata_file (self st) ∧
  (∀ q, q ≠ p → q ≠ metadata_file (self st) →
        fs st' !! q = fs st !! q ∨
        (q = download_dir (self st) ∧ fs st !! q = None ∧ fs st' !! q = Some Dir)) ∧
  ∃ evs, trace st' = trace st ++ evs ∧
         Forall (λ e, on_path p (metadata_file (self st)) e = true) evs.

(** Events that fetch a body: the GET request and the reading of its
    content. *)
Definition is_body_event (e : event) : bool :=
  match e with
  | EvGet _ | EvReadContent => true
  | _ => false
  end.

(** [st'] comes from [st] by adding events that all satisfy [P]. *)
Definition emits (P : event → bool) (st st' : state) : Prop :=
  ∃ evs, trace st' = trace st ++ evs ∧ Forall (λ e, P e = true) evs.

(** [st'] has the fetcher object of [st]. *)
Definition keeps_self (st st' : state) : Prop := self st' = self st.


(** The events of a fetch that stops before the GET request. *)
Definition before_get (e : event) : bool :=
  negb (Spec.is_file_event e) && negb (is_body_event e).

(** Every run of [m] returns [True] or leaves the fetcher object as it was. *)
Definition true_or_same (m : M bool) : Prop :=
  ∀ st r st', m st = (r, st') → r = inr true ∨ self st' = self st.

Definition is_makedirs (e : event) : bool :=
  match e with
  | EvMakedirs _ => true
  | _ => false
  end.

Definition not_makedirs (e : event) : bool := negb (is_makedirs e).

(** The [hash] fields of the records of a ledger. *)
Definition hashes (l : list Json.json) : list Json.json :=
  omap (λ record, match py_getitem record "hash" with
                  | inr h => Some h
                  | inl _ => None
                  end) l.

End Effects.


(** ** [format_file_size] (the same function in both scripts) *)

Module FileSize.

(** [n / 2**k] for an [int] [n >= 0]: Python's true division gives the double
    nearest to the quotient, ties to even.  The result is the pair [(m, e)]
    that stands for the double [m * 2**e]; [None] stands for
    [OverflowError]. *)
Definition truediv_pow2 (n k : Z) : option (Z * Z) :=
  let s := Z.log2 n + 1 - 53 in
  if s <=? 0 then Some (n, - k)
  else
    let m0 := Z.shiftr n s in
    let r := n - Z.shiftl m0 s in
    let half := Z.shiftl 1 (s - 1) in
    let m := if (half <? r) || ((r =? half) && Z.odd m0) then m0 + 1 else m0 in
    if 2 ^ 1024 <=? m * 2 ^ (s - k) then None else Some (m, s - k).

(** The number of tenths [format(x, '.1f')] shows for the double
    [x = m * 2**e >= 0]: the multiple of one tenth nearest to [x], ties to
    even. *)
Definition tenths (m e : Z) : Z :=
  if 0 <=? e then 10 * m * 2 ^ e
  else
    let d := 2 ^ (- e) in
    let q := (10 * m) / d in
    let r := (10 * m) mod d in
    if (d <? 2 * r) || ((2 * r =? d) && Z.odd q) then q + 1 else q.

(** [f"{x:.1f}"] *)
Definition format_1f (m e : Z) : string :=
  let t := tenths m e in
  Py.str (t / 10) +:+ "." +:+ Py.str (t mod 10).

(** [f"{size_bytes/2**k:.1f}{unit}"] *)
Definition scaled (size_bytes k : Z) (unit : string) : option string :=
  '(m, e) ← truediv_pow2 size_bytes k;
  Some (format_1f m e +:+ unit).

(** [format_file_size(size_bytes)]; [1024 = 2**10]. *)
Definition format_file_size (size_bytes : Z) : option string :=
  if size_bytes <? 1024 then Some (Py.str size_bytes +:+ " bytes")
  else if size_bytes <? 1024 ^ 2 then scaled size_bytes 10 " KB"
  else if size_bytes <? 1024 ^ 3 then scaled size_bytes 20 " MB"
  else scaled size_bytes 30 " GB".

(** The power of two and the name of the unit of a size of at least 1024. *)
Definition unit_of (size_bytes : Z) : Z * string :=
  if size_bytes <? 1024 ^ 2 then (10, " KB")
  else if size_bytes <? 1024 ^ 3 then (20, " MB")
  else (30, " GB").

End FileSize.


(** ** The interactive part: [main], [get_mode_choice], [single_url_mode],
    [multiple_urls_mode] *)

Module Ui.
Import Runtime.

(** The characters [str.strip()] removes, among the code points below 256. *)
Definition whitespace : string :=
  String "009" (String "010" (String "011" (String "012" (String "013"
  (String "028" (String "029" (String "030" (String "031" (String " "
  (String "133" (String "160" EmptyString))))))))))).

(** [s.strip()] *)
Definition strip (s : string) : string := Py.strip whitespace s.

(** The lines printed outside [download_image], one constructor per [print]
    statement. *)
Inductive ui_message :=
| MsgWelcome
| MsgTool
| MsgBuilt
| MsgChoose
| MsgOptionSingle
| MsgOptionMultiple
| MsgInvalidChoice
| MsgEnterUrls
| MsgNoUrls
| MsgProcessingCount (count : nat)
| MsgProcessing (i total : nat) (url : string)
| MsgSummary (successful total : nat)
| MsgCommunity.

(** The texts [input] shows. *)
Inductive prompt :=
| PromptChoice
| PromptSingle
| PromptUrl (number : nat).

(** What the user sees and types, in order; [UiFetch] carries the events of
    the calls of [download_image]. *)
Inductive ui_event :=
| UiPrint (m : ui_message)
| UiInput (p : prompt) (line : string)
| UiEof (p : prompt)
| UiFetch (e : event).

(** [UiOutOfFuel] is not a Python exception: it marks a loop of the model that
    ran out of fuel. *)
Inductive ui_exn :=
| EOFError
| Raised (e : exn)
| UiOutOfFuel.

(** A session: the fetcher and its disk, the lines still to be read from the
    standard input, the number of calls of [download_image] made so far, and
    the console. *)
Record session := {
  core : state;
  stdin : list string;
  fetched : nat;
  console : list ui_event
}.

Definition UiM (A : Type) : Type := session → (ui_exn + A) * session.

#[global] Instance UiM_ret : MRet UiM := λ A x s, (inr x, s).

#[global] Instance UiM_bind : MBind UiM := λ A B f m s,
  match m s with
  | (inr x, s') => f x s'
  | (inl e, s') => (inl e, s')
  end.

Definition ui_raise {A} (e : ui_exn) : UiM A := λ s, (inl e, s).

Definition show (ev : ui_event) : UiM unit := λ s,
  (inr (), {| core := core s; stdin := stdin s; fetched := fetched s;
              console := console s ++ [ev] |}).

Definition ui_print (m : ui_message) : UiM unit := show (UiPrint m).

(** [input(prompt)]: at the end of the input, [EOFError]. *)
Definition input (p : prompt) : UiM string := λ s,
  match stdin s with
  | [] =>
      (inl EOFError,
       {| core := core s; stdin := []; fetched := fetched s;
          console := console s ++ [UiEof p] |})
  | line :: rest =>
      (inr line,
       {| core := core s; stdin := rest; fetched := fetched s;
          console := console s ++ [UiInput p line] |})
  end.

(** [self.download_image(url, batch_mode)]: the call number [k] of the
    session meets the environment [world k]; the events it adds to the trace
    go to the console. *)
Definition fetch (world : nat → Env) (url : string) (batch_mode : bool) : UiM bool :=
  λ s,
    let '(r, st') :=
      UbuntuImageFetcher.download_image (world (fetched s)) url batch_mode (core s) in
    (match r with
     | inl e => inl (Raised e)
     | inr ok => inr ok
     end,
     {| core := st'; stdin := stdin s; fetched := S (fetched s);
        console := console s ++
                   map UiFetch (List.skipn (length (trace (core s))) (trace st')) |}).

(** [get_mode_choice] *)
Definition get_mode_choice : UiM string :=
  ui_print MsgChoose ;;
  ui_print MsgOptionSingle ;;
  ui_print MsgOptionMultiple ;;
  choice ← input PromptChoice;
  mret (strip choice).

(** [single_url_mode] *)
Definition single_url_mode (world : nat → Env) : UiM unit :=
  line ← input PromptSingle;
  let url := strip line in
  if negb (bool_decide (url = "")) then fetch world url false ;; mret ()
  else mret ().

(** The [while True] loop of [multiple_urls_mode]: one turn per line read. *)
Fixpoint ask_urls (fuel : nat) (urls : list string) : UiM (list string) :=
  match fuel with
  | O => ui_raise UiOutOfFuel
  | S fuel' =>
      line ← input (PromptUrl (length urls + 1));
      let url := strip line in
      if bool_decide (url = "") then mret urls
      else ask_urls fuel' (urls ++ [url])
  end.

(** The [for] loop of [multiple_urls_mode]. *)
Fixpoint process (world : nat → Env) (total : nat) (i : nat) (urls : list string)
    (successful : nat) : UiM nat :=
  match urls with
  | [] => mret successful
  | url :: rest =>
      ui_print (MsgProcessing i total url) ;;
      ok ← fetch world url true;
      process world total (S i) rest (if ok : bool then S successful else successful)
  end.

(** [multiple_urls_mode]: the loop that reads takes at most one turn per line
    of the input and one more. *)
Definition multiple_urls_mode (world : nat → Env) : UiM unit :=
  ui_print MsgEnterUrls ;;
  urls ← (λ s, ask_urls (S (length (stdin s))) [] s);
  if bool_decide (urls = []) then ui_print MsgNoUrls
  else
    ui_print (MsgProcessingCount (length urls)) ;;
    successful ← process world (length urls) 1 urls 0;
    ui_print (MsgSummary successful (length urls)) ;;
    ui_print MsgCommunity.

(** The method [main] *)
Definition main (world : nat → Env) : UiM unit :=
  ui_print MsgWelcome ;;
  ui_print MsgTool ;;
  ui_print MsgBuilt ;;
  mode ← get_mode_choice;
  if bool_decide (mode = "1") then single_url_mode world
  else if bool_decide (mode = "2") then multiple_urls_mode world
  else ui_print MsgInvalidChoice.

(** The function [main] of the module: a fetcher is made, then its method
    [main] runs. *)
Definition run (world : nat → Env) (f : gmap string node) (read_fault : bool)
    (lines : list string) : (ui_exn + unit) * session :=
  main world
    {| core := {| self := UbuntuImageFetcher.init f read_fault; fs := f; trace := [] |};
       stdin := lines; fetched := 0; console := [] |}.

(** The console when the lines [lines] are typed at the prompts for the URLs
    number [k + 1] and following. *)
Fixpoint typed (k : nat) (lines : list string) : list ui_event :=
  match lines with
  | [] => []
  | line :: rest => UiInput (PromptUrl (k + 1)) line :: typed (S k) rest
  end.

(** The calls of [download_image] a list of URLs leads to, from the call
    number [k] on. *)
Fixpoint calls_from (world : nat → Env) (k : nat) (urls : list string)
  : list (Env * string) :=
  match urls with
  | [] => []
  | url :: rest => (world k, url) :: calls_from world (S k) rest
  end.

End Ui.


(** ** The form of a digest *)

Module Digest.

(** A character of [0123456789abcdef], the alphabet of [hexdigest]. *)
Definition is_hex_digit (c : ascii) : bool :=
  Py.is_digit c || ((97 <=? nat_of_ascii c)%nat && (nat_of_ascii c <=? 102)%nat).

End Digest.


(** ** The starter script's [main] *)

(** The script has no object and no ledger: its state is the disk, the lines
    still to be read from the standard input and what it did so far. *)
Module StarterMain.

(** Exceptions inside [main]: those of the libraries, the [EOFError] of
    [input] and the [OverflowError] of a true division. *)
Inductive error :=
| EOFError
| OverflowError
| Lib (e : Runtime.exn).

(** The lines [main] prints, one constructor per [print] statement. *)
Inductive line :=
| LineWelcome
| LineTool
| LineWarning (content_type : string)
| LineCancelled
| LineEmpty
| LineFetched (name : string)
| LineSaved (filepath : string)
| LineSize (text : string)
| LineCommunity
| LineTimeout
| LineConnectionError
| LineHTTPError
| LineRequestError
| LineFileError
| LineUnexpected (e : error).

(** The texts [input] shows. *)
Inductive prompt :=
| PromptUrl
| PromptContinue.

(** What the outside world sees of a run, in order. *)
Inductive action :=
| Print (l : line)
| Input (p : prompt) (text : string)
| Eof (p : prompt)
| Makedirs (dir : string)
| Get (url : string)
| Open (path : string)
| Write (path : string) (count : nat)
| Remove (path : string).

Record state := {
  disk : gmap string Runtime.node;
  stdin : list string;
  log : list action
}.

(** A response fetched with [stream=True]: the chunks [iter_content] yields
    and, when the connection breaks, the exception raised after them. *)
Record Stream := {
  status_code : Z;
  headers : list (string * string);
  chunks : list string;
  broken : option Runtime.exn
}.

(** What the environment answers during one run: the reply of the network
    and the faults of the disk ([write_fault = Some i]: the write number [i]
    raises). *)
Record Env := {
  get_reply : Runtime.exn + Stream;
  makedirs_fault : bool;
  open_fault : option Runtime.exn;
  write_fault : option nat
}.

Definition P (A : Type) : Type := state → (error + A) * state.

#[global] Instance P_ret : MRet P := λ A x s, (inr x, s).

#[global] Instance P_bind : MBind P := λ A B f m s,
  match m s with
  | (inr x, s') => f x s'
  | (inl e, s') => (inl e, s')
  end.

Definition fail {A} (e : error) : P A := λ s, (inl e, s).

(** [try: body except: handler] *)
Definition try_except {A} (body : P A) (handler : error → P A) : P A := λ s,
  match body s with
  | (inr x, s') => (inr x, s')
  | (inl e, s') => handler e s'
  end.

Definition act (a : action) : P unit := λ s,
  (inr (), {| disk := disk s; stdin := stdin s; log := log s ++ [a] |}).

Definition print (l : line) : P unit := act (Print l).

(** [input(prompt)]: at the end of the input, [EOFError]. *)
Definition input (p : prompt) : P string := λ s,
  match stdin s with
  | [] => (inl EOFError, {| disk := disk s; stdin := []; log := log s ++ [Eof p] |})
  | text :: rest =>
      (inr text, {| disk := disk s; stdin := rest; log := log s ++ [Input p text] |})
  end.

Definition get_disk : P (gmap string Runtime.node) := λ s, (inr (disk s), s).

Definition set_disk (f : gmap string Runtime.node) : P unit := λ s,
  (inr (), {| disk := f; stdin := stdin s; log := log s |}).

(** [os.makedirs(dir, exist_ok=True)] *)
Definition makedirs (env : Env) (dir : string) : P unit :=
  act (Makedirs dir) ;;
  f ← get_disk;
  match f !! dir with
  | Some Runtime.Dir => mret ()
  | Some (Runtime.File _) => fail (Lib Runtime.OSError)
  | None =>
      if makedirs_fault env then fail (Lib Runtime.OSError)
      else set_disk (<[dir := Runtime.Dir]> f)
  end.

(** [open(path, 'wb')]: the file is created or truncated. *)
Definition open_wb (env : Env) (path : string) : P unit :=
  f ← get_disk;
  match f !! path with
  | Some Runtime.Dir => fail (Lib Runtime.OSError)
  | _ =>
      match open_fault env with
      | Some e => fail (Lib e)
      | None => act (Open path) ;; set_disk (<[path := Runtime.File EmptyString]> f)
      end
  end.

(** [f.write(chunk)], the write number [i] on the file at [path]. *)
Definition write (env : Env) (path : string) (i : nat) (chunk : string) : P unit :=
  if bool_decide (write_fault env = Some i) then fail (Lib Runtime.OSError)
  else
    f ← get_disk;
    match f !! path with
    | Some (Runtime.File data) =>
        act (Write path (String.length chunk)) ;;
        set_disk (<[path := Runtime.File (data +:+ chunk)]> f)
    | _ => fail (Lib Runtime.OSError)
    end.

(** [os.remove(path)] *)
Definition remove (path : string) : P unit :=
  f ← get_disk;
  match f !! path with
  | Some (Runtime.File _) => act (Remove path) ;; set_disk (delete path f)
  | _ => fail (Lib Runtime.OSError)
  end.

(** [os.path.getsize(path)] (the size of a directory entry is not used by
    the script; 4096 stands for it). *)
Definition getsize (path : string) : P Z :=
  f ← get_disk;
  match f !! path with
  | Some (Runtime.File data) => mret (Z.of_nat (String.length data))
  | Some Runtime.Dir => mret 4096
  | None => fail (Lib Runtime.OSError)
  end.

(** [requests.get(url, timeout=10, headers=headers, stream=True)] *)
Definition requests_get (env : Env) (url : string) : P Stream :=
  act (Get url) ;;
  match get_reply env with
  | inl e => fail (Lib e)
  | inr response => mret response
  end.

(** [response.raise_for_status()] *)
Definition raise_for_status (response : Stream) : P unit :=
  if bool_decide (400 ≤ status_code response < 600) then fail (Lib Runtime.HTTPError)
  else mret ().

Definition directory : string := "Fetched_Images".

(** What [os.path.exists] sees: the entries of the disk and, once the
    directory is there, its entries [.] and [..], which the table of the disk
    does not list. *)
Definition visible (f : gmap string Runtime.node) : gmap string Runtime.node :=
  match f !! directory with
  | Some Runtime.Dir =>
      <[OsPath.join directory "." := Runtime.Dir]>
        (<[OsPath.join directory ".." := Runtime.Dir]> f)
  | _ => f
  end.

(** [get_extension_from_content_type] *)
Definition get_extension_from_content_type (content_type : string) : string :=
  let extensions :=
    [("image/jpeg", ".jpg"); ("image/jpg", ".jpg"); ("image/png", ".png");
     ("image/gif", ".gif"); ("image/bmp", ".bmp"); ("image/webp", ".webp");
     ("image/svg+xml", ".svg"); ("image/tiff", ".tiff")] in
  default ".jpg" (snd <$> List.find (λ kv, bool_decide (kv.1 = content_type)) extensions).

(** [response.headers.get('Content-Type', '').lower()] *)
Definition content_type_of (response : Stream) : string :=
  Py.lower (default EmptyString (Runtime.headers_get "Content-Type" (headers response))).

(** Lines 27 to 33 of [main]: is the download to go on? *)
Definition confirm (content_type : string) : P bool :=
  if negb (Py.startswith "image/" content_type) then
    print (LineWarning content_type) ;;
    answer ← input PromptContinue;
    let proceed := Py.lower answer in
    if negb (bool_decide (proceed = "y")) then print LineCancelled ;; mret false
    else mret true
  else mret true.

(** Lines 36 to 42 of [main]: the name of the file. *)
Definition choose_filename (parsed_url : Url.ParseResult) (content_type : string)
  : string :=
  let filename := OsPath.basename (Url.path parsed_url) in
  if bool_decide (filename = "") || negb (Py.contains "." filename) then
    let extension := get_extension_from_content_type content_type in
    "downloaded_image" +:+ extension
  else filename.

(** The loop over [response.iter_content(chunk_size=8192)]; [i] counts the
    writes made so far.  A broken connection raises once the chunks received
    are through. *)
Fixpoint save_chunks (env : Env) (filepath : string) (i : nat)
    (received : list string) (broken : option Runtime.exn) : P unit :=
  match received with
  | [] =>
      match broken with
      | Some e => fail (Lib e)
      | None => mret ()
      end
  | chunk :: rest =>
      if bool_decide (chunk = "") then save_chunks env filepath i rest broken
      else write env filepath i chunk ;; save_chunks env filepath (S i) rest broken
  end.

(** The [try] block of [main], lines 14 to 45: the directory, the request,
    the check of the content type and the path of the file.  [None] when
    [main] has returned after [Download cancelled.] *)
Definition prepare (env : Env) (url : string) : P (option (Stream * string)) :=
  makedirs env directory ;;
  response ← requests_get env url;
  raise_for_status response ;;
  let content_type := content_type_of response in
  proceed ← confirm content_type;
  if negb proceed then mret None
  else
    match Url.urlparse url with
    | None => fail (Lib Runtime.ValueError)
    | Some parsed_url =>
        let filename := choose_filename parsed_url content_type in
        f ← get_disk;
        match Starter.get_unique_filepath (visible f) directory filename with
        | None => fail (Lib Runtime.OutOfFuel)
        | Some filepath => mret (Some (response, filepath))
        end
    end.

(** The [try] block of [main], lines 47 to 65: the file is written, measured
    and announced. *)
Definition store (env : Env) (response : Stream) (filepath : string) : P unit :=
  open_wb env filepath ;;
  save_chunks env filepath 0 (chunks response) (broken response) ;;
  file_size ← getsize filepath;
  if bool_decide (file_size = 0) then
    remove filepath ;; print LineEmpty
  else
    print (LineFetched (OsPath.basename filepath)) ;;
    print (LineSaved filepath) ;;
    match FileSize.format_file_size file_size with
    | None => fail OverflowError
    | Some text => print (LineSize text) ;; print LineCommunity
    end.

(** The [try] block of [main]. *)
Definition fetch (env : Env) (url : string) : P unit :=
  r ← prepare env url;
  match r with
  | None => mret ()
  | Some (response, filepath) => store env response filepath
  end.

(** The [except] clauses of [main], in their order. *)
Definition report (e : error) : P unit :=
  match e with
  | Lib Runtime.Timeout => print LineTimeout
  | Lib Runtime.ConnectionError => print LineConnectionError
  | Lib Runtime.HTTPError => print LineHTTPError
  | Lib Runtime.TooManyRedirects | Lib Runtime.RequestException => print LineRequestError
  | Lib Runtime.OSError => print LineFileError
  | _ => print (LineUnexpected e)
  end.

(** [main] *)
Definition main (env : Env) : P unit :=
  print LineWelcome ;;
  print LineTool ;;
  url ← input PromptUrl;
  try_except (fetch env url) report.

(** The actions on files. *)
Definition is_file_action (a : action) : bool :=
  match a with
  | Open _ | Write _ _ | Remove _ => true
  | _ => false
  end.

(** A run from the lines [lines] on the disk [f]. *)
Definition run (env : Env) (f : gmap string Runtime.node) (lines : list string)
  : (error + unit) * state :=
  main env {| disk := f; stdin := lines; log := [] |}.

End StarterMain.


(* ===================================================================== *)
(** * Part II: theorems *)
(* ===================================================================== *)

(** ** Facts about strings *)

Section StringFacts.

Lemma str_app_nil_l (s : string) : "" +:+ s = s.
Proof. reflexivity. Qed.

Lemma str_app_cons (c : ascii) (s t : string) : String c s +:+ t = String c (s +:+ t).
Proof. reflexivity. Qed.

Lemma str_app_nil_r (s : string) : s +:+ "" = s.
Proof. induction s as [|c s IH]; [done|]. by rewrite str_app_cons, IH. Qed.

Lemma str_app_assoc (s t u : string) : (s +:+ t) +:+ u = s +:+ (t +:+ u).
Proof. induction s as [|c s IH]; [done|]. by rewrite !str_app_cons, IH. Qed.

Lemma str_length_app (s t : string) :
  String.length (s +:+ t) = (String.length s + String.length t)%nat.
Proof. induction s as [|c s IH]; [done|]. rewrite str_app_cons. simpl. by rewrite IH. Qed.

(** Cancellation on the right. *)
Lemma str_app_inv_tail (s1 s2 t : string) : s1 +:+ t = s2 +:+ t → s1 = s2.
Proof.
  revert s2. induction s1 as [|c s1 IH]; intros [|d s2] H.
  - done.
  - apply (f_equal String.length) in H.
    rewrite str_app_nil_l, str_app_cons in H. simpl in H. rewrite str_length_app in H. lia.
  - apply (f_equal String.length) in H.
    rewrite str_app_nil_l, str_app_cons in H. simpl in H. rewrite str_length_app in H. lia.
  - rewrite !str_app_cons in H. injection H as -> H. f_equal. by apply IH.
Qed.

End StringFacts.

(** ** [get_unique_filepath] *)

Section UniquePath.
Import Runtime.

Lemma startswith_slash_stem (name x y : string) :
  Py.startswith "/" (name +:+ "_" +:+ x) = Py.startswith "/" (name +:+ "_" +:+ y).
Proof. destruct name; reflexivity. Qed.

Lemma join_inj_stem (directory name x y : string) :
  OsPath.join directory (name +:+ "_" +:+ x) = OsPath.join directory (name +:+ "_" +:+ y) →
  x = y.
Proof.
  unfold OsPath.join. rewrite (startswith_slash_stem name x y).
  destruct (Py.startswith "/" (name +:+ "_" +:+ y)).
  - intros H. by do 2 apply String.app_inj in H.
  - destruct (_ || _); intros H.
    + by do 3 apply String.app_inj in H.
    + by do 4 apply String.app_inj in H.
Qed.

Lemma candidate_inj (directory name ext : string) (j k : Z) :
  Starter.candidate directory name ext j = Starter.candidate directory name ext k →
  j = k.
Proof.
  unfold Starter.candidate. intros H%join_inj_stem.
  apply str_app_inv_tail in H. by apply (inj pretty) in H.
Qed.

Lemma probe_none f directory name ext fuel filepath counter :
  Starter.probe f directory name ext fuel filepath counter = None →
  exists_ f filepath = true ∧
  ∀ i, (i < fuel)%nat →
       exists_ f (Starter.candidate directory name ext (counter + Z.of_nat i)) = true.
Proof.
  revert filepath counter.
  induction fuel as [|fuel IH]; intros filepath counter H; simpl in H;
    destruct (exists_ f filepath) eqn:E; try done.
  { split; [done|]. intros; lia. }
  apply IH in H as [H0 Hall]. split; [done|].
  intros [|i] Hi.
  - replace (counter + Z.of_nat 0) with counter by lia. exact H0.
  - replace (counter + Z.of_nat (S i)) with ((counter + 1) + Z.of_nat i) by lia.
    apply Hall. lia.
Qed.

Lemma probe_some f directory name ext fuel filepath counter p :
  Starter.probe f directory name ext fuel filepath counter = Some p →
  exists_ f p = false ∧
  (p = filepath ∨
   exists_ f filepath = true ∧
   ∃ k, counter ≤ k ∧ p = Starter.candidate directory name ext k ∧
        ∀ j, counter ≤ j < k → exists_ f (Starter.candidate directory name ext j) = true).
Proof.
  revert filepath counter.
  induction fuel as [|fuel IH]; intros filepath counter H; simpl in H;
    destruct (exists_ f filepath) eqn:E; simplify_eq; auto.
  apply IH in H as [Hp [->|[Hc (k & Hk & -> & Hall)]]]; split; auto; right;
    split; auto.
  - exists counter. split; [lia|]. split; [done|]. intros; lia.
  - exists k. split; [lia|]. split; [done|].
    intros j Hj. destruct (decide (j = counter)) as [->|]; [done|].
    apply Hall. lia.
Qed.

(** More candidates than entries cannot all exist. *)
Lemma candidates_exhaust (f : gmap string node) directory name ext counter :
  ¬ ∀ i, (i < S (size f))%nat →
         exists_ f (Starter.candidate directory name ext (counter + Z.of_nat i)) = true.
Proof.
  intros H.
  set (l := (λ i, Starter.candidate directory name ext (counter + Z.of_nat i))
              <$> seq 0 (S (size f))).
  assert (NoDup l) as Hnd.
  { apply NoDup_fmap_2_strong; [|apply NoDup_seq].
    intros i j _ _ Hij%candidate_inj. lia. }
  assert (list_to_set l ⊆ dom f) as Hsub.
  { intros p [i [-> Hi%elem_of_seq]]%elem_of_list_to_set%list_elem_of_fmap.
    apply elem_of_dom. specialize (H i ltac:(lia)).
    unfold exists_ in H. by apply bool_decide_eq_true in H. }
  apply subseteq_size in Hsub.
  rewrite size_list_to_set, size_dom in Hsub by done.
  unfold l in Hsub. rewrite length_fmap, length_seq in Hsub. lia.
Qed.

Lemma get_unique_filepath_total f directory filename :
  is_Some (Starter.get_unique_filepath f directory filename).
Proof.
  unfold Starter.get_unique_filepath.
  destruct (negb _); [eauto|].
  destruct (OsPath.splitext filename) as [name ext].
  destruct (Starter.probe _ _ _ _ _ _ _) eqn:E; [eauto|].
  destruct (candidates_exhaust f directory name ext 1).
  by apply (probe_none _ _ _ _ _ _ _ E).
Qed.

Lemma get_unique_filepath_fresh f directory filename p :
  Starter.get_unique_filepath f directory filename = Some p → exists_ f p = false.
Proof.
  unfold Starter.get_unique_filepath.
  destruct (exists_ f (OsPath.join directory filename)) eqn:E; cbn [negb].
  - destruct (OsPath.splitext filename) as [name ext].
    by intros [? _]%probe_some.
  - congruence.
Qed.

End UniquePath.

(** C7.  For every directory snapshot [f] and every file name,
    [get_unique_filepath] returns (the loop ends); the path returned is
    [directory/filename] itself when no file is there, and otherwise the
    candidate [stem_k.ext] of the least counter [k >= 1] whose path is unused,
    every candidate from 1 to [k - 1] being taken; the path returned names no
    existing file; the method of the class returns the same path and leaves
    the state as it was, so that two calls in a row on an unchanged
    directory give the same path twice; and once a file is created at the
    path returned, the next call returns another path. *)
Theorem unique_path_contract (f : gmap string Runtime.node) (directory filename : string) :
  ∃ p,
    Starter.get_unique_filepath f directory filename = Some p ∧
    Runtime.exists_ f p = false ∧
    (if Runtime.exists_ f (OsPath.join directory filename)
     then ∃ k, 1 ≤ k ∧
               p = Starter.candidate directory (OsPath.splitext filename).1
                     (OsPath.splitext filename).2 k ∧
               ∀ j, 1 ≤ j < k →
                    Runtime.exists_ f
                      (Starter.candidate directory (OsPath.splitext filename).1
                         (OsPath.splitext filename).2 j) = true
     else p = OsPath.join directory filename) ∧
    (∀ slf tr,
       Runtime.download_dir slf = directory →
       let st := {| Runtime.self := slf; Runtime.fs := f; Runtime.trace := tr |} in
       UbuntuImageFetcher.get_unique_filepath filename st = (inr p, st) ∧
       (p1 ← UbuntuImageFetcher.get_unique_filepath filename;
        p2 ← UbuntuImageFetcher.get_unique_filepath filename;
        mret (p1, p2)) st = (inr (p, p), st)) ∧
    (∀ data, ∃ p',
       Starter.get_unique_filepath (<[p := Runtime.File data]> f) directory filename
         = Some p' ∧
       p' ≠ p).
Proof.
  destruct (get_unique_filepath_total f directory filename) as [p Hp].
  exists p. split; [done|].
  pose proof (get_unique_filepath_fresh _ _ _ _ Hp) as Hfresh.
  split; [done|]. split; [|split].
  - unfold Starter.get_unique_filepath in Hp.
    destruct (Runtime.exists_ f (OsPath.join directory filename)) eqn:E; cbn [negb] in Hp.
    + destruct (OsPath.splitext filename) as [name ext]; simpl.
      apply probe_some in Hp as [_ [->|[_ (k & Hk & -> & Hall)]]]; [congruence|].
      eauto.
    + congruence.
  - intros slf tr <-. simpl.
    assert (UbuntuImageFetcher.get_unique_filepath filename
              {| Runtime.self := slf; Runtime.fs := f; Runtime.trace := tr |}
            = (inr p, {| Runtime.self := slf; Runtime.fs := f; Runtime.trace := tr |}))
      as Hrun.
    { unfold UbuntuImageFetcher.get_unique_filepath, mbind, Runtime.M_bind; simpl.
      by rewrite Hp. }
    split; [done|].
    unfold mbind, Runtime.M_bind at 1. rewrite Hrun.
    unfold Runtime.M_bind. by rewrite Hrun.
  - intros data.
    destruct (get_unique_filepath_total (<[p := Runtime.File data]> f) directory filename)
      as [p' Hp'].
    exists p'. split; [done|].
    apply get_unique_filepath_fresh in Hp'. intros ->.
    unfold Runtime.exists_ in Hp'. apply bool_decide_eq_false in Hp'.
    apply Hp'. rewrite lookup_insert_eq. eauto.
Qed.

(** ** Running computations *)

Import Runtime Spec.

Lemma bind_run {A B} (m : M A) (f : A → M B) (st : state) :
  (m ≫= f) st =
  match m st with
  | (inr x, st') => f x st'
  | (inl e, st') => (inl e, st')
  end.
Proof. reflexivity. Qed.

Lemma try_except_run {A} (m : M A) (h : exn → M A) (st : state) :
  try_except m h st =
  match m st with
  | (inr x, st') => (inr x, st')
  | (inl e, st') => h e st'
  end.
Proof. reflexivity. Qed.

Lemma state_eta (st : state) :
  {| self := self st; fs := fs st; trace := trace st |} = st.
Proof. by destruct st. Qed.

Lemma ensure_dir_idemp d f : ensure_dir d (ensure_dir d f) = ensure_dir d f.
Proof.
  unfold ensure_dir. destruct (f !! d) eqn:E.
  - by rewrite E.
  - by rewrite lookup_insert_eq.
Qed.

Lemma ensure_dir_present d f : f !! d = Some Dir → ensure_dir d f = f.
Proof. unfold ensure_dir. by intros ->. Qed.

Lemma ensure_dir_other d f p : p ≠ d → ensure_dir d f !! p = f !! p.
Proof.
  intros. unfold ensure_dir. destruct (f !! d); [done|]. by rewrite lookup_insert_ne.
Qed.

Lemma quiet_refl d : Reflexive (quiet d).
Proof.
  intros st. split; [done|]. split; [by left|].
  exists []. by rewrite app_nil_r.
Qed.
#[global] Existing Instance quiet_refl.

Lemma quiet_trans d : Transitive (quiet d).
Proof.
  intros a b c (Hs1 & Hf1 & evs1 & Ht1 & He1) (Hs2 & Hf2 & evs2 & Ht2 & He2).
  split; [congruence|]. split.
  - destruct Hf1 as [Hf1|Hf1], Hf2 as [Hf2|Hf2]; rewrite Hf2, Hf1;
      rewrite ?ensure_dir_idemp; auto.
  - exists (evs1 ++ evs2). rewrite Ht2, Ht1, app_assoc.
    split; [done|]. by apply Forall_app.
Qed.
#[global] Existing Instance quiet_trans.

Lemma same_config_refl : Reflexive same_config.
Proof. by intros a. Qed.
#[global] Existing Instance same_config_refl.

Lemma same_config_trans : Transitive same_config.
Proof. intros a b c (?&?&?&?) (?&?&?&?). repeat split; congruence. Qed.
#[global] Existing Instance same_config_trans.

Lemma ledger_extends_refl : Reflexive ledger_extends.
Proof. intros a. by left. Qed.
#[global] Existing Instance ledger_extends_refl.

Lemma ledger_extends_trans : Transitive ledger_extends.
Proof.
  intros a b c [->|(l & es & -> & ->)] [<-|(l' & es' & Hb & ->)].
  - by left.
  - right; eauto.
  - right; eauto.
  - right. injection Hb as <-. exists l, (es ++ es'). by rewrite app_assoc.
Qed.
#[global] Existing Instance ledger_extends_trans.

Lemma grows_refl : Reflexive grows.
Proof. intros st. split; [done|]. split; [by left|done]. Qed.
#[global] Existing Instance grows_refl.

Lemma grows_trans : Transitive grows.
Proof.
  intros a b c (Hc1 & Hl1 & Hd1) (Hc2 & Hl2 & Hd2).
  split; [by etrans|]. split; [by etrans|]. auto.
Qed.
#[global] Existing Instance grows_trans.

(** The rules of [mframe]. *)

Lemma mframe_ret {A} R `{!Reflexive R} (x : A) : mframe R (mret x).
Proof. intros st r st' [= <- <-]. reflexivity. Qed.

Lemma mframe_raise {A} R `{!Reflexive R} (e : exn) : mframe R (@raise A e).
Proof. intros st r st' [= <- <-]. reflexivity. Qed.

Lemma mframe_lift {A} R `{!Reflexive R} (x : exn + A) : mframe R (lift x).
Proof. intros st r st' [= <- <-]. reflexivity. Qed.

Lemma mframe_bind {A B} R `{!Transitive R} (m : M A) (f : A → M B) :
  mframe R m → (∀ x, mframe R (f x)) → mframe R (m ≫= f).
Proof.
  intros Hm Hf st r st'. rewrite bind_run.
  destruct (m st) as [[e|x] st1] eqn:E.
  - intros [= <- <-]. eauto.
  - intros H. etrans; [by eapply Hm|by eapply Hf].
Qed.

Lemma mframe_try {A} R `{!Transitive R} (m : M A) (h : exn → M A) :
  mframe R m → (∀ e, mframe R (h e)) → mframe R (try_except m h).
Proof.
  intros Hm Hh st r st'. rewrite try_except_run.
  destruct (m st) as [[e|x] st1] eqn:E.
  - intros H. etrans; [by eapply Hm|by eapply Hh].
  - intros [= <- <-]. eauto.
Qed.

Lemma mframe_get_self R `{!Reflexive R} : mframe R get_self.
Proof. intros st r st' [= <- <-]. reflexivity. Qed.

Lemma mframe_get_fs R `{!Reflexive R} : mframe R get_fs.
Proof. intros st r st' [= <- <-]. reflexivity. Qed.

(** Unfold the monad and the state accessors, and compute. *)
Ltac mrun :=
  repeat progress
    (unfold mbind, mret, M_bind, M_ret, raise, lift, try_except, emit, print,
       get_self, get_fs, set_fs, set_downloaded_hashes;
     simpl).

Tactic Notation "mrun" "in" hyp(H) :=
  repeat progress
    (unfold mbind, mret, M_bind, M_ret, raise, lift, try_except, emit, print,
       get_self, get_fs, set_fs, set_downloaded_hashes in H;
     simpl in H).

(** *** Steps that touch no file *)

Lemma quiet_emit d (e : event) :
  is_file_event e = false → mframe (quiet d) (emit e).
Proof.
  intros He st r st' H. injection H as <- <-. split; [done|]. split; [by left|].
  exists [e]. split; [done|]. by constructor.
Qed.

Lemma quiet_print d (m : message) : mframe (quiet d) (print m).
Proof. by apply quiet_emit. Qed.

Lemma quiet_makedirs d env : mframe (quiet d) (makedirs env d).
Proof.
  intros st r st'. unfold makedirs. mrun.
  destruct (fs st !! d) as [[?|]|] eqn:E; [| |destruct (makedirs_fault env)];
    intros [= <- <-]; (split; [done|]); simpl;
    (split; [|exists [EvMakedirs d]; split; [done|by constructor]]); auto.
  right. unfold ensure_dir. by rewrite E.
Qed.

(** Solve a goal [mframe (quiet d) m] by the structure of [m]. *)
Ltac quiet_steps :=
  repeat first
    [ apply mframe_ret; apply _
    | apply mframe_raise; apply _
    | apply mframe_lift; apply _
    | apply mframe_get_self; apply _
    | apply mframe_get_fs; apply _
    | apply quiet_print
    | apply quiet_emit; reflexivity
    | apply quiet_makedirs
    | apply mframe_bind; [apply _| |intros ?]
    | apply mframe_try; [apply _| |intros ?]
    | progress cbv zeta
    | case_match ].

(** One step of the same, for computations that call methods. *)
Ltac quiet_steps1 :=
  first
    [ apply mframe_ret; apply _
    | apply mframe_raise; apply _
    | apply mframe_lift; apply _
    | apply mframe_get_self; apply _
    | apply quiet_emit; reflexivity
    | apply quiet_print
    | apply quiet_makedirs
    | apply mframe_bind; [apply _| |intros ?]
    | apply mframe_try; [apply _| |intros ?]
    | case_match ].

Lemma quiet_is_valid_url d url : mframe (quiet d) (UbuntuImageFetcher.is_valid_url url).
Proof. unfold UbuntuImageFetcher.is_valid_url. quiet_steps. Qed.

Lemma quiet_validate d response :
  mframe (quiet d) (UbuntuImageFetcher.validate_response_headers response).
Proof. unfold UbuntuImageFetcher.validate_response_headers. quiet_steps. Qed.

Lemma quiet_request env url st r st' :
  UbuntuImageFetcher.request env url st = (r, st') →
  quiet (download_dir (self st)) st st'.
Proof.
  intros H. unfold UbuntuImageFetcher.request in H. rewrite bind_run in H.
  change (get_self st) with (@inr exn _ (self st), st) in H. cbn beta iota in H.
  revert H. generalize (download_dir (self st)) as d. intros d.
  revert st r st'. refine (_ : mframe (quiet d) _).
  unfold requests_head, requests_get, raise_for_status.
  repeat first [apply quiet_is_valid_url | apply quiet_validate | progress quiet_steps1].
Qed.

(** ** What every run keeps: the settings, the ledger entries, the directories *)

Import UbuntuImageFetcher.

Lemma grows_of_quiet d st st' : quiet d st st' → grows st st'.
Proof.
  intros (Hs & Hf & _). unfold grows. rewrite Hs. split; [done|]. split; [by left|].
  intros p Hp. destruct Hf as [->| ->]; [done|].
  unfold ensure_dir. destruct (fs st !! d) eqn:E; [done|].
  rewrite lookup_insert_ne; [done|]. congruence.
Qed.

Lemma grows_emit (e : event) : mframe grows (emit e).
Proof. intros st r st' [= <- <-]. by split; [|split; [left|]]. Qed.

Lemma grows_print (m : message) : mframe grows (print m).
Proof. apply grows_emit. Qed.

Lemma grows_set_file st p data evs :
  fs st !! p ≠ Some Dir →
  grows st {| self := self st; fs := <[p := File data]> (fs st); trace := evs |}.
Proof.
  intros Hp. split; [done|]. split; [by left|]. simpl. intros d Hd.
  rewrite lookup_insert_ne; [done|]. congruence.
Qed.

Lemma grows_open_wb env path : mframe grows (open_wb env path).
Proof.
  intros st r st'. unfold open_wb. mrun.
  destruct (fs st !! path) as [[data|]|] eqn:E; try destruct (open_fault env);
    intros [= <- <-]; try reflexivity; apply grows_set_file; congruence.
Qed.

Lemma grows_write env path i chunk : mframe grows (write env path i chunk).
Proof.
  intros st r st'. unfold write. case_bool_decide; mrun.
  { intros [= <- <-]. reflexivity. }
  destruct (fs st !! path) as [[data|]|] eqn:E;
    intros [= <- <-]; try reflexivity; apply grows_set_file; congruence.
Qed.

Lemma grows_remove path : mframe grows (remove path).
Proof.
  intros st r st'. unfold remove. mrun.
  destruct (fs st !! path) as [[data|]|] eqn:E;
    intros [= <- <-]; try reflexivity.
  split; [done|]. split; [by left|]. simpl. intros d Hd.
  rewrite lookup_delete_ne; [done|]. congruence.
Qed.

Lemma grows_getsize path : mframe grows (getsize path).
Proof.
  intros st r st'. unfold getsize. mrun.
  destruct (fs st !! path) as [[data|]|]; intros [= <- <-]; reflexivity.
Qed.

Lemma grows_save env content_hash url filepath file_size :
  mframe grows (save_download_metadata env content_hash url filepath file_size).
Proof.
  intros st r st'. unfold save_download_metadata. mrun.
  destruct (downloaded_hashes (self st)) as [|?|?|?|l|?] eqn:El; simpl;
    try (intros [= <- <-]; reflexivity).
  assert (∀ f evs,
    (∀ d, fs st !! d = Some Dir → f !! d = Some Dir) →
    grows st {| self := {| download_dir := download_dir (self st);
                           metadata_file := metadata_file (self st);
                           downloaded_hashes :=
                             Json.JList (l ++ [Json.JDict
                               [("hash", Json.JStr content_hash);
                                ("url", Json.JStr url);
                                ("filepath", Json.JStr filepath);
                                ("file_size", Json.JInt file_size);
                                ("download_date",
                                 Json.JStr (isoformat (now_metadata env)))]]);
                           max_file_size := max_file_size (self st);
                           allowed_content_types := allowed_content_types (self st) |};
                fs := f; trace := evs |}) as Hgrow.
  { intros f evs Hf. split; [done|]. split; [|done].
    simpl. rewrite El. right. eauto. }
  destruct (dump_fault env); mrun.
  - intros [= <- <-]. by apply Hgrow.
  - destruct (fs st !! metadata_file (self st)) as [[data|]|] eqn:E; mrun;
      intros [= <- <-]; apply Hgrow; try done;
      intros d Hd; (rewrite lookup_insert_ne; [done|congruence]).
Qed.

(** Solve a goal [mframe grows m] by the structure of [m]. *)
Ltac grows_step :=
  first
    [ apply mframe_ret; apply _
    | apply mframe_raise; apply _
    | apply mframe_lift; apply _
    | apply mframe_get_self; apply _
    | apply mframe_get_fs; apply _
    | apply grows_print
    | apply grows_emit
    | apply grows_open_wb
    | apply grows_write
    | apply grows_remove
    | apply grows_getsize
    | apply grows_save
    | apply mframe_bind; [apply _| |intros ?]
    | apply mframe_try; [apply _| |intros ?]
    | progress cbv zeta
    | case_match ].

Lemma grows_write_chunks env filepath chunks i downloaded_size :
  mframe grows (write_chunks env filepath chunks i downloaded_size).
Proof.
  revert i downloaded_size.
  induction chunks as [|chunk rest IH]; intros i downloaded_size; simpl.
  - apply mframe_ret; apply _.
  - repeat first [apply IH | grows_step].
Qed.

Lemma grows_extract_filename env url response :
  mframe grows (extract_filename env url response).
Proof. unfold extract_filename. repeat grows_step. Qed.

Lemma grows_get_unique_filepath filename :
  mframe grows (get_unique_filepath filename).
Proof. unfold get_unique_filepath. repeat grows_step. Qed.

Lemma grows_store env url batch_mode response content_hash :
  mframe grows (store env url batch_mode response content_hash).
Proof.
  unfold store, declared_file_size, iter_content.
  repeat first [apply grows_extract_filename | apply grows_get_unique_filepath
               | apply grows_write_chunks | grows_step].
Qed.

Lemma grows_validate response : mframe grows (validate_response_headers response).
Proof. intros st r st' H. eapply grows_of_quiet, (quiet_validate "" _ _ _ _ H). Qed.

Lemma grows_request env url : mframe grows (request env url).
Proof. intros st r st' H. eapply grows_of_quiet, quiet_request, H. Qed.

Lemma grows_check_and_store env url batch_mode response :
  mframe grows (check_and_store env url batch_mode response).
Proof.
  unfold check_and_store, calculate_content_hash, is_duplicate.
  repeat first [apply grows_validate | apply grows_store | grows_step].
Qed.

Lemma grows_download_image env url batch_mode :
  mframe grows (download_image env url batch_mode).
Proof.
  unfold download_image, report.
  repeat first [apply grows_request | apply grows_check_and_store | grows_step].
Qed.

(** [download_image] catches every exception. *)
Lemma download_image_returns env url batch_mode st :
  ∃ ok, (download_image env url batch_mode st).1 = inr ok.
Proof.
  unfold download_image. rewrite try_except_run.
  match goal with
  | |- context [match ?x with _ => _ end] => destruct x as [[e|ok] st1]
  end; [|by exists ok].
  exists false. unfold report. by mrun.
Qed.

Lemma grows_process_urls calls successful :
  mframe grows (process_urls calls successful).
Proof.
  revert successful. induction calls as [|[env url] rest IH]; intros n; simpl.
  - apply mframe_ret; apply _.
  - apply mframe_bind; [apply _|apply grows_download_image|intros ok; apply IH].
Qed.

(** ** What each method does *)

Arguments Sha256.hexdigest : simpl never.
Arguments Json.dumps : simpl never.
Arguments Py.int : simpl never.
Arguments Url.urlparse : simpl never.
Arguments OsPath.join : simpl never.
Arguments Starter.get_unique_filepath : simpl never.
Arguments isoformat : simpl never.
Arguments strftime : simpl never.
Arguments is_safe_filename : simpl never.
Arguments iter_slices : simpl never.

Lemma report_run e st :
  report e st =
  (inr false,
   {| self := self st; fs := fs st;
      trace := trace st ++
               [EvPrint (match e with
                         | Timeout => MsgTimeout
                         | ConnectionError => MsgConnectionError
                         | HTTPError => MsgHTTPError
                         | TooManyRedirects => MsgTooManyRedirects
                         | RequestException => MsgRequestError
                         | OSError => MsgFileError
                         | _ => MsgUnexpected e
                         end)] |}).
Proof. reflexivity. Qed.

Lemma calculate_content_hash_run response st :
  calculate_content_hash response st =
  (match content response with
   | inl e => inl e
   | inr body => inr (Sha256.hexdigest body)
   end,
   {| self := self st; fs := fs st; trace := trace st ++ [EvReadContent] |}).
Proof. unfold calculate_content_hash. mrun. by destruct (content response). Qed.

Lemma is_duplicate_run content_hash url st :
  is_duplicate content_hash url st =
  (match py_iter (downloaded_hashes (self st)) with
   | inl e => inl e
   | inr records => is_duplicate_loop records content_hash
   end, st).
Proof.
  unfold is_duplicate. mrun. destruct (py_iter _) as [e|records]; [done|].
  by destruct (is_duplicate_loop _ _).
Qed.

Lemma extract_filename_pure env url response st r st' :
  extract_filename env url response st = (r, st') → st' = st.
Proof.
  unfold extract_filename. mrun.
  repeat case_match; intros; by simplify_eq.
Qed.

Lemma get_unique_filepath_run filename st :
  get_unique_filepath filename st =
  (match Starter.get_unique_filepath (fs st) (download_dir (self st)) filename with
   | Some filepath => inr filepath
   | None => inl OutOfFuel
   end, st).
Proof. unfold get_unique_filepath. mrun. by case_match. Qed.

Lemma declared_file_size_run response st :
  declared_file_size response st =
  (match headers_get "Content-Length" (headers response) with
   | None => inr 0
   | Some text =>
       match Py.int text with
       | Some n => inr n
       | None => inl ValueError
       end
   end, st).
Proof. unfold declared_file_size. mrun. by repeat case_match. Qed.

Lemma iter_content_run response chunk_size st :
  0 < chunk_size →
  iter_content response chunk_size st =
  (match content response with
   | inl e => inl e
   | inr body => inr (iter_slices (String.length body) (Z.to_nat chunk_size) body)
   end, st).
Proof.
  intros Hpos. unfold iter_content. mrun. destruct (content response); [done|].
  by rewrite (proj2 (Z.leb_gt _ _)).
Qed.

(** The loop of [is_duplicate] on a ledger that grows. *)

Lemma is_duplicate_loop_app_false l l' h :
  is_duplicate_loop l h = inr false →
  is_duplicate_loop (l ++ l') h = is_duplicate_loop l' h.
Proof.
  induction l as [|record l IH]; simpl; [done|].
  destruct (py_getitem record "hash") as [e|v]; [done|].
  destruct (py_eq_str v h); [done|]. exact IH.
Qed.

Lemma is_duplicate_loop_app_true l l' h :
  is_duplicate_loop l h = inr true → is_duplicate_loop (l ++ l') h = inr true.
Proof.
  induction l as [|record l IH]; simpl; [done|].
  destruct (py_getitem record "hash") as [e|v]; [done|].
  destruct (py_eq_str v h); [done|]. exact IH.
Qed.

Lemma is_duplicate_loop_elem l record h :
  record ∈ l → py_getitem record "hash" = inr (Json.JStr h) →
  is_duplicate_loop l h = inr true ∨ ∃ e, is_duplicate_loop l h = inl e.
Proof.
  intros Hin Hrec. induction l as [|r l IH]; [by apply elem_of_nil in Hin|].
  simpl. apply elem_of_cons in Hin as [<-|Hin].
  - rewrite Hrec. simpl. rewrite bool_decide_eq_true_2; auto.
  - destruct (py_getitem r "hash") as [e|v]; [eauto|].
    destruct (py_eq_str v h); auto.
Qed.

(** On a ledger whose records all carry a [hash], the loop does not raise. *)
Lemma is_duplicate_loop_total l h :
  Forall (λ record, ∃ v, py_getitem record "hash" = inr v) l →
  ∃ b, is_duplicate_loop l h = inr b.
Proof.
  induction 1 as [|record l [v Hv] _ [b IH]]; simpl; [eauto|].
  rewrite Hv. destruct (py_eq_str v h); eauto.
Qed.

(** ** The disk during a download *)

Import Ledger.

Lemma save_run env content_hash url filepath file_size st l :
  downloaded_hashes (self st) = Json.JList l →
  save_download_metadata env content_hash url filepath file_size st =
  (inr (),
   if dump_fault env || isdir (fs st) (metadata_file (self st))
   then {| self := with_ledger (self st)
                     (Json.JList (l ++ [entry content_hash url filepath file_size
                                          (isoformat (now_metadata env))]));
           fs := fs st; trace := trace st ++ [EvPrint MsgMetadataWarning] |}
   else {| self := with_ledger (self st)
                     (Json.JList (l ++ [entry content_hash url filepath file_size
                                          (isoformat (now_metadata env))]));
           fs := <[metadata_file (self st) :=
                     File (Json.dumps
                             (Json.JList
                                (l ++ [entry content_hash url filepath file_size
                                         (isoformat (now_metadata env))])))]> (fs st);
           trace := trace st ++ [EvDump (metadata_file (self st))] |}).
Proof.
  intros Hl. unfold save_download_metadata. mrun. rewrite Hl. mrun.
  destruct (dump_fault env); mrun; [done|].
  unfold isdir. by destruct (fs st !! metadata_file (self st)) as [[data|]|] eqn:E.
Qed.

Lemma save_raises env content_hash url filepath file_size st :
  (∀ l, downloaded_hashes (self st) ≠ Json.JList l) →
  save_download_metadata env content_hash url filepath file_size st =
  (inl AttributeError, st).
Proof.
  intros Hl. unfold save_download_metadata. mrun.
  destruct (downloaded_hashes (self st)); try done. by destruct (Hl items).
Qed.

Lemma open_wb_run env path st :
  fs st !! path = None → open_fault env = false →
  open_wb env path st =
  (inr (), {| self := self st; fs := <[path := File ""]> (fs st);
              trace := trace st ++ [EvOpen path] |}).
Proof. intros Hp Ho. unfold open_wb. mrun. rewrite Hp, Ho. by mrun. Qed.

Lemma getsize_run path st data :
  fs st !! path = Some (File data) →
  getsize path st = (inr (Z.of_nat (String.length data)), st).
Proof. intros Hp. unfold getsize. mrun. by rewrite Hp. Qed.

Lemma remove_run path st data :
  fs st !! path = Some (File data) →
  remove path st =
  (inr (), {| self := self st; fs := delete path (fs st);
              trace := trace st ++ [EvRemove path] |}).
Proof. intros Hp. unfold remove. mrun. rewrite Hp. by mrun. Qed.

Lemma gtb_false (a b : Z) : (a >? b) = false → a ≤ b.
Proof. rewrite Z.gtb_ltb. by intros ?%Z.ltb_ge. Qed.

Lemma gtb_true (a b : Z) : (a >? b) = true → a > b.
Proof. rewrite Z.gtb_ltb. intros ?%Z.ltb_lt. lia. Qed.

Lemma write_run env path i chunk st data :
  fs st !! path = Some (File data) →
  write env path i chunk st =
  if bool_decide (write_fault env = Some i) then (inl OSError, st)
  else (inr (), {| self := self st; fs := <[path := File (data +:+ chunk)]> (fs st);
                   trace := trace st ++ [EvWrite path (String.length chunk)] |}).
Proof. intros Hp. unfold write. case_bool_decide; mrun; [done|]. rewrite Hp. by mrun. Qed.

(** The loop that ran to its end wrote every chunk. *)
Lemma write_chunks_done env path chunks i downloaded_size st st' data :
  write_chunks env path chunks i downloaded_size st = (inr None, st') →
  fs st !! path = Some (File data) →
  self st' = self st ∧
  fs st' = <[path := File (data +:+ joined chunks)]> (fs st) ∧
  (∃ evs, trace st' = trace st ++ evs ∧
          Forall (λ e, ∃ n, e = EvWrite path n) evs) ∧
  (downloaded_size ≤ max_file_size (self st) →
   downloaded_size + total_length chunks ≤ max_file_size (self st)).
Proof.
  revert i downloaded_size st data.
  induction chunks as [|chunk rest IH]; intros i d st data; simpl.
  - intros [= <-] Hp. split; [done|]. split.
    { by rewrite str_app_nil_r, insert_id. }
    split; [|lia]. exists []. by rewrite app_nil_r.
  - case_bool_decide as Hc.
    { subst chunk. intros H Hp. eapply IH in H as (? & ? & ? & ?); [|done].
      repeat split; try done; simpl in *; lia. }
    intros H Hp. rewrite bind_run, (write_run _ _ _ _ _ _ Hp) in H.
    case_bool_decide; [done|]. rewrite bind_run in H. mrun in H.
    destruct (_ >? _) eqn:Hcmp.
    { rewrite (remove_run _ _ (data +:+ chunk)) in H
        by (simpl; apply lookup_insert_eq). by mrun in H. }
    eapply IH in H as (Hs & Hf & (evs & Ht & He) & Hd);
      [|simpl; apply lookup_insert_eq].
    simpl in *. split; [done|]. split.
    { by rewrite Hf, insert_insert_eq, str_app_assoc. }
    split.
    { exists (EvWrite path (String.length chunk) :: evs).
      rewrite Ht, <-app_assoc. split; [done|]. constructor; eauto. }
    apply gtb_false in Hcmp. lia.
Qed.


(** ** Slices of a body *)

Lemma take_drop (n : nat) (s : string) : Py.take n s +:+ Py.drop n s = s.
Proof.
  revert s. induction n as [|n IH]; intros [|c s]; simpl; try done.
  by rewrite str_app_cons, IH.
Qed.

Lemma length_drop (n : nat) (s : string) :
  String.length (Py.drop n s) = (String.length s - n)%nat.
Proof. revert s. induction n as [|n IH]; intros [|c s]; simpl; auto with lia. Qed.

Lemma iter_slices_unfold fuel n c r :
  iter_slices (S fuel) n (String c r) =
  Py.take n (String c r) :: iter_slices fuel n (Py.drop n (String c r)).
Proof. reflexivity. Qed.

Lemma iter_slices_joined (n fuel : nat) (s : string) :
  (0 < n)%nat → (String.length s ≤ fuel)%nat → joined (iter_slices fuel n s) = s.
Proof.
  intros Hn. revert s. induction fuel as [|fuel IH]; intros [|c r] Hlen; try done.
  { simpl in Hlen. lia. }
  rewrite iter_slices_unfold. simpl joined. rewrite IH; [apply take_drop|].
  rewrite length_drop. simpl in *. lia.
Qed.

Lemma total_length_joined (chunks : list string) :
  total_length chunks = Z.of_nat (String.length (joined chunks)).
Proof.
  induction chunks as [|chunk rest IH]; simpl; [done|].
  rewrite str_length_app, IH. lia.
Qed.

Lemma iter_slices_total (n : nat) (s : string) :
  (0 < n)%nat →
  total_length (iter_slices (String.length s) n s) = Z.of_nat (String.length s) ∧
  joined (iter_slices (String.length s) n s) = s.
Proof.
  intros Hn. rewrite total_length_joined, iter_slices_joined by done. done.
Qed.

(** ** The request phase *)

Lemma is_valid_url_true_inv url st st' :
  is_valid_url url st = (inr true, st') →
  st' = st ∧ ∃ parsed, Url.urlparse url = Some parsed.
Proof.
  unfold is_valid_url. destruct (Url.urlparse url) as [parsed|]; mrun; [|done].
  repeat case_match; mrun; intros; simplify_eq; eauto.
Qed.

Lemma request_some_inv env url st response st1 :
  request env url st = (inr (Some response), st1) →
  (∃ parsed, Url.urlparse url = Some parsed) ∧
  get_reply env = inr response ∧
  ¬ (400 ≤ status_code response < 600).
Proof.
  unfold request. rewrite bind_run.
  change (get_self st) with (@inr exn _ (self st), st). cbn beta iota.
  rewrite !bind_run.
  destruct (makedirs env _ st) as [[e|[]] st2]; [intros; simplify_eq|].
  rewrite bind_run.
  destruct (is_valid_url url st2) as [[e|[|]] st3] eqn:Hv;
    [intros; simplify_eq| |mrun; intros; simplify_eq].
  apply is_valid_url_true_inv in Hv as [-> Hparsed].
  cbn [negb]. rewrite bind_run.
  destruct (try_except _ _ st2) as [[e|[|]] st4];
    [intros; simplify_eq| |mrun; intros; simplify_eq].
  cbn [negb]. unfold requests_get, raise_for_status. mrun.
  destruct (get_reply env) as [e|r]; [intros; simplify_eq|].
  case_bool_decide; intros; simplify_eq. auto.
Qed.


(** ** The storing phase *)

(** When the loop returns, it returns [False]. *)
Lemma write_chunks_some env path chunks i downloaded_size st b st' :
  write_chunks env path chunks i downloaded_size st = (inr (Some b), st') → b = false.
Proof.
  revert i downloaded_size st.
  induction chunks as [|chunk rest IH]; intros i d st; simpl.
  { intros; simplify_eq. }
  case_bool_decide; [by eauto|]. unfold write. case_bool_decide; mrun.
  { intros; simplify_eq. }
  destruct (fs st !! path) as [[data|]|]; mrun; [|by intros; simplify_eq..].
  destruct (_ >? _); [|by eauto].
  destruct (remove path _) as [[e|[]] s']; by intros; simplify_eq.
Qed.

(** What an accepted download went through, and the state it leaves. *)
Lemma store_true_inv env url batch_mode response content_hash st st' :
  store env url batch_mode response content_hash st = (inr true, st') →
  ∃ filename filepath body l st4,
    extract_filename env url response st = (inr filename, st) ∧
    Starter.get_unique_filepath (fs st) (download_dir (self st)) filename
      = Some filepath ∧
    (∃ n, declared_file_size response st = (inr n, st) ∧
          (n >? max_file_size (self st)) = false) ∧
    open_fault env = false ∧
    content response = inr body ∧
    write_chunks env filepath
      (iter_slices (String.length body) (Z.to_nat 8192) body) 0 0
      {| self := self st; fs := <[filepath := File ""]> (fs st);
         trace := trace st ++ [EvOpen filepath] |} = (inr None, st4) ∧
    body ≠ "" ∧
    downloaded_hashes (self st) = Json.JList l ∧
    self st4 = self st ∧
    fs st4 = <[filepath := File body]> (fs st) ∧
    let size := Z.of_nat (String.length body) in
    let e := entry content_hash url filepath size (isoformat (now_metadata env)) in
    let ledger := Json.JList (l ++ [e]) in
    let failed := dump_fault env || isdir (fs st4) (metadata_file (self st)) in
    st' =
    {| self := with_ledger (self st) ledger;
       fs := if failed then fs st4
             else <[metadata_file (self st) := File (Json.dumps ledger)]> (fs st4);
       trace := trace st4 ++
                [if failed then EvPrint MsgMetadataWarning
                 else EvDump (metadata_file (self st));
                 EvPrint (if batch_mode then MsgDownloaded filepath size
                          else MsgFetched filepath size)] |}.
Proof.
  unfold store. rewrite bind_run.
  destruct (extract_filename env url response st) as [[e|filename] st0] eqn:Hname;
    [intros; simplify_eq|].
  pose proof (extract_filename_pure _ _ _ _ _ _ Hname) as ->.
  rewrite bind_run, get_unique_filepath_run.
  destruct (Starter.get_unique_filepath _ _ _) as [filepath|] eqn:Hpath;
    [|intros; simplify_eq].
  pose proof (get_unique_filepath_fresh _ _ _ _ Hpath) as Hfresh.
  apply bool_decide_eq_false in Hfresh.
  assert (fs st !! filepath = None) as Hnone.
  { destruct (fs st !! filepath) eqn:E; [|done]. destruct Hfresh; eauto. }
  rewrite bind_run. destruct (declared_file_size response st) as [[e|n] st0] eqn:Hsize;
    [intros; simplify_eq|].
  assert (st0 = st) as ->.
  { rewrite declared_file_size_run in Hsize. by simplify_eq. }
  rewrite bind_run. change (get_self st) with (@inr exn _ (self st), st).
  cbn beta iota.
  destruct (n >? max_file_size (self st)) eqn:Hn; [mrun; intros; simplify_eq|].
  rewrite bind_run.
  destruct (open_fault env) eqn:Hopen.
  { unfold open_wb. mrun. rewrite Hnone, Hopen. intros; simplify_eq. }
  rewrite open_wb_run by done. rewrite bind_run, iter_content_run by lia.
  destruct (content response) as [e|body] eqn:Hbody; [intros; simplify_eq|].
  rewrite bind_run.
  destruct (write_chunks _ _ _ _ _ _) as [[e|[b|]] st4] eqn:Hchunks;
    [intros; simplify_eq| |].
  { mrun. intros [= -> ->]. by apply write_chunks_some in Hchunks. }
  destruct (write_chunks_done _ _ _ _ _ _ _ "" Hchunks) as (Hs4 & Hf4 & _ & _).
  { simpl. apply lookup_insert_eq. }
  simpl in Hs4, Hf4.
  rewrite insert_insert_eq, str_app_nil_l in Hf4.
  rewrite (proj2 (iter_slices_total (Z.to_nat 8192) body ltac:(lia))) in Hf4.
  rewrite bind_run, (getsize_run _ _ body) by (rewrite Hf4; apply lookup_insert_eq).
  case_bool_decide as Hzero.
  { rewrite bind_run, (remove_run _ _ body) by (rewrite Hf4; apply lookup_insert_eq).
    mrun. intros; simplify_eq. }
  rewrite bind_run.
  destruct (downloaded_hashes (self st)) as [|?|?|?|l|?] eqn:Hl;
    try (rewrite save_raises by (rewrite Hs4, Hl; intros ? ?; discriminate);
         by intros; simplify_eq).
  rewrite (save_run _ _ _ _ _ _ l) by (by rewrite Hs4).
  cbv zeta. rewrite Hs4. mrun.
  intros [= <-]. exists filename, filepath, body, l, st4.
  repeat split; try done; eauto.
  - intros ->. simpl in Hzero. lia.
  - destruct (dump_fault env || isdir (fs st4) _); simpl; by rewrite <-app_assoc.
Qed.

Lemma store_true_intro env url batch_mode response content_hash st
    filename filepath n body l st4 :
  extract_filename env url response st = (inr filename, st) →
  Starter.get_unique_filepath (fs st) (download_dir (self st)) filename
    = Some filepath →
  declared_file_size response st = (inr n, st) →
  (n >? max_file_size (self st)) = false →
  open_fault env = false →
  content response = inr body →
  write_chunks env filepath
    (iter_slices (String.length body) (Z.to_nat 8192) body) 0 0
    {| self := self st; fs := <[filepath := File ""]> (fs st);
       trace := trace st ++ [EvOpen filepath] |} = (inr None, st4) →
  body ≠ "" →
  downloaded_hashes (self st) = Json.JList l →
  let size := Z.of_nat (String.length body) in
  let e := entry content_hash url filepath size (isoformat (now_metadata env)) in
  let ledger := Json.JList (l ++ [e]) in
  let failed := dump_fault env || isdir (fs st4) (metadata_file (self st)) in
  store env url batch_mode response content_hash st =
  (inr true,
   {| self := with_ledger (self st) ledger;
      fs := if failed then fs st4
            else <[metadata_file (self st) := File (Json.dumps ledger)]> (fs st4);
      trace := trace st4 ++
               [if failed then EvPrint MsgMetadataWarning
                else EvDump (metadata_file (self st));
                EvPrint (if batch_mode then MsgDownloaded filepath size
                         else MsgFetched filepath size)] |}).
Proof.
  intros Hname Hpath Hsize Hn Hopen Hbody Hchunks Hne Hl. cbv zeta.
  pose proof (get_unique_filepath_fresh _ _ _ _ Hpath) as Hfresh.
  apply bool_decide_eq_false in Hfresh.
  assert (fs st !! filepath = None) as Hnone.
  { destruct (fs st !! filepath) eqn:E; [|done]. destruct Hfresh; eauto. }
  destruct (write_chunks_done _ _ _ _ _ _ _ "" Hchunks) as (Hs4 & Hf4 & _ & _).
  { simpl. apply lookup_insert_eq. }
  simpl in Hs4, Hf4.
  rewrite insert_insert_eq, str_app_nil_l in Hf4.
  rewrite (proj2 (iter_slices_total (Z.to_nat 8192) body ltac:(lia))) in Hf4.
  unfold store.
  rewrite bind_run, Hname, bind_run, get_unique_filepath_run, Hpath.
  rewrite bind_run, Hsize, bind_run.
  change (get_self st) with (@inr exn _ (self st), st). cbn beta iota.
  rewrite Hn, bind_run, open_wb_run by done.
  rewrite bind_run, iter_content_run, Hbody by lia.
  rewrite bind_run, Hchunks.
  rewrite bind_run, (getsize_run _ _ body) by (rewrite Hf4; apply lookup_insert_eq).
  rewrite bool_decide_eq_false_2.
  2: { destruct body; [done|]. simpl. lia. }
  rewrite bind_run, (save_run _ _ _ _ _ _ l) by (by rewrite Hs4).
  rewrite Hs4. mrun.
  destruct (dump_fault env || isdir (fs st4) _); simpl; by rewrite <-app_assoc.
Qed.

(** ** The pipeline *)

(** [download_image] once the response of the GET request has passed the
    checks of its headers and its body has been read. *)
Lemma download_image_checked env url batch_mode st response st1 st2 body :
  request env url st = (inr (Some response), st1) →
  validate_response_headers response st1 = (inr true, st2) →
  content response = inr body →
  download_image env url batch_mode st =
  let st3 := {| self := self st2; fs := fs st2;
                trace := trace st2 ++ [EvReadContent] |} in
  match is_duplicate (Sha256.hexdigest body) url st3 with
  | (inl e, _) => report e st3
  | (inr true, _) =>
      (inr false, {| self := self st2; fs := fs st2;
                     trace := trace st2 ++ [EvReadContent; EvPrint MsgDuplicate] |})
  | (inr false, _) =>
      try_except (store env url batch_mode response (Sha256.hexdigest body)) report st3
  end.
Proof.
  intros Hreq Hval Hbody. unfold download_image.
  rewrite try_except_run, bind_run, Hreq.
  unfold check_and_store. rewrite bind_run, Hval. cbn [negb].
  rewrite bind_run, calculate_content_hash_run, Hbody.
  rewrite bind_run, is_duplicate_run. cbv zeta.
  destruct (py_iter _) as [e|records]; [done|]. simpl.
  destruct (is_duplicate_loop records _) as [e|[|]]; [done| |].
  - mrun. by rewrite <-app_assoc.
  - by rewrite try_except_run.
Qed.

Lemma download_image_true_inv env url batch_mode st st' :
  download_image env url batch_mode st = (inr true, st') →
  ∃ response st1 st2 body records,
    request env url st = (inr (Some response), st1) ∧
    validate_response_headers response st1 = (inr true, st2) ∧
    content response = inr body ∧
    downloaded_hashes (self st2) = Json.JList records ∧
    is_duplicate_loop records (Sha256.hexdigest body) = inr false ∧
    store env url batch_mode response (Sha256.hexdigest body)
      {| self := self st2; fs := fs st2; trace := trace st2 ++ [EvReadContent] |}
    = (inr true, st').
Proof.
  unfold download_image. rewrite try_except_run, bind_run.
  destruct (request env url st) as [[e|[response|]] st1] eqn:Hreq;
    [by rewrite report_run| |by mrun].
  unfold check_and_store. rewrite bind_run.
  destruct (validate_response_headers response st1) as [[e|[|]] st2] eqn:Hval;
    [by rewrite report_run| |by mrun].
  cbn [negb]. rewrite bind_run, calculate_content_hash_run.
  destruct (content response) as [e|body] eqn:Hbody; [by rewrite report_run|].
  rewrite bind_run, is_duplicate_run. cbn [self].
  destruct (py_iter _) as [e|records] eqn:Hiter; [by rewrite report_run|].
  destruct (is_duplicate_loop records _) as [e|[|]] eqn:Hloop;
    [by rewrite report_run|by mrun|].
  destruct (store _ _ _ _ _ _) as [[e|[|]] st4] eqn:Hstore;
    [by rewrite report_run| |done].
  intros [= <-]. exists response, st1, st2, body, records.
  repeat split; try done.
  (* a ledger that could be appended to is a list *)
  apply store_true_inv in Hstore as (_ & _ & _ & l & _ & _ & _ & _ & _ & _ & _ & _ & Hl & _).
  simpl in Hl. rewrite Hl in Hiter. simpl in Hiter. by simplify_eq.
Qed.

Lemma request_validate_quiet env url st response st1 r st2 :
  request env url st = (inr (Some response), st1) →
  validate_response_headers response st1 = (r, st2) →
  quiet (download_dir (self st)) st st2.
Proof.
  intros Hreq Hval. etrans; [by eapply quiet_request|].
  by eapply quiet_validate.
Qed.

Lemma is_duplicate_loop_raises l h e :
  is_duplicate_loop l h = inl e → e = KeyError ∨ e = TypeError.
Proof.
  induction l as [|record l IH]; simpl; [done|].
  destruct (py_getitem record "hash") as [e'|v] eqn:E.
  - intros [= ->]. unfold py_getitem in E.
    repeat case_match; simplify_eq; auto.
  - destruct (py_eq_str v h); [done|auto].
Qed.

(** ** Duplicates *)

(** C10.  A fetch whose digest matches an entry of the ledger stops at the
    duplicate check: [download_image] returns [False], the fetcher object is
    as before, the file system is the one the request phase left (the one
    before the call, or that one with the download directory created), and
    no event of the run opens, writes, removes or dumps a file: after the
    body is read the only event is the message.  The message is the
    duplicate notice whenever the loop over the ledger reaches the matching
    entry, that is whenever every record has a [hash]; otherwise the loop
    raises on the malformed record and the error is reported. *)
Theorem duplicate_leaves_disk_untouched
    env url batch_mode st response st1 st2 body records record :
  request env url st = (inr (Some response), st1) →
  validate_response_headers response st1 = (inr true, st2) →
  content response = inr body →
  downloaded_hashes (self st) = Json.JList records →
  record ∈ records →
  py_getitem record "hash" = inr (Json.JStr (Sha256.hexdigest body)) →
  ∃ m,
    download_image env url batch_mode st =
    (inr false, {| self := self st; fs := fs st2;
                   trace := trace st2 ++ [EvReadContent; EvPrint m] |}) ∧
    (m = MsgDuplicate ∨ ∃ e, m = MsgUnexpected e) ∧
    (Forall (λ r, ∃ v, py_getitem r "hash" = inr v) records → m = MsgDuplicate) ∧
    (fs st2 = fs st ∨ fs st2 = ensure_dir (download_dir (self st)) (fs st)) ∧
    ∃ evs, trace st2 = trace st ++ evs ∧
           Forall (λ e, is_file_event e = false) evs.
Proof.
  intros Hreq Hval Hbody Hledger Hin Hrec.
  destruct (request_validate_quiet _ _ _ _ _ _ _ Hreq Hval) as (Hself & Hfs & Htrace).
  rewrite (download_image_checked _ _ _ _ _ _ _ _ Hreq Hval Hbody). cbv zeta.
  rewrite is_duplicate_run. cbn [self]. rewrite Hself, Hledger. cbn [py_iter].
  destruct (is_duplicate_loop_elem _ _ _ Hin Hrec) as [Hloop|[e Hloop]]; rewrite Hloop.
  - exists MsgDuplicate. repeat split; auto.
  - exists (MsgUnexpected e). rewrite report_run. cbn [self fs trace].
    rewrite <-app_assoc.
    destruct (is_duplicate_loop_raises _ _ _ Hloop) as [-> | ->];
      (repeat split; eauto).
    all: intros Hwf; destruct (is_duplicate_loop_total _ (Sha256.hexdigest body) Hwf);
      congruence.
Qed.

Lemma makedirs_ok env d st st' :
  makedirs env d st = (inr (), st') → fs st' !! d = Some Dir.
Proof.
  unfold makedirs. mrun.
  destruct (fs st !! d) as [[data|]|] eqn:E; [by intros; simplify_eq| |].
  - by intros [= <-].
  - destruct (makedirs_fault env); intros [= <-]; simpl. apply lookup_insert_eq.
Qed.

(** After a request that went through, the download directory is there. *)
Lemma request_some_dir env url st response st1 :
  request env url st = (inr (Some response), st1) →
  fs st1 !! download_dir (self st) = Some Dir.
Proof.
  unfold request. rewrite bind_run.
  change (get_self st) with (@inr exn _ (self st), st). cbn beta iota.
  rewrite bind_run.
  destruct (makedirs env _ st) as [[e|[]] st2] eqn:Hmk; [intros; simplify_eq|].
  apply makedirs_ok in Hmk. revert Hmk.
  generalize (download_dir (self st)) as d. intros d Hd H.
  assert (grows st2 st1) as (_ & _ & Hdirs); [|by apply Hdirs].
  revert H. generalize (inr (Some response) : exn + option Response) as r.
  intros r. revert st2 r st1 Hd.
  intros st2 r st1 _. revert st2 r st1. refine (_ : mframe grows _).
  unfold requests_head, requests_get, raise_for_status.
  repeat first
    [ (refine (_ : mframe grows (is_valid_url _));
       intros ? ? ? H; eapply grows_of_quiet, (quiet_is_valid_url "" _ _ _ _ H))
    | apply grows_validate
    | grows_step ].
Qed.

Lemma is_duplicate_loop_entry l h url filepath size date :
  is_duplicate_loop l h = inr false →
  is_duplicate_loop (l ++ [entry h url filepath size date]) h = inr true.
Proof.
  intros H. rewrite (is_duplicate_loop_app_false _ _ _ H). simpl.
  by rewrite bool_decide_eq_true_2.
Qed.

(** C1.  Take a fetch that is accepted ([download_image] returns [True], its
    entry appended to the ledger) and whose body is [body]; let any number of
    other fetches follow; then take a fetch from any URL, through any
    environment, that reaches the duplicate check with the same body.  This
    last fetch is rejected as a duplicate: [download_image] returns [False]
    after printing the duplicate notice, the fetcher object (hence the ledger
    in memory) and the file system (hence the ledger on disk and the download
    directory) are exactly as before the call, and the run has no event on a
    file. *)
Theorem identical_bytes_rejected
    env1 url1 batch1 st st1 response1 body between n st1'
    env2 url2 batch2 response2 st2 st3 :
  download_image env1 url1 batch1 st = (inr true, st1) →
  get_reply env1 = inr response1 →
  content response1 = inr body →
  process_urls between 0 st1 = (inr n, st1') →
  request env2 url2 st1' = (inr (Some response2), st2) →
  validate_response_headers response2 st2 = (inr true, st3) →
  content response2 = inr body →
  download_image env2 url2 batch2 st1' =
  (inr false, {| self := self st1'; fs := fs st1';
                 trace := trace st3 ++ [EvReadContent; EvPrint MsgDuplicate] |}) ∧
  ∃ evs, trace st3 = trace st1' ++ evs ∧
         Forall (λ e, is_file_event e = false) evs.
Proof.
  intros Hrun1 Hget1 Hbody1 Hbetween Hreq2 Hval2 Hbody2.
  (* the first fetch *)
  apply download_image_true_inv in Hrun1
    as (response & sta & stb & body' & records & Hreq1 & Hval1 & Hbody' & Hrecords
        & Hloop & Hstore).
  destruct (request_some_inv _ _ _ _ _ Hreq1) as (_ & Hget & _).
  rewrite Hget1 in Hget. injection Hget as <-.
  rewrite Hbody1 in Hbody'. injection Hbody' as <-.
  pose proof (request_some_dir _ _ _ _ _ Hreq1) as Hdir.
  destruct (request_validate_quiet _ _ _ _ _ _ _ Hreq1 Hval1) as (Hselfb & _ & _).
  pose proof (grows_validate _ _ _ _ Hval1) as (_ & _ & Hdirb).
  pose proof (grows_store _ _ _ _ _ _ _ _ Hstore) as (Hcfg1 & _ & Hdir1).
  apply store_true_inv in Hstore
    as (filename & filepath & body' & l & st4 & _ & _ & _ & _ & _ & _ & _ & Hl & _ & _
        & Hst1).
  cbn [self fs trace] in *. cbv zeta in Hst1.
  rewrite Hrecords in Hl. injection Hl as Hl. subst records.
  (* the fetches in between *)
  pose proof (grows_process_urls _ _ _ _ _ Hbetween) as (Hcfg & Hext & Hdirs).
  assert (fs st1' !! download_dir (self st1') = Some Dir) as Hdir'.
  { destruct Hcfg as (<- & _). destruct Hcfg1 as (<- & _). rewrite Hselfb.
    auto. }
  assert (∃ l', downloaded_hashes (self st1') = Json.JList l' ∧
                is_duplicate_loop l' (Sha256.hexdigest body) = inr true)
    as (l' & Hl' & Hdup).
  { rewrite Hst1 in Hext. cbn [self downloaded_hashes with_ledger] in Hext.
    destruct Hext as [<-|(l0 & es & [= <-] & ->)].
    - eexists. split; [done|]. by apply is_duplicate_loop_entry.
    - eexists. split; [done|].
      by apply is_duplicate_loop_app_true, is_duplicate_loop_entry. }
  (* the second fetch *)
  destruct (request_validate_quiet _ _ _ _ _ _ _ Hreq2 Hval2) as (Hself & Hfs & Htrace).
  split; [|done].
  rewrite (download_image_checked _ _ _ _ _ _ _ _ Hreq2 Hval2 Hbody2). cbv zeta.
  rewrite is_duplicate_run. cbn [self]. rewrite Hself, Hl'. cbn [py_iter].
  rewrite Hdup. do 2 f_equal.
  destruct Hfs as [->| ->]; [done|]. by apply ensure_dir_present.
Qed.

(** ** The size ceiling *)





(** ** A ledger that cannot be written *)

Lemma write_chunks_dump_fault b env path chunks i downloaded_size st :
  write_chunks (with_dump_fault b env) path chunks i downloaded_size st =
  write_chunks env path chunks i downloaded_size st.
Proof.
  revert i downloaded_size st.
  induction chunks as [|chunk rest IH]; intros i d st; simpl; [done|].
  case_bool_decide; [apply IH|].
  rewrite !bind_run. change (write (with_dump_fault b env)) with (write env).
  destruct (write env path i chunk st) as [[e|[]] st1]; [done|].
  rewrite !bind_run. change (get_self st1) with (@inr exn _ (self st1), st1).
  cbn beta iota. destruct (_ >? _); [done|apply IH].
Qed.

(** C9.  Take a fetch that is accepted when the ledger file can be written.
    The same fetch, from the same state and through the same environment
    except that the write of the ledger file raises an I/O error, is accepted
    too: [download_image] returns [True]; the failure is only reported, by
    the warning printed just before the success message; the ledger in memory
    has the new entry (it is the ledger of the run without the failure); the
    downloaded file is on disk at the path of the entry with the body for
    content; and every file other than the ledger file is as in the run
    without the failure. *)
Theorem ledger_write_failure_is_not_fatal env url batch_mode st st' :
  download_image (with_dump_fault false env) url batch_mode st = (inr true, st') →
  ∃ st'' l filepath body evs,
    download_image (with_dump_fault true env) url batch_mode st = (inr true, st'') ∧
    (∃ response, get_reply env = inr response ∧ content response = inr body) ∧
    downloaded_hashes (self st) = Json.JList l ∧
    self st'' =
      with_ledger (self st)
        (Json.JList (l ++ [entry (Sha256.hexdigest body) url filepath
                             (Z.of_nat (String.length body))
                             (isoformat (now_metadata env))])) ∧
    self st'' = self st' ∧
    fs st'' !! filepath = Some (File body) ∧
    (∀ p, p ≠ metadata_file (self st) → fs st'' !! p = fs st' !! p) ∧
    trace st'' =
      trace st ++ evs ++
      [EvPrint MsgMetadataWarning;
       EvPrint (if batch_mode
                then MsgDownloaded filepath (Z.of_nat (String.length body))
                else MsgFetched filepath (Z.of_nat (String.length body)))].
Proof.
  intros Hrun.
  apply download_image_true_inv in Hrun
    as (response & st1 & st2 & body & records & Hreq & Hval & Hbody & Hrecords
        & Hloop & Hstore).
  destruct (request_validate_quiet _ _ _ _ _ _ _ Hreq Hval)
    as (Hself & _ & evs1 & Htrace & _).
  destruct (request_some_inv _ _ _ _ _ Hreq) as (_ & Hget & _).
  apply store_true_inv in Hstore
    as (filename & filepath & body' & l & st4 & Hname & Hpath & (n & Hsize & Hn)
        & Hopen & Hbody' & Hchunks & Hne & Hl & Hs4 & Hf4 & Hst').
  rewrite Hbody in Hbody'. injection Hbody' as <-.
  cbn [self fs trace] in *. cbv zeta in Hst'.
  rewrite Hrecords in Hl. injection Hl as Hl. subst l.
  destruct (write_chunks_done _ _ _ _ _ _ _ "" Hchunks) as (_ & _ & (evs4 & Ht4 & _) & _).
  { simpl. apply lookup_insert_eq. }
  cbn [trace] in Ht4.
  rewrite write_chunks_dump_fault in Hchunks.
  pose proof (store_true_intro (with_dump_fault true env) url batch_mode response
                (Sha256.hexdigest body)
                {| self := self st2; fs := fs st2;
                   trace := trace st2 ++ [EvReadContent] |}
                filename filepath n body records st4 Hname Hpath Hsize Hn Hopen Hbody)
    as Hstore.
  rewrite write_chunks_dump_fault in Hstore.
  specialize (Hstore Hchunks Hne Hrecords). cbv zeta in Hstore.
  cbn [self fs trace dump_fault with_dump_fault orb now_metadata] in Hstore.
  eexists _, records, filepath, body,
    (evs1 ++ [EvReadContent; EvOpen filepath] ++ evs4). split.
  { rewrite (download_image_checked (with_dump_fault true env) _ _ _ _ _ _ _
               Hreq Hval Hbody).
    cbv zeta. rewrite is_duplicate_run. cbn [self]. rewrite Hrecords. cbn [py_iter].
    rewrite Hloop, try_except_run, Hstore. reflexivity. }
  cbn [self fs trace]. rewrite Hst', Hself in *. cbn [self fs trace].
  split; [eauto|]. split; [done|]. split; [done|]. split; [done|]. split.
  { rewrite Hf4. apply lookup_insert_eq. }
  split.
  { intros p Hp. destruct (_ || _); [done|]. by rewrite lookup_insert_ne. }
  rewrite Ht4, Htrace, <-!app_assoc. reflexivity.
Qed.

(** ** The check of the URL *)






(** ** Cases of the theorems on sample runs *)

(** A case of C1: [cat] is fetched, then another image, then the same bytes
    come from a mirror without headers. *)
Lemma identical_bytes_rejected_witness :
  download_image (Sample.env Runs.cat_mirror) Runs.mirror_url false Runs.after_dog =
  (inr false,
   {| self := self Runs.after_dog; fs := fs Runs.after_dog;
      trace :=
        trace (validate_response_headers Runs.cat_mirror
                 (request (Sample.env Runs.cat_mirror) Runs.mirror_url
                    Runs.after_dog).2).2 ++
        [EvReadContent; EvPrint MsgDuplicate] |}) ∧
  ∃ evs,
    trace (validate_response_headers Runs.cat_mirror
             (request (Sample.env Runs.cat_mirror) Runs.mirror_url
                Runs.after_dog).2).2 = trace Runs.after_dog ++ evs ∧
    Forall (λ e, is_file_event e = false) evs.
Proof.
  apply (identical_bytes_rejected (Sample.env Runs.cat) Runs.cat_url false
           Sample.start Runs.after_cat Runs.cat "hello" Runs.between 1
           Runs.after_dog (Sample.env Runs.cat_mirror) Runs.mirror_url false
           Runs.cat_mirror
           (request (Sample.env Runs.cat_mirror) Runs.mirror_url Runs.after_dog).2);
    vm_compute; reflexivity.
Defined.

(** A case of C10: the same bytes again, right after the first fetch. *)
Lemma duplicate_leaves_disk_untouched_witness :
  ∃ m,
    download_image (Sample.env Runs.cat_mirror) Runs.mirror_url false Runs.after_cat =
    (inr false,
     {| self := self Runs.after_cat;
        fs := fs (validate_response_headers Runs.cat_mirror
                    (request (Sample.env Runs.cat_mirror) Runs.mirror_url
                       Runs.after_cat).2).2;
        trace :=
          trace (validate_response_headers Runs.cat_mirror
                   (request (Sample.env Runs.cat_mirror) Runs.mirror_url
                      Runs.after_cat).2).2 ++ [EvReadContent; EvPrint m] |}) ∧
    (m = MsgDuplicate ∨ ∃ e, m = MsgUnexpected e) ∧
    (Forall (λ r, ∃ v, py_getitem r "hash" = inr v) [Runs.cat_entry] →
     m = MsgDuplicate) ∧
    (fs (validate_response_headers Runs.cat_mirror
           (request (Sample.env Runs.cat_mirror) Runs.mirror_url
              Runs.after_cat).2).2 = fs Runs.after_cat ∨
     fs (validate_response_headers Runs.cat_mirror
           (request (Sample.env Runs.cat_mirror) Runs.mirror_url
              Runs.after_cat).2).2 =
     ensure_dir (download_dir (self Runs.after_cat)) (fs Runs.after_cat)) ∧
    ∃ evs,
      trace (validate_response_headers Runs.cat_mirror
               (request (Sample.env Runs.cat_mirror) Runs.mirror_url
                  Runs.after_cat).2).2 = trace Runs.after_cat ++ evs ∧
      Forall (λ e, is_file_event e = false) evs.
Proof.
  apply (duplicate_leaves_disk_untouched (Sample.env Runs.cat_mirror)
           Runs.mirror_url false Runs.after_cat Runs.cat_mirror
           (request (Sample.env Runs.cat_mirror) Runs.mirror_url Runs.after_cat).2
           _ "hello" [Runs.cat_entry] Runs.cat_entry);
    try (vm_compute; reflexivity).
  constructor.
Defined.

(** A case of C9: the first fetch of [cat] with a ledger file that cannot be
    written. *)
Lemma ledger_write_failure_is_not_fatal_witness :
  ∃ st'' l filepath body evs,
    download_image (with_dump_fault true (Sample.env Runs.cat)) Runs.cat_url false
      Sample.start = (inr true, st'') ∧
    (∃ response, get_reply (Sample.env Runs.cat) = inr response ∧
                 content response = inr body) ∧
    downloaded_hashes (self Sample.start) = Json.JList l ∧
    self st'' =
      with_ledger (self Sample.start)
        (Json.JList (l ++ [entry (Sha256.hexdigest body) Runs.cat_url filepath
                             (Z.of_nat (String.length body))
                             (isoformat (now_metadata (Sample.env Runs.cat)))])) ∧
    self st'' = self Runs.after_cat ∧
    fs st'' !! filepath = Some (File body) ∧
    (∀ p, p ≠ metadata_file (self Sample.start) →
          fs st'' !! p = fs Runs.after_cat !! p) ∧
    trace st'' =
      trace Sample.start ++ evs ++
      [EvPrint MsgMetadataWarning;
       EvPrint (MsgFetched filepath (Z.of_nat (String.length body)))].
Proof.
  apply (ledger_write_failure_is_not_fatal (Sample.env Runs.cat) Runs.cat_url false
           Sample.start Runs.after_cat).
  vm_compute; reflexivity.
Defined.


(** ** Two defects *)

(** C2 fails on the code: when the second write of the body raises an I/O
    error, [download_image] reports a file error and returns [False], and the
    file holding the first 8192 bytes stays in the download directory. *)
Lemma disk_full_leaves_partial_file :
  (download_image (Sample.env_disk_full Runs.two_chunks 1) Runs.cat_url false
     Sample.start).1 = inr false ∧
  fs (download_image (Sample.env_disk_full Runs.two_chunks 1) Runs.cat_url false
        Sample.start).2 !! "Fetched_Images/cat.png" =
    Some (File (Py.repeat_char 8192 "x")) ∧
  trace (download_image (Sample.env_disk_full Runs.two_chunks 1) Runs.cat_url false
           Sample.start).2 =
  [EvMakedirs "Fetched_Images"; EvHead Runs.cat_url; EvGet Runs.cat_url;
   EvReadContent; EvOpen "Fetched_Images/cat.png";
   EvWrite "Fetched_Images/cat.png" 8192; EvPrint MsgFileError].
Proof. repeat split; vm_compute; reflexivity. Qed.

(** C4 fails on the code: a Content-Length that is no number passes
    [validate_response_headers], which ignores it, and then stops
    [download_image] at [int(...)]: the error is reported as unexpected and
    the method returns [False] before any file is opened. *)
Lemma unparseable_length_is_fatal :
  (validate_response_headers Runs.garbled Sample.start).1 = inr true ∧
  download_image (Sample.env Runs.garbled) Runs.cat_url false Sample.start =
  (inr false,
   {| self := self Sample.start;
      fs := <["Fetched_Images" := Dir]> ∅;
      trace := [EvMakedirs "Fetched_Images"; EvHead Runs.cat_url; EvGet Runs.cat_url;
                EvReadContent; EvPrint (MsgUnexpected ValueError)] |}).
Proof. split; vm_compute; reflexivity. Qed.

(** ** Decimal numbers and time stamps *)

Import Names.

Lemma all_chars_app p (a b : string) :
  Py.all_chars p (a +:+ b) = Py.all_chars p a && Py.all_chars p b.
Proof.
  induction a as [|c a IH]; [done|]. rewrite str_app_cons. simpl.
  by rewrite IH, andb_assoc.
Qed.

Lemma all_chars_impl (p q : ascii → bool) (s : string) :
  (∀ c, p c = true → q c = true) → Py.all_chars p s = true → Py.all_chars q s = true.
Proof.
  intros Hpq. induction s as [|c s IH]; [done|]. simpl.
  intros [Hc Hs]%andb_true_iff. by rewrite (Hpq _ Hc), IH.
Qed.

Lemma pretty_N_char_digit (x : N) : Py.is_digit (pretty_N_char x) = true.
Proof. unfold pretty_N_char. by repeat case_match. Qed.

Lemma pretty_N_go_digits (x : N) (s : string) :
  Py.all_chars Py.is_digit s = true →
  Py.all_chars Py.is_digit (pretty_N_go x s) = true.
Proof.
  revert s. induction (N.lt_wf_0 x) as [x _ IH]; intros s Hs.
  destruct (decide (x = 0%N)) as [->|]; [done|].
  rewrite pretty_N_go_step by lia. apply IH.
  - apply N.div_lt; lia.
  - simpl. by rewrite pretty_N_char_digit.
Qed.

Lemma pretty_N_digits (x : N) : Py.all_chars Py.is_digit (pretty x) = true.
Proof.
  unfold pretty, pretty_N. case_decide; [done|]. by apply pretty_N_go_digits.
Qed.

Lemma pretty_N_go_length (w : nat) (x : N) (s : string) :
  (x < 10 ^ N.of_nat w)%N →
  (String.length (pretty_N_go x s) ≤ w + String.length s)%nat.
Proof.
  revert x s. induction w as [|w IH]; intros x s Hx.
  { assert (x = 0%N) as ->.
    { change (10 ^ N.of_nat 0)%N with 1%N in Hx. lia. }
    rewrite pretty_N_go_0. simpl. lia. }
  destruct (decide (x = 0%N)) as [->|]; [rewrite pretty_N_go_0; simpl; lia|].
  rewrite pretty_N_go_step by lia.
  etrans; [apply IH|simpl; lia].
  rewrite Nat2N.inj_succ, N.pow_succ_r' in Hx.
  apply N.Div0.div_lt_upper_bound. lia.
Qed.

Lemma pretty_N_length (w : nat) (x : N) :
  (0 < w)%nat → (x < 10 ^ N.of_nat w)%N → (String.length (pretty x) ≤ w)%nat.
Proof.
  intros Hw Hx. unfold pretty, pretty_N. case_decide; [simpl; lia|].
  etrans; [by apply pretty_N_go_length|simpl; lia].
Qed.

Lemma zeros_length (k : nat) : String.length (Py.repeat_char k "0") = k.
Proof. induction k as [|k IH]; simpl; auto. Qed.

Lemma zeros_digits (k : nat) :
  Py.all_chars Py.is_digit (Py.repeat_char k "0") = true.
Proof. induction k as [|k IH]; simpl; auto. Qed.

Lemma zfill_digits (w : nat) (x : N) : Py.all_chars Py.is_digit (Py.zfill w x) = true.
Proof. unfold Py.zfill. by rewrite all_chars_app, zeros_digits, pretty_N_digits. Qed.

Lemma zfill_length (w : nat) (x : N) :
  (0 < w)%nat → (x < 10 ^ N.of_nat w)%N → String.length (Py.zfill w x) = w.
Proof.
  intros Hw Hx. unfold Py.zfill. rewrite str_length_app, zeros_length.
  pose proof (pretty_N_length w x Hw Hx). lia.
Qed.

Lemma strftime_chars (t : datetime) :
  Py.all_chars stamp_char (strftime t) = true.
Proof.
  assert (∀ w x, Py.all_chars stamp_char (Py.zfill w x) = true) as Hz.
  { intros w x. eapply all_chars_impl, zfill_digits.
    intros c Hc. unfold stamp_char. by rewrite Hc. }
  unfold strftime. by rewrite !all_chars_app, !Hz.
Qed.

Lemma strftime_length (t : datetime) :
  datetime_ok t → String.length (strftime t) = 15%nat.
Proof.
  intros (Hy & Hm & Hd & HH & HM & HS & _). unfold strftime.
  rewrite !str_length_app.
  rewrite (zfill_length 4), !(zfill_length 2); simpl; lia.
Qed.

(** ** Safe file names *)

Lemma contains_char (d : ascii) (s : string) :
  Py.contains (String d "") s = Py.mem_char d s.
Proof.
  induction s as [|b s IH]; [done|]. simpl. rewrite IH.
  repeat case_decide; simplify_eq; done.
Qed.

Lemma mem_char_false (p : ascii → bool) (d : ascii) (s : string) :
  Py.all_chars p s = true → p d = false → Py.mem_char d s = false.
Proof.
  intros Hs Hd. induction s as [|c s IH]; [done|]. simpl in *.
  apply andb_true_iff in Hs as [Hc Hs]. case_decide; [congruence|auto].
Qed.

Lemma contains_dots_app (a b : string) :
  Py.all_chars not_dot a = true → Py.contains ".." (a +:+ b) = Py.contains ".." b.
Proof.
  induction a as [|c a IH]; [done|]. rewrite str_app_cons. simpl.
  intros [Hc Ha]%andb_true_iff. rewrite IH by done.
  unfold not_dot in Hc. apply negb_true_iff, bool_decide_eq_false in Hc.
  by case_decide.
Qed.

Lemma safe_name (s : string) :
  Py.all_chars name_char s = true →
  Py.contains ".." s = false →
  (String.length s < 255)%nat →
  is_safe_filename s = true.
Proof.
  intros Hchars Hdots Hlen. unfold is_safe_filename. cbn [existsb].
  rewrite Hdots, !contains_char.
  rewrite !(mem_char_false name_char _ s) by done.
  by rewrite bool_decide_eq_true_2.
Qed.

Lemma extension_cases (content_type : string) :
  get_extension_from_content_type content_type
  ∈ [".jpg"; ".png"; ".gif"; ".bmp"; ".webp"; ".svg"; ".tiff"].
Proof.
  unfold get_extension_from_content_type. cbn [List.find fst snd].
  repeat (case_bool_decide; [cbn; set_solver|]). cbn. set_solver.
Qed.

Lemma stamp_not_dot (t : datetime) : Py.all_chars not_dot (strftime t) = true.
Proof.
  eapply all_chars_impl, strftime_chars. intros c. unfold stamp_char, not_dot.
  intros [Hd| ->%bool_decide_eq_true]%orb_true_iff; [|done].
  apply negb_true_iff, bool_decide_eq_false. intros ->. done.
Qed.

Lemma stamp_name_char (t : datetime) : Py.all_chars name_char (strftime t) = true.
Proof.
  eapply all_chars_impl, strftime_chars. intros c. unfold stamp_char, name_char.
  intros [-> | ->]%orb_true_iff; [done|]. by rewrite !orb_true_r.
Qed.

Lemma stamped_safe env response :
  datetime_ok (now_filename env) → is_safe_filename (stamped env response) = true.
Proof.
  intros Hok. unfold stamped.
  pose proof (extension_cases (declared_content_type response)) as Hext.
  set (ext := get_extension_from_content_type _) in *.
  apply safe_name.
  - rewrite !all_chars_app, stamp_name_char. simpl.
    repeat (apply elem_of_cons in Hext as [->|Hext]; [done|]).
    by apply elem_of_nil in Hext.
  - rewrite <-str_app_assoc, contains_dots_app.
    + repeat (apply elem_of_cons in Hext as [->|Hext]; [done|]).
      by apply elem_of_nil in Hext.
    + by rewrite all_chars_app, stamp_not_dot.
  - rewrite !str_length_app, strftime_length by done.
    repeat (apply elem_of_cons in Hext as [->|Hext]; [simpl; lia|]).
    by apply elem_of_nil in Hext.
Qed.

Lemma safe_stamped_safe env :
  datetime_ok (now_filename env) → is_safe_filename (safe_stamped env) = true.
Proof.
  intros Hok. unfold safe_stamped. apply safe_name.
  - by rewrite !all_chars_app, stamp_name_char.
  - rewrite <-str_app_assoc, contains_dots_app; [done|].
    by rewrite all_chars_app, stamp_not_dot.
  - rewrite !str_length_app, strftime_length by done. simpl. lia.
Qed.

(** ** The file name resolver *)

(** C6, as stated, fails in its second half: an unsafe candidate of the
    Content-Disposition header does not lead to a time-stamped default but to
    the next candidate, the last component of the URL's path.  Here the header
    names [../evil.png] and the resolver returns [cat.png]. *)
Lemma unsafe_header_falls_back_to_url_name :
  header_candidate Runs.evil = Some "../evil.png" ∧
  is_safe_filename "../evil.png" = false ∧
  extract_filename (Sample.env Runs.evil) Runs.cat_url Runs.evil Sample.start =
    (inr "cat.png", Sample.start) ∧
  bool_decide ("cat.png" = stamped (Sample.env Runs.evil) Runs.evil) = false ∧
  bool_decide ("cat.png" = safe_stamped (Sample.env Runs.evil)) = false ∧
  Py.contains (strftime (now_filename (Sample.env Runs.evil))) "cat.png" = false.
Proof. vm_compute. repeat split; reflexivity. Qed.

(** C6, amended: [extract_filename] returns a name, without any effect, and
    the name passes [is_safe_filename], so it is never a candidate that
    contains a forbidden sequence or has 255 characters or more.  The name is
    the header's candidate verbatim, the last component of the URL's path
    verbatim, or one of the two time-stamped defaults: no candidate is
    sanitized in part.  An unsafe candidate of the header falls through to the
    URL's candidate; an unsafe candidate of the URL, reached when the header
    gives no usable name, is replaced by a time-stamped default. *)
Theorem resolver_never_returns_unsafe_candidate
    (env : Env) (url : string) (response : Response) (st : state)
    (parsed : Url.ParseResult) :
  datetime_ok (now_filename env) →
  Url.urlparse url = Some parsed →
  ∃ name,
    extract_filename env url response st = (inr name, st) ∧
    is_safe_filename name = true ∧
    (header_candidate response = Some name ∨
     name = OsPath.basename (Url.path parsed) ∨
     name = stamped env response ∨
     name = safe_stamped env) ∧
    (header_usable response = true → header_candidate response = Some name) ∧
    (header_usable response = false →
     is_safe_filename (OsPath.basename (Url.path parsed)) = false →
     name = stamped env response ∨ name = safe_stamped env) ∧
    (header_usable response = false →
     is_safe_filename (OsPath.basename (Url.path parsed)) = true →
     Py.contains "." (OsPath.basename (Url.path parsed)) = true →
     name = OsPath.basename (Url.path parsed)).
Proof.
  intros Hok Hparse.
  pose proof (stamped_safe env response Hok) as Hstamped.
  pose proof (safe_stamped_safe env Hok) as Hsafe.
  unfold extract_filename, header_usable, header_candidate.
  fold (stamped env response). fold (safe_stamped env).
  set (cd := default EmptyString (headers_get "Content-Disposition" (headers response))).
  destruct (Py.contains "filename=" cd).
  - set (c := Py.strip quotes (nth 1 (Py.split "filename=" cd) EmptyString)).
    destruct (negb (bool_decide (c = "")) && is_safe_filename c) eqn:Hc.
    + exists c. apply andb_true_iff in Hc as [_ Hc].
      repeat split; auto; intros; congruence.
    + rewrite Hparse. set (base := OsPath.basename (Url.path parsed)).
      destruct (bool_decide (base = "") || negb (Py.contains "." base)) eqn:Hb.
      * rewrite Hstamped. exists (stamped env response).
        repeat split; auto; try (intros; congruence).
        intros _ _ Hdot. rewrite Hdot, orb_false_r in Hb.
        apply bool_decide_eq_true in Hb. rewrite Hb in Hdot. done.
      * destruct (is_safe_filename base) eqn:Hs.
        -- exists base. repeat split; auto; intros; congruence.
        -- exists (safe_stamped env). repeat split; auto; intros; congruence.
  - rewrite Hparse. set (base := OsPath.basename (Url.path parsed)).
    destruct (bool_decide (base = "") || negb (Py.contains "." base)) eqn:Hb.
    + rewrite Hstamped. exists (stamped env response).
      repeat split; auto; try (intros; congruence).
      intros _ _ Hdot. rewrite Hdot, orb_false_r in Hb.
      apply bool_decide_eq_true in Hb. rewrite Hb in Hdot. done.
    + destruct (is_safe_filename base) eqn:Hs.
      * exists base. repeat split; auto; intros; congruence.
      * exists (safe_stamped env). repeat split; auto; intros; congruence.
Qed.

(** A case of the theorem: the URL's path ends in [a:b.png], the header names
    no file, and the name is the time-stamped default
    [safe_image_20260102_030405.jpg]. *)
Lemma resolver_never_returns_unsafe_candidate_witness :
  ∃ name,
    extract_filename (Sample.env (Sample.png "abc")) "https://example.com/a:b.png"
      (Sample.png "abc") Sample.start = (inr name, Sample.start) ∧
    is_safe_filename name = true ∧
    (header_candidate (Sample.png "abc") = Some name ∨
     name = "a:b.png" ∨
     name = stamped (Sample.env (Sample.png "abc")) (Sample.png "abc") ∨
     name = safe_stamped (Sample.env (Sample.png "abc"))) ∧
    (header_usable (Sample.png "abc") = true →
     header_candidate (Sample.png "abc") = Some name) ∧
    (header_usable (Sample.png "abc") = false →
     is_safe_filename "a:b.png" = false →
     name = stamped (Sample.env (Sample.png "abc")) (Sample.png "abc") ∨
     name = safe_stamped (Sample.env (Sample.png "abc"))) ∧
    (header_usable (Sample.png "abc") = false →
     is_safe_filename "a:b.png" = true →
     Py.contains "." "a:b.png" = true →
     name = "a:b.png").
Proof.
  apply (resolver_never_returns_unsafe_candidate
           (Sample.env (Sample.png "abc")) "https://example.com/a:b.png"
           (Sample.png "abc") Sample.start
           {| Url.scheme := "https"; Url.netloc := "example.com";
              Url.path := "/a:b.png"; Url.params := ""; Url.query := "";
              Url.fragment := "" |}).
  - vm_compute. repeat split; congruence.
  - vm_compute; reflexivity.
Defined.

(** ** The JSON text of a ledger is read back *)

Import Json JsonText.

Lemma skip_ws_spaces (n : nat) (s : string) : skip_ws (spaces n +:+ s) = skip_ws s.
Proof. induction n as [|n IH]; [done|]. simpl. exact IH. Qed.

Lemma skip_ws_newline_indent (level : nat) (s : string) :
  skip_ws (newline_indent level +:+ s) = skip_ws s.
Proof. unfold newline_indent. rewrite str_app_cons. simpl. apply skip_ws_spaces. Qed.

Lemma head_char_not_ws (c : ascii) : head_char c = true → is_ws c = false.
Proof.
  destruct c as [[] [] [] [] [] [] [] []]; vm_compute; congruence.
Qed.

Lemma skip_ws_starts_value (s : string) : starts_value s = true → skip_ws s = s.
Proof.
  destruct s as [|c s]; [done|]. simpl. intros Hc. by rewrite head_char_not_ws.
Qed.

Lemma starts_value_app (s t : string) :
  starts_value s = true → starts_value (s +:+ t) = true.
Proof. by destruct s. Qed.

(** *** Strings *)

Lemma scanstring_escape_char (c : ascii) (t : string) :
  scanstring (escape_char c +:+ t) =
  '(u, r) ← scanstring t; Some (String c u, r).
Proof.
  destruct c as [[] [] [] [] [] [] [] []]; reflexivity.
Qed.

Lemma scanstring_escape (s rest : string) :
  scanstring (escape s +:+ String dquote rest) = Some (s, rest).
Proof.
  induction s as [|c s IH]; [done|]. simpl escape.
  rewrite str_app_assoc, scanstring_escape_char, IH. done.
Qed.

Lemma scanstring_encode_string (s rest : string) :
  ∃ t, encode_string s +:+ rest = String dquote t ∧ scanstring t = Some (s, rest).
Proof.
  exists (escape s +:+ String dquote rest). split; [|apply scanstring_escape].
  unfold encode_string. rewrite str_app_cons, str_app_assoc. done.
Qed.

(** *** Integers *)

Lemma pretty_N_go_app (x : N) (s : string) :
  pretty_N_go x s = pretty_N_go x "" +:+ s.
Proof.
  revert s. induction (N.lt_wf_0 x) as [x _ IH]; intros s.
  assert (x = 0 ∨ 0 < x)%N as [->|Hx] by lia; [by rewrite !pretty_N_go_0|].
  rewrite (pretty_N_go_step x s), (pretty_N_go_step x "") by done.
  assert (x `div` 10 < x)%N as Hlt by (by apply N.div_lt).
  rewrite (IH _ Hlt (String _ s)), (IH _ Hlt (String _ "")).
  by rewrite str_app_assoc.
Qed.

Lemma scan_digits_app (acc : Z) (d t : string) :
  Py.all_chars Py.is_digit d = true →
  scan_digits acc (d +:+ t) = scan_digits (scan_digits acc d).1 t.
Proof.
  revert acc. induction d as [|c d IH]; intros acc; [done|].
  rewrite str_app_cons. simpl. intros [Hc Hd]%andb_true_iff. rewrite Hc. by apply IH.
Qed.

Lemma digit_val_pretty_N_char (x : N) :
  (x < 10)%N → Py.digit_val (pretty_N_char x) = Z.of_N x.
Proof.
  intros Hx.
  assert (x = 0 ∨ x = 1 ∨ x = 2 ∨ x = 3 ∨ x = 4 ∨ x = 5 ∨ x = 6 ∨ x = 7 ∨ x = 8 ∨ x = 9)%N
    as Hc by lia.
  repeat destruct Hc as [->|Hc]; try subst x; reflexivity.
Qed.

Lemma scan_digits_pretty_N_go (x : N) :
  scan_digits 0 (pretty_N_go x "") = (Z.of_N x, "").
Proof.
  induction (N.lt_wf_0 x) as [x _ IH].
  assert (x = 0 ∨ 0 < x)%N as [->|Hx] by lia; [done|].
  rewrite pretty_N_go_step, pretty_N_go_app by done.
  rewrite scan_digits_app by (apply pretty_N_go_digits; done).
  rewrite IH by (by apply N.div_lt). cbn [fst scan_digits].
  rewrite pretty_N_char_digit, digit_val_pretty_N_char by (by apply N.mod_lt).
  f_equal. rewrite (N.div_mod x 10) at 3 by done. lia.
Qed.

Lemma pretty_N_go_head (x : N) :
  (0 < x)%N →
  ∃ c r, pretty_N_go x "" = String c r ∧ Py.is_digit c = true ∧ c ≠ "0"%char.
Proof.
  induction (N.lt_wf_0 x) as [x _ IH]. intros Hx.
  rewrite pretty_N_go_step by done.
  assert (x < 10 ∨ 10 ≤ x)%N as [Hs|Hl] by lia.
  - rewrite N.div_small, pretty_N_go_0 by done. rewrite N.mod_small by done.
    eexists _, _. split; [done|]. split; [apply pretty_N_char_digit|].
    intros Hc. apply (pretty_N_char_inj x 0) in Hc; lia.
  - rewrite pretty_N_go_app.
    destruct (IH (x `div` 10)%N) as (c & r & -> & Hc & Hz).
    + by apply N.div_lt.
    + apply N.div_str_pos. lia.
    + rewrite str_app_cons. eauto.
Qed.

Lemma delimited_scan_digits (acc : Z) (rest : string) :
  delimited rest = true → scan_digits acc rest = (acc, rest).
Proof.
  destruct rest as [|c rest]; [done|]. simpl. intros H.
  apply andb_true_iff in H as [H _]. apply andb_true_iff in H as [H _].
  apply andb_true_iff in H as [H _]. apply negb_true_iff in H. by rewrite H.
Qed.

Lemma delimited_float_tail (rest : string) :
  delimited rest = true → float_tail rest = false.
Proof.
  destruct rest as [|c rest]; [done|]. simpl. intros H.
  apply andb_true_iff in H as [H HE]. apply andb_true_iff in H as [H He].
  apply andb_true_iff in H as [_ Hdot].
  apply negb_true_iff, bool_decide_eq_false in HE, He, Hdot.
  destruct (decide (c = "."%char)); [done|].
  destruct (decide (c = "e"%char ∨ c = "E"%char)) as [[?|?]|?]; done.
Qed.

Lemma scan_number_digit (c : ascii) (r : string) :
  Py.is_digit c = true →
  scan_number (String c r) =
  (let '(n, r') :=
     if decide (c = "0"%char) then (0, r) else scan_digits (Py.digit_val c) r in
   if float_tail r' then None else Some (n, r')).
Proof.
  destruct c as [[] [] [] [] [] [] [] []]; try discriminate; intros _; reflexivity.
Qed.

Lemma scan_number_pretty_N (x : N) (rest : string) :
  delimited rest = true →
  scan_number (pretty x +:+ rest) = Some (Z.of_N x, rest).
Proof.
  intros Hrest. unfold pretty, pretty_N. case_decide as Hx.
  - subst x. rewrite str_app_cons, scan_number_digit by done.
    destruct (decide ("0"%char = "0"%char)) as [_|?]; [|done].
    by rewrite str_app_nil_l, delimited_float_tail.
  - destruct (pretty_N_go_head x) as (c & r & Hgo & Hc & Hz); [lia|].
    pose proof (scan_digits_pretty_N_go x) as Hscan.
    pose proof (pretty_N_go_digits x "" eq_refl) as Hdigits.
    rewrite Hgo in Hscan, Hdigits |- *.
    rewrite str_app_cons, scan_number_digit by done.
    destruct (decide (c = "0"%char)) as [?|_]; [done|].
    simpl in Hscan, Hdigits. rewrite Hc in Hscan, Hdigits.
    change (10 * 0 + Py.digit_val c) with (Py.digit_val c) in Hscan.
    rewrite scan_digits_app, Hscan by done. cbn [fst].
    rewrite delimited_scan_digits by done. by rewrite delimited_float_tail.
Qed.

Lemma scan_number_minus (c : ascii) (r : string) :
  Py.is_digit c = true →
  scan_number (String "-" (String c r)) =
  '(n, r') ← scan_number (String c r); Some (- n, r').
Proof.
  intros Hc. rewrite (scan_number_digit c r Hc).
  transitivity
    (let '(n, r') :=
       if decide (c = "0"%char) then (0, r) else scan_digits (Py.digit_val c) r in
     if float_tail r' then None else Some (- n, r')).
  - unfold scan_number. by rewrite Hc.
  - destruct (if decide _ then _ else _) as [m r']. by destruct (float_tail r').
Qed.

Lemma pretty_N_head (x : N) :
  ∃ c r, pretty x = String c r ∧ Py.is_digit c = true.
Proof.
  unfold pretty, pretty_N. case_decide; [by eexists _, _|].
  destruct (pretty_N_go_head x) as (c & r & -> & Hc & _); [lia|eauto].
Qed.

Lemma scan_number_str (n : Z) (rest : string) :
  delimited rest = true →
  scan_number (Py.str n +:+ rest) = Some (n, rest).
Proof.
  intros Hrest. destruct n as [|p|p].
  - change (Py.str 0) with "0".
    rewrite str_app_cons, scan_number_digit by done.
    destruct (decide ("0"%char = "0"%char)) as [_|?]; [|done].
    by rewrite str_app_nil_l, delimited_float_tail.
  - change (Py.str (Z.pos p)) with (pretty (Npos p)).
    by rewrite scan_number_pretty_N.
  - change (Py.str (Z.neg p)) with ("-" +:+ pretty (Npos p)).
    pose proof (scan_number_pretty_N (Npos p) rest Hrest) as H.
    destruct (pretty_N_head (N.pos p)) as (c & r & E & Hc).
    rewrite E in H |- *. rewrite str_app_cons in H.
    rewrite str_app_assoc, str_app_cons, str_app_nil_l, str_app_cons.
    by rewrite scan_number_minus, H.
Qed.

Lemma str_head (n : Z) :
  ∃ c r, Py.str n = String c r ∧
         (Py.is_digit c = true ∨ c = "-"%char).
Proof.
  pose proof pretty_N_head as HN.
  destruct n as [|p|p].
  - eexists _, _. split; [done|by left].
  - change (Py.str (Z.pos p)) with (pretty (Npos p)).
    destruct (HN (Npos p)) as (c & r & E & Hc). eauto.
  - eexists _, _. split; [done|by right].
Qed.

(** *** Dicts with distinct keys *)

Lemma dict_set_fresh (k : string) (v : json) (d : list (string * json)) :
  k ∉ map fst d → dict_set k v d = d ++ [(k, v)].
Proof.
  induction d as [|[k' v'] d IH]; [done|]. simpl. intros Hk.
  apply not_elem_of_cons in Hk as [Hne Hk].
  destruct (decide (k = k')); [done|]. by rewrite IH.
Qed.

Lemma dict_of_pairs_app (acc d : list (string * json)) :
  NoDup (map fst (acc ++ d)) →
  fold_left (λ d kv, dict_set kv.1 kv.2 d) d acc = acc ++ d.
Proof.
  revert acc. induction d as [|[k v] d IH]; intros acc Hnd.
  - by rewrite app_nil_r.
  - simpl. rewrite dict_set_fresh.
    + rewrite IH; rewrite <-app_assoc; done.
    + rewrite map_app in Hnd. apply NoDup_app in Hnd as (_ & Hd & _).
      intros Hin. apply (Hd k Hin). simpl. left.
Qed.

Lemma dict_of_pairs_nodup (d : list (string * json)) :
  NoDup (map fst d) → dict_of_pairs d = d.
Proof. intros Hnd. unfold dict_of_pairs. by rewrite dict_of_pairs_app. Qed.

(** *** The shape of the text *)

Lemma encode_list (level : nat) (x : json) (xs : list json) :
  encode level (JList (x :: xs)) =
  "[" +:+ newline_indent (S level) +:+ encode (S level) x +:+ list_rest level xs.
Proof.
  cbn [encode]. do 3 f_equal.
  induction xs as [|y xs IH]; [done|]. cbn [list_rest]. by rewrite <-IH.
Qed.

Lemma encode_dict (level : nat) (k : string) (x : json) (kvs : list (string * json)) :
  encode level (JDict ((k, x) :: kvs)) =
  "{" +:+ newline_indent (S level) +:+ encode_string k +:+ ": " +:+
  encode (S level) x +:+ dict_rest level kvs.
Proof.
  cbn [encode]. do 5 f_equal.
  induction kvs as [|[k' y] kvs IH]; [done|]. cbn [dict_rest]. by rewrite <-IH.
Qed.

Lemma wf_json_list (l : list json) : wf_json (JList l) ↔ Forall wf_json l.
Proof.
  induction l as [|x l IH]; [by split|]. rewrite Forall_cons, <-IH. done.
Qed.

Lemma wf_json_dict (d : list (string * json)) :
  wf_json (JDict d) ↔ NoDup (map fst d) ∧ Forall (λ kv, wf_json kv.2) d.
Proof.
  cbn [wf_json]. apply and_iff_compat_l.
  induction d as [|kv d IH]; [by split|]. rewrite Forall_cons, <-IH. done.
Qed.

Lemma encode_starts_value (level : nat) (v : json) :
  starts_value (encode level v) = true.
Proof.
  destruct v as [| [] |n|s|[|x xs]|[|[k x] kvs]]; try done.
  cbn [encode]. by destruct (str_head n) as (c & r & -> & [Hc| ->]); simpl;
    [unfold head_char; rewrite Hc|].
Qed.

Lemma list_rest_delimited (level : nat) (l : list json) (rest : string) :
  delimited (list_rest level l +:+ rest) = true.
Proof. by destruct l. Qed.

Lemma dict_rest_delimited (level : nat) (l : list (string * json)) (rest : string) :
  delimited (dict_rest level l +:+ rest) = true.
Proof. by destruct l as [|[k y] l]. Qed.

Lemma list_rest_length (level : nat) (l : list json) :
  (0 < String.length (list_rest level l))%nat.
Proof. destruct l; simpl; lia. Qed.

Lemma dict_rest_length (level : nat) (l : list (string * json)) :
  (0 < String.length (dict_rest level l))%nat.
Proof. destruct l as [|[k y] l]; simpl; lia. Qed.

(** *** The scanner on the head of a value *)

Lemma scan_once_string (f : nat) (t : string) :
  scan_once (S f) (String dquote t) = '(s, r) ← scanstring t; Some (JStr s, r).
Proof. reflexivity. Qed.

Lemma scan_once_number (f : nat) (c : ascii) (r : string) :
  Py.is_digit c = true ∨ c = "-"%char →
  scan_once (S f) (String c r) = '(n, r') ← scan_number (String c r); Some (JInt n, r').
Proof.
  intros [Hc| ->]; [|reflexivity].
  destruct c as [[] [] [] [] [] [] [] []]; try discriminate; reflexivity.
Qed.

Lemma scan_once_list (f : nat) (r : string) :
  starts_value (skip_ws r) = true →
  scan_once (S f) (String "[" r) = array_loop f (skip_ws r) [].
Proof.
  cbn [scan_once]. destruct (skip_ws r) as [|c s]; [done|]. simpl starts_value.
  destruct c as [[] [] [] [] [] [] [] []]; try discriminate; reflexivity.
Qed.

Lemma scan_once_dict (f : nat) (r t : string) :
  skip_ws r = String dquote t →
  scan_once (S f) (String "{" r) = object_loop f t [].
Proof. cbn [scan_once]. intros ->. reflexivity. Qed.

(** *** The scanner reads back what the encoder writes *)

Ltac str_norm :=
  repeat (rewrite str_app_assoc || rewrite str_app_cons || rewrite str_app_nil_l).
Tactic Notation "str_norm" "in" hyp(H) :=
  repeat (rewrite str_app_assoc in H || rewrite str_app_cons in H ||
          rewrite str_app_nil_l in H).

Lemma skip_ws_indent_quote (level : nat) (t : string) :
  skip_ws (newline_indent level +:+ String dquote t) = String dquote t.
Proof. by rewrite skip_ws_newline_indent. Qed.

Lemma scan_round_trip (fuel : nat) :
  (∀ v level rest,
     wf_json v →
     (String.length (encode level v) ≤ fuel)%nat →
     delimited rest = true →
     scan_once fuel (encode level v +:+ rest) = Some (v, rest)) ∧
  (∀ x xs level rest acc,
     Forall wf_json (x :: xs) →
     (String.length (encode (S level) x +:+ list_rest level xs) ≤ fuel)%nat →
     array_loop fuel (encode (S level) x +:+ list_rest level xs +:+ rest) acc =
     Some (JList (acc ++ x :: xs), rest)) ∧
  (∀ k x kvs level rest acc,
     Forall (λ kv, wf_json kv.2) ((k, x) :: kvs) →
     (String.length (escape k +:+ String dquote EmptyString +:+ ": " +:+
                     encode (S level) x +:+ dict_rest level kvs) ≤ fuel)%nat →
     object_loop fuel (escape k +:+ String dquote EmptyString +:+ ": " +:+
                       encode (S level) x +:+ dict_rest level kvs +:+ rest) acc =
     Some (JDict (dict_of_pairs (acc ++ (k, x) :: kvs)), rest)).
Proof.
  induction fuel as [|f (IHv & IHa & IHo)].
  { split; [|split].
    - intros v level rest _ Hlen _.
      pose proof (encode_starts_value level v) as Hs.
      destruct (encode level v); [done|simpl in Hlen; lia].
    - intros x xs level rest acc _ Hlen.
      pose proof (list_rest_length level xs). rewrite str_length_app in Hlen. lia.
    - intros k x kvs level rest acc _ Hlen.
      rewrite !str_length_app in Hlen. simpl in Hlen. lia. }
  split; [|split].
  - intros v level rest Hwf Hlen Hrest.
    destruct v as [| [] |n|s|[|x xs]|[|[k x] kvs]]; try reflexivity.
    + cbn [encode]. destruct (str_head n) as (c & r & E & Hc).
      pose proof (scan_number_str n rest Hrest) as Hn.
      rewrite E, str_app_cons in Hn |- *.
      by rewrite scan_once_number, Hn.
    + cbn [encode]. destruct (scanstring_encode_string s rest) as (t & -> & Ht).
      by rewrite scan_once_string, Ht.
    + rewrite encode_list in Hlen |- *.
      rewrite !str_length_app in Hlen. cbn [String.length newline_indent] in Hlen.
      str_norm.
      rewrite scan_once_list; rewrite skip_ws_newline_indent, skip_ws_starts_value;
        try (apply starts_value_app, encode_starts_value).
      rewrite IHa; [done|by apply wf_json_list|].
      rewrite str_length_app. simpl in Hlen. lia.
    + rewrite encode_dict in Hlen |- *. apply wf_json_dict in Hwf as [Hnd Hwf].
      unfold encode_string in Hlen |- *.
      rewrite !str_length_app in Hlen. cbn [String.length newline_indent] in Hlen.
      rewrite str_length_app in Hlen. cbn [String.length] in Hlen.
      pose proof (IHo k x kvs level rest [] Hwf) as IH.
      rewrite !str_length_app in IH. cbn [String.length] in IH.
      str_norm in IH. str_norm.
      rewrite (scan_once_dict f _ _ (skip_ws_indent_quote _ _)).
      rewrite IH; [by rewrite dict_of_pairs_nodup|lia].
  - intros x xs level rest acc Hwf Hlen.
    apply Forall_cons in Hwf as [Hx Hxs].
    rewrite str_length_app in Hlen. pose proof (list_rest_length level xs) as Hpos.
    cbn [array_loop]. rewrite IHv; [|done|lia|apply list_rest_delimited].
    cbn [mbind option_bind]. destruct xs as [|y l'].
    + cbn [list_rest]. rewrite str_app_assoc, skip_ws_newline_indent. done.
    + cbn [list_rest] in Hlen |- *.
      rewrite !str_length_app in Hlen. cbn [String.length newline_indent] in Hlen.
      str_norm. cbn [skip_ws].
      change (is_ws ","%char) with false. cbn iota.
      rewrite skip_ws_newline_indent, skip_ws_starts_value
        by (apply starts_value_app, encode_starts_value).
      rewrite IHa; [by rewrite <-app_assoc|done|].
      rewrite !str_length_app. lia.
  - intros k x kvs level rest acc Hwf Hlen.
    apply Forall_cons in Hwf as [Hx Hkvs]. simpl in Hx.
    rewrite !str_length_app in Hlen. cbn [String.length] in Hlen.
    pose proof (dict_rest_length level kvs) as Hpos.
    cbn [object_loop]. str_norm. rewrite scanstring_escape.
    cbn [mbind option_bind skip_ws]. change (is_ws ":"%char) with false.
    cbn iota. cbn [skip_ws]. change (is_ws " "%char) with true. cbn iota.
    rewrite skip_ws_starts_value by (apply starts_value_app, encode_starts_value).
    rewrite IHv; [|done|lia|apply dict_rest_delimited].
    cbn [mbind option_bind]. destruct kvs as [|[k' y] l'].
    + cbn [dict_rest]. rewrite str_app_assoc, skip_ws_newline_indent. done.
    + cbn [dict_rest] in Hlen |- *. unfold encode_string in Hlen |- *.
      rewrite !str_length_app in Hlen. cbn [String.length newline_indent] in Hlen.
      rewrite !str_length_app in Hlen. cbn [String.length] in Hlen.
      pose proof (IHo k' y l' level rest (acc ++ [(k, x)]) Hkvs) as IH.
      rewrite !str_length_app in IH. cbn [String.length] in IH.
      str_norm in IH. str_norm. cbn [skip_ws].
      change (is_ws ","%char) with false. cbn iota.
      rewrite skip_ws_indent_quote.
      rewrite IH; [by rewrite <-app_assoc|lia].
Qed.

Lemma loads_dumps (v : json) : wf_json v → loads (dumps v) = Some v.
Proof.
  intros Hwf. unfold loads, dumps.
  rewrite skip_ws_starts_value by apply encode_starts_value.
  destruct (scan_round_trip (S (String.length (encode 0 v)))) as (Hv & _ & _).
  specialize (Hv v O EmptyString Hwf ltac:(lia) eq_refl).
  rewrite str_app_nil_r in Hv. rewrite Hv. reflexivity.
Qed.

Lemma entry_shape_wf (v : json) : entry_shape v → wf_json v.
Proof.
  intros (h & u & p & n & d & ->). apply wf_json_dict. split.
  - apply (bool_decide_unpack _). vm_compute. reflexivity.
  - repeat constructor.
Qed.

Lemma ledger_wf (l : list json) : Forall entry_shape l → wf_json (JList l).
Proof.
  intros Hl. apply wf_json_list. eapply Forall_impl; [exact Hl|].
  apply entry_shape_wf.
Qed.

Lemma load_written (f : gmap string node) (mf : string) (v : json) :
  wf_json v → load_download_history (<[mf := File (dumps v)]> f) mf false = v.
Proof.
  intros Hwf. unfold load_download_history.
  by rewrite lookup_insert_eq, loads_dumps.
Qed.

(** ** The ledger file *)

(** C8: a ledger whose entries have the string fields [hash], [url],
    [filepath] and [download_date] and the integer field [file_size], written
    to a file as [json.dump] writes it, is read back by
    [load_download_history] as the same list of entries, and serialising what
    was read gives the same document.  This holds for the file
    [save_download_metadata] writes: the entry it appends has these five
    fields, and the file it leaves is read back as the ledger in memory. *)
Theorem ledger_round_trip
    (l : list json) (f : gmap string node) (mf : string) (env : Env)
    (content_hash url filepath : string) (file_size : Z) (st : state) :
  Forall entry_shape l →
  downloaded_hashes (self st) = JList l →
  dump_fault env = false →
  isdir (fs st) (metadata_file (self st)) = false →
  (load_download_history (<[mf := File (dumps (JList l))]> f) mf false = JList l ∧
   dumps (load_download_history (<[mf := File (dumps (JList l))]> f) mf false) =
   dumps (JList l)) ∧
  ∃ st' l',
    save_download_metadata env content_hash url filepath file_size st = (inr (), st') ∧
    l' = l ++ [entry content_hash url filepath file_size (isoformat (now_metadata env))] ∧
    downloaded_hashes (self st') = JList l' ∧
    Forall entry_shape l' ∧
    fs st' !! metadata_file (self st') = Some (File (dumps (JList l'))) ∧
    load_download_history (fs st') (metadata_file (self st')) false = JList l' ∧
    dumps (load_download_history (fs st') (metadata_file (self st')) false) =
    dumps (JList l').
Proof.
  intros Hl Hledger Hdump Hdir. split.
  - by rewrite load_written by (by apply ledger_wf).
  - assert (Forall entry_shape
              (l ++ [entry content_hash url filepath file_size
                       (isoformat (now_metadata env))])) as Hl'.
    { apply Forall_app. split; [done|]. constructor; [|done].
      unfold entry_shape, entry. eauto 10. }
    rewrite (save_run _ _ _ _ _ _ l Hledger), Hdump, Hdir. cbn [orb].
    eexists _, _. split; [reflexivity|]. split; [reflexivity|].
    cbn [self fs with_ledger downloaded_hashes metadata_file].
    split; [done|]. split; [done|].
    rewrite lookup_insert_eq. split; [done|].
    by rewrite load_written by (by apply ledger_wf).
Qed.

(** A case of the theorem: after [cat] has been fetched, the entry of a
    second image is appended and the file is read back. *)
Lemma ledger_round_trip_witness :
  (load_download_history
     (<["ledger.json" := File (dumps (JList [Runs.cat_entry]))]> ∅)
     "ledger.json" false = JList [Runs.cat_entry] ∧
   dumps (load_download_history
            (<["ledger.json" := File (dumps (JList [Runs.cat_entry]))]> ∅)
            "ledger.json" false) =
   dumps (JList [Runs.cat_entry])) ∧
  ∃ st' l',
    save_download_metadata (Sample.env (Sample.png "woof")) "abc" Runs.dog_url
      "Fetched_Images/dog.png" 4 Runs.after_cat = (inr (), st') ∧
    l' = [Runs.cat_entry] ++
         [entry "abc" Runs.dog_url "Fetched_Images/dog.png" 4
            (isoformat (now_metadata (Sample.env (Sample.png "woof"))))] ∧
    downloaded_hashes (self st') = JList l' ∧
    Forall entry_shape l' ∧
    fs st' !! metadata_file (self st') = Some (File (dumps (JList l'))) ∧
    load_download_history (fs st') (metadata_file (self st')) false = JList l' ∧
    dumps (load_download_history (fs st') (metadata_file (self st')) false) =
    dumps (JList l').
Proof.
  apply (ledger_round_trip [Runs.cat_entry] ∅ "ledger.json"
           (Sample.env (Sample.png "woof")) "abc" Runs.dog_url
           "Fetched_Images/dog.png" 4 Runs.after_cat).
  - constructor; [|constructor]. unfold entry_shape, Runs.cat_entry, entry. eauto 10.
  - vm_compute; reflexivity.
  - reflexivity.
  - vm_compute; reflexivity.
Defined.

(** ** Where a fetch writes *)

Import Effects.

Lemma mem_char_app (c : ascii) (a b : string) :
  Py.mem_char c (a +:+ b) = Py.mem_char c a || Py.mem_char c b.
Proof.
  induction a as [|x a IH]; [done|]. rewrite str_app_cons. simpl.
  by case_decide.
Qed.

Lemma mem_char_take (c : ascii) (n : nat) (s : string) :
  Py.mem_char c s = false → Py.mem_char c (Py.take n s) = false.
Proof.
  revert s. induction n as [|n IH]; intros [|x s]; simpl; try done.
  case_decide; [done|]. apply IH.
Qed.

Lemma mem_char_drop (c : ascii) (n : nat) (s : string) :
  Py.mem_char c s = false → Py.mem_char c (Py.drop n s) = false.
Proof.
  revert s. induction n as [|n IH]; intros [|x s]; simpl; try done.
  case_decide; [done|]. apply IH.
Qed.

Lemma splitext_mem_char (c : ascii) (s name ext : string) :
  OsPath.splitext s = (name, ext) →
  Py.mem_char c s = false →
  Py.mem_char c name = false ∧ Py.mem_char c ext = false.
Proof.
  unfold OsPath.splitext. intros H Hs.
  destruct (Py.rfind "." s) as [dot|]; [|by simplify_eq].
  destruct (_ && _); simplify_eq; [|done].
  split; [by apply mem_char_take|by apply mem_char_drop].
Qed.

Lemma str_no_slash (k : Z) : Py.mem_char "/" (Py.str k) = false.
Proof.
  assert (∀ x : N, Py.mem_char "/" (pretty x) = false) as HN.
  { intros x. apply (mem_char_false Py.is_digit); [apply pretty_N_digits|done]. }
  destruct k as [|p|p]; [done|apply (HN (Npos p))|].
  change (Py.str (Z.neg p)) with ("-" +:+ pretty (Npos p)).
  by rewrite mem_char_app, HN.
Qed.

Lemma plain_name_intro (n : string) :
  Py.mem_char "/" n = false → n ≠ "" → n ≠ ".." → plain_name n = true.
Proof.
  intros Hs He Hd. unfold plain_name.
  by rewrite contains_char, Hs, !bool_decide_eq_false_2.
Qed.

Lemma candidate_plain (name ext : string) (k : Z) :
  Py.mem_char "/" name = false → Py.mem_char "/" ext = false →
  plain_name (name +:+ "_" +:+ Py.str k +:+ ext) = true.
Proof.
  intros Hn He.
  assert (Py.mem_char "_" (name +:+ "_" +:+ Py.str k +:+ ext) = true) as Hu.
  { rewrite !mem_char_app. simpl. by rewrite orb_true_r. }
  apply plain_name_intro.
  - by rewrite !mem_char_app, Hn, He, str_no_slash.
  - intros E. by rewrite E in Hu.
  - intros E. by rewrite E in Hu.
Qed.

(** The path [get_unique_filepath] returns for a plain name lies directly in
    the directory. *)
Lemma unique_path_plain f directory filename p :
  Starter.get_unique_filepath f directory filename = Some p →
  plain_name filename = true →
  ∃ n, p = OsPath.join directory n ∧ plain_name n = true.
Proof.
  intros Hp Hplain. unfold Starter.get_unique_filepath in Hp.
  destruct (negb _); [simplify_eq; eauto|].
  destruct (OsPath.splitext filename) as [name ext] eqn:Hsplit.
  apply probe_some in Hp as [_ [->|[_ (k & _ & -> & _)]]]; [eauto|].
  unfold Starter.candidate. eexists; split; [done|].
  unfold plain_name in Hplain. rewrite contains_char in Hplain.
  apply andb_true_iff in Hplain as [Hplain _].
  apply andb_true_iff in Hplain as [Hs%negb_true_iff _].
  destruct (splitext_mem_char _ _ _ _ Hsplit Hs). by apply candidate_plain.
Qed.

Lemma safe_is_plain (n : string) :
  is_safe_filename n = true → n ≠ "" → plain_name n = true.
Proof.
  unfold is_safe_filename. cbn [existsb].
  intros [H _]%andb_true_iff Hne. apply negb_true_iff in H.
  apply orb_false_iff in H as [Hdots H]. apply orb_false_iff in H as [Hslash _].
  unfold plain_name. rewrite Hslash. rewrite bool_decide_eq_false_2 by done.
  rewrite bool_decide_eq_false_2; [done|]. by intros ->.
Qed.

(** The name [extract_filename] returns is safe and not empty. *)
Lemma extract_filename_safe env url response st name st' :
  datetime_ok (now_filename env) →
  extract_filename env url response st = (inr name, st') →
  is_safe_filename name = true ∧ name ≠ "".
Proof.
  intros Hok. pose proof (stamped_safe env response Hok) as Hstamped.
  pose proof (safe_stamped_safe env Hok) as Hsafe.
  unfold extract_filename. fold (stamped env response). fold (safe_stamped env).
  set (cd := default EmptyString (headers_get "Content-Disposition" (headers response))).
  assert (
    match Url.urlparse url with
    | Some parsed_url =>
        mret (if is_safe_filename
                   (if bool_decide (OsPath.basename (Url.path parsed_url) = "")
                       || negb (Py.contains "." (OsPath.basename (Url.path parsed_url)))
                    then stamped env response
                    else OsPath.basename (Url.path parsed_url))
              then if bool_decide (OsPath.basename (Url.path parsed_url) = "")
                      || negb (Py.contains "." (OsPath.basename (Url.path parsed_url)))
                   then stamped env response
                   else OsPath.basename (Url.path parsed_url)
              else safe_stamped env)
    | None => raise ValueError
    end st = (inr name, st') →
    is_safe_filename name = true ∧ name ≠ "") as Hurl.
  { destruct (Url.urlparse url) as [parsed|]; [|by mrun].
    set (base := OsPath.basename (Url.path parsed)).
    destruct (bool_decide (base = "") || negb (Py.contains "." base)) eqn:Hb.
    - rewrite Hstamped. intros [= <- <-]. split; [done|]. by unfold stamped.
    - apply orb_false_iff in Hb as [Hb%bool_decide_eq_false _].
      destruct (is_safe_filename base) eqn:Hs; intros [= <- <-]; [done|].
      split; [done|]. by unfold safe_stamped. }
  destruct (Py.contains "filename=" cd); [|by apply Hurl].
  set (c := Py.strip quotes (nth 1 (Py.split "filename=" cd) EmptyString)).
  destruct (negb (bool_decide (c = "")) && is_safe_filename c) eqn:Hc;
    [|by apply Hurl].
  apply andb_true_iff in Hc as [Hne%negb_true_iff%bool_decide_eq_false Hc].
  by intros [= <- <-].
Qed.

(** *** Steps that stay on one path *)

Lemma confined_refl p : Reflexive (confined p).
Proof.
  intros st. split; [done|]. split; [done|]. split; [by left|].
  exists []. by rewrite app_nil_r.
Qed.
#[global] Existing Instance confined_refl.

Lemma confined_trans p : Transitive (confined p).
Proof.
  intros a b c (Hd1 & Hm1 & Hf1 & evs1 & Ht1 & He1) (Hd2 & Hm2 & Hf2 & evs2 & Ht2 & He2).
  split; [congruence|]. split; [congruence|]. split.
  - intros q Hp Hq.
    assert (q ≠ metadata_file (self b)) as Hq' by (by rewrite Hm1).
    destruct (Hf1 q Hp Hq) as [E1|(Hq1 & E1 & E1')],
             (Hf2 q Hp Hq') as [E2|(Hq2 & E2 & E2')].
    + left. congruence.
    + right. rewrite Hd1 in Hq2. split; [done|]. split; congruence.
    + right. split; [done|]. split; congruence.
    + congruence.
  - exists (evs1 ++ evs2). rewrite Ht2, Ht1, app_assoc. split; [done|].
    apply Forall_app. split; [done|]. by rewrite <-Hm1.
Qed.
#[global] Existing Instance confined_trans.

Lemma on_path_other p mf e : is_file_event e = false → on_path p mf e = true.
Proof. by destruct e. Qed.

Lemma confined_of_quiet p st st' :
  quiet (download_dir (self st)) st st' → confined p st st'.
Proof.
  intros (Hs & Hf & evs & Ht & He). unfold confined. rewrite Hs.
  split; [done|]. split; [done|]. split.
  - intros q _ _. destruct Hf as [->| ->]; [by left|].
    unfold ensure_dir. destruct (fs st !! download_dir (self st)) eqn:E; [by left|].
    destruct (decide (q = download_dir (self st))) as [->|Hne].
    + right. by rewrite lookup_insert_eq.
    + left. by rewrite lookup_insert_ne.
  - exists evs. split; [done|]. eapply Forall_impl; [exact He|].
    intros e. apply on_path_other.
Qed.

(** A step that changes the file system at [p] or at the ledger file only,
    keeps the fetcher object but for its ledger, and adds the events [evs]. *)
Lemma confined_intro p st slf f evs :
  download_dir slf = download_dir (self st) →
  metadata_file slf = metadata_file (self st) →
  (∀ q, q ≠ p → q ≠ metadata_file (self st) → f !! q = fs st !! q) →
  Forall (λ e, on_path p (metadata_file (self st)) e = true) evs →
  confined p st {| self := slf; fs := f; trace := trace st ++ evs |}.
Proof.
  intros Hd Hm Hf He. split; [done|]. split; [done|]. split; [|by exists evs].
  intros q Hp Hq. left. by apply Hf.
Qed.

Lemma confined_emit p (e : event) :
  is_file_event e = false → mframe (confined p) (emit e).
Proof.
  intros He st r st' [= <- <-]. apply confined_intro; try done.
  constructor; [by apply on_path_other|done].
Qed.

Lemma confined_print p (m : message) : mframe (confined p) (print m).
Proof. by apply confined_emit. Qed.

Lemma confined_open_wb p env : mframe (confined p) (open_wb env p).
Proof.
  intros st r st'. unfold open_wb. mrun.
  assert (confined p st
            {| self := self st; fs := <[p := File ""]> (fs st);
               trace := trace st ++ [EvOpen p] |}) as Hopen.
  { apply confined_intro; try done.
    - intros q Hq _. by rewrite lookup_insert_ne.
    - constructor; [|done]. simpl. by apply bool_decide_eq_true. }
  destruct (fs st !! p) as [[data|]|]; try destruct (open_fault env);
    intros [= <- <-]; try reflexivity; exact Hopen.
Qed.

Lemma confined_write p env i chunk : mframe (confined p) (write env p i chunk).
Proof.
  intros st r st'. unfold write. case_bool_decide; mrun.
  { intros [= <- <-]. reflexivity. }
  destruct (fs st !! p) as [[data|]|]; intros [= <- <-]; try reflexivity.
  apply confined_intro; try done.
  - intros q Hq _. by rewrite lookup_insert_ne.
  - constructor; [|done]. simpl. by apply bool_decide_eq_true.
Qed.

Lemma confined_remove p : mframe (confined p) (remove p).
Proof.
  intros st r st'. unfold remove. mrun.
  destruct (fs st !! p) as [[data|]|]; intros [= <- <-]; try reflexivity.
  apply confined_intro; try done.
  - intros q Hq _. by rewrite lookup_delete_ne.
  - constructor; [|done]. simpl. by apply bool_decide_eq_true.
Qed.

Lemma confined_getsize p path : mframe (confined p) (getsize path).
Proof.
  intros st r st'. unfold getsize. mrun.
  destruct (fs st !! path) as [[data|]|]; intros [= <- <-]; reflexivity.
Qed.

Lemma confined_save p env content_hash url filepath file_size :
  mframe (confined p) (save_download_metadata env content_hash url filepath file_size).
Proof.
  intros st r st'. unfold save_download_metadata. mrun.
  destruct (downloaded_hashes (self st)) as [|?|?|?|l|?]; simpl;
    try (intros [= <- <-]; reflexivity).
  destruct (dump_fault env); mrun.
  - intros [= <- <-]. apply confined_intro; try done. by constructor.
  - destruct (fs st !! metadata_file (self st)) as [[data|]|]; mrun;
      intros [= <- <-]; apply confined_intro; try done;
      try (intros q _ Hq; by rewrite lookup_insert_ne);
      (constructor; [|done]); simpl; first [done|by apply bool_decide_eq_true].
Qed.

(** Solve a goal [mframe (confined p) m] by the structure of [m]. *)
Ltac confined_step :=
  first
    [ apply mframe_ret; apply _
    | apply mframe_raise; apply _
    | apply mframe_lift; apply _
    | apply mframe_get_self; apply _
    | apply mframe_get_fs; apply _
    | apply confined_print
    | apply confined_emit; reflexivity
    | apply confined_open_wb
    | apply confined_write
    | apply confined_remove
    | apply confined_getsize
    | apply confined_save
    | apply mframe_bind; [apply _| |intros ?]
    | apply mframe_try; [apply _| |intros ?]
    | progress cbv zeta
    | case_match ].

Lemma confined_write_chunks p env chunks i downloaded_size :
  mframe (confined p) (write_chunks env p chunks i downloaded_size).
Proof.
  revert i downloaded_size.
  induction chunks as [|chunk rest IH]; intros i downloaded_size; simpl.
  - apply mframe_ret; apply _.
  - repeat first [apply IH | confined_step].
Qed.

(** *** The whole fetch *)

Lemma exists_false_none (f : gmap string node) (p : string) :
  exists_ f p = false → f !! p = None.
Proof.
  unfold exists_. intros H%bool_decide_eq_false.
  destruct (f !! p) eqn:E; [|done]. destruct H. eauto.
Qed.

Lemma fresh_plain_name (f : gmap string node) (d : string) :
  ∃ n, plain_name n = true ∧ f !! OsPath.join d n = None.
Proof.
  destruct (get_unique_filepath_total f d "x") as [p Hp].
  destruct (unique_path_plain _ _ _ _ Hp eq_refl) as (n & -> & Hn).
  exists n. split; [done|]. by apply get_unique_filepath_fresh, exists_false_none in Hp.
Qed.

Lemma ensure_dir_none d f p : ensure_dir d f !! p = None → f !! p = None.
Proof.
  unfold ensure_dir. destruct (f !! d) eqn:E; [done|].
  destruct (decide (p = d)) as [->|Hne]; [done|]. by rewrite lookup_insert_ne.
Qed.

Lemma store_confined env url batch_mode response content_hash st r st' :
  datetime_ok (now_filename env) →
  store env url batch_mode response content_hash st = (r, st') →
  ∃ n, plain_name n = true ∧
       fs st !! OsPath.join (download_dir (self st)) n = None ∧
       confined (OsPath.join (download_dir (self st)) n) st st'.
Proof.
  intros Hok. unfold store. rewrite bind_run.
  destruct (extract_filename env url response st) as [[e|filename] st0] eqn:Hname.
  { apply extract_filename_pure in Hname as ->. intros [= <- <-].
    destruct (fresh_plain_name (fs st) (download_dir (self st))) as (n & Hn & Hf).
    exists n. split; [done|]. split; [done|]. reflexivity. }
  pose proof (extract_filename_pure _ _ _ _ _ _ Hname) as ->.
  apply extract_filename_safe in Hname as [Hsafe Hne]; [|done].
  rewrite bind_run, get_unique_filepath_run.
  destruct (Starter.get_unique_filepath _ _ _) as [filepath|] eqn:Hpath.
  2: { intros [= <- <-].
       destruct (fresh_plain_name (fs st) (download_dir (self st))) as (n & Hn & Hf).
       exists n. split; [done|]. split; [done|]. reflexivity. }
  destruct (unique_path_plain _ _ _ _ Hpath (safe_is_plain _ Hsafe Hne)) as (n & Hp & Hn).
  apply get_unique_filepath_fresh, exists_false_none in Hpath.
  exists n. split; [done|]. rewrite <-Hp. split; [done|].
  revert H. clear Hp Hpath. revert st r st'.
  refine (_ : mframe (confined filepath) _).
  unfold declared_file_size, iter_content.
  repeat first [apply confined_write_chunks | confined_step].
Qed.

Lemma confined_after_quiet n st st1 st' :
  quiet (download_dir (self st)) st st1 →
  fs st1 !! OsPath.join (download_dir (self st1)) n = None →
  confined (OsPath.join (download_dir (self st1)) n) st1 st' →
  fs st !! OsPath.join (download_dir (self st)) n = None ∧
  confined (OsPath.join (download_dir (self st)) n) st st'.
Proof.
  intros Hq Hf Hc. pose proof Hq as (Hs & Hfs & _). rewrite Hs in Hf, Hc. split.
  - destruct Hfs as [E|E]; rewrite E in Hf; [done|by eapply ensure_dir_none].
  - etrans; [by apply confined_of_quiet|done].
Qed.

Lemma quiet_fresh_name st st' :
  quiet (download_dir (self st)) st st' →
  ∃ n, plain_name n = true ∧
       fs st !! OsPath.join (download_dir (self st)) n = None ∧
       confined (OsPath.join (download_dir (self st)) n) st st'.
Proof.
  intros Hq.
  destruct (fresh_plain_name (fs st) (download_dir (self st))) as (n & Hn & Hf).
  exists n. split; [done|]. split; [done|]. by apply confined_of_quiet.
Qed.

Lemma quiet_then_print d st st' m :
  quiet d st st' →
  quiet d st {| self := self st'; fs := fs st'; trace := trace st' ++ [EvPrint m] |}.
Proof.
  intros Hq. etrans; [exact Hq|]. by apply (quiet_print d m st' (inr ())).
Qed.

Lemma check_and_store_confined env url batch_mode response st r st' :
  datetime_ok (now_filename env) →
  try_except (check_and_store env url batch_mode response) report st = (r, st') →
  ∃ n, plain_name n = true ∧
       fs st !! OsPath.join (download_dir (self st)) n = None ∧
       confined (OsPath.join (download_dir (self st)) n) st st'.
Proof.
  intros Hok. rewrite try_except_run. unfold check_and_store. rewrite bind_run.
  destruct (validate_response_headers response st) as [[e|[|]] st2] eqn:Hval;
    pose proof (quiet_validate (download_dir (self st)) _ _ _ _ Hval) as Hq2.
  { rewrite report_run. intros [= <- <-]. by apply quiet_fresh_name, quiet_then_print. }
  2: { mrun. intros [= <- <-]. by apply quiet_fresh_name. }
  cbn [negb]. rewrite bind_run, calculate_content_hash_run.
  set (st3 := {| self := self st2; fs := fs st2; trace := trace st2 ++ [EvReadContent] |}).
  assert (quiet (download_dir (self st)) st st3) as Hq3.
  { etrans; [exact Hq2|]. by apply (quiet_emit _ EvReadContent eq_refl st2 (inr ())). }
  destruct (content response) as [e|body].
  { rewrite report_run. intros [= <- <-].
    by apply quiet_fresh_name, (quiet_then_print _ _ st3). }
  rewrite bind_run, is_duplicate_run.
  destruct (match py_iter _ with inl e => _ | inr records => _ end) as [e|[|]].
  { rewrite report_run. intros [= <- <-].
    by apply quiet_fresh_name, (quiet_then_print _ _ st3). }
  { mrun. intros [= <- <-]. by apply quiet_fresh_name, (quiet_then_print _ _ st3). }
  destruct (store _ _ _ _ _ st3) as [[e|b] st4] eqn:Hstore;
    apply store_confined in Hstore as (n & Hn & Hf & Hc); try done.
  - rewrite report_run. intros [= <- <-]. exists n. split; [done|].
    apply (confined_after_quiet n st st3); [done|done|].
    etrans; [exact Hc|]. by eapply (confined_print _ _ st4 (inr ())).
  - intros [= <- <-]. exists n. split; [done|].
    by apply (confined_after_quiet n st st3).
Qed.

(** X1.  Whatever the network and the disk answer, a call of [download_image]
    acts on at most one file besides the ledger file, and this file lies
    directly in the download directory: there is a name [n] without slash,
    not empty and not [..], such that [download_dir/n] did not exist before
    the call, every file opened, written or removed during the call is
    [download_dir/n], the only ledger written is [metadata_file], and the
    file system after the call differs from the one before at most at
    [download_dir/n], at the ledger file, and at the download directory
    itself when the call created it. *)
Theorem download_stays_in_its_directory env url batch_mode st r st' :
  datetime_ok (now_filename env) →
  download_image env url batch_mode st = (r, st') →
  ∃ n evs,
    plain_name n = true ∧
    fs st !! OsPath.join (download_dir (self st)) n = None ∧
    trace st' = trace st ++ evs ∧
    Forall (λ e, on_path (OsPath.join (download_dir (self st)) n)
                   (metadata_file (self st)) e = true) evs ∧
    ∀ q, fs st' !! q ≠ fs st !! q →
         q = OsPath.join (download_dir (self st)) n ∨
         q = metadata_file (self st) ∨
         (q = download_dir (self st) ∧ fs st !! q = None ∧ fs st' !! q = Some Dir).
Proof.
  intros Hok Hrun.
  assert (∃ n, plain_name n = true ∧
               fs st !! OsPath.join (download_dir (self st)) n = None ∧
               confined (OsPath.join (download_dir (self st)) n) st st')
    as (n & Hn & Hf & _ & _ & Hfs & evs & Ht & He).
  { revert Hrun. unfold download_image. rewrite try_except_run, bind_run.
    destruct (request env url st) as [[e|[response|]] st1] eqn:Hreq;
      apply quiet_request in Hreq.
    - rewrite report_run. intros [= <- <-].
      by apply quiet_fresh_name, quiet_then_print.
    - intros Hrun.
      destruct (check_and_store_confined env url batch_mode response st1 r st' Hok)
        as (n & Hn & Hf & Hc); [by rewrite try_except_run|].
      exists n. split; [done|]. by apply (confined_after_quiet n st st1).
    - mrun. intros [= <- <-]. by apply quiet_fresh_name. }
  exists n, evs. repeat split; try done.
  intros q Hq.
  destruct (decide (q = OsPath.join (download_dir (self st)) n)) as [|Hp]; [by left|].
  destruct (decide (q = metadata_file (self st))) as [|Hm]; [by right; left|].
  destruct (Hfs q Hp Hm) as [E|E]; [done|by right; right].
Qed.

(** A case of X1: the fetch of [cat] changes the disk at [Fetched_Images/cat.png]. *)
Lemma download_stays_in_its_directory_witness :
  ∃ n evs,
    plain_name n = true ∧
    fs Sample.start !! OsPath.join (download_dir (self Sample.start)) n = None ∧
    trace Runs.after_cat = trace Sample.start ++ evs ∧
    Forall (λ e, on_path (OsPath.join (download_dir (self Sample.start)) n)
                   (metadata_file (self Sample.start)) e = true) evs ∧
    ∀ q, fs Runs.after_cat !! q ≠ fs Sample.start !! q →
         q = OsPath.join (download_dir (self Sample.start)) n ∨
         q = metadata_file (self Sample.start) ∨
         (q = download_dir (self Sample.start) ∧ fs Sample.start !! q = None ∧
          fs Runs.after_cat !! q = Some Dir).
Proof.
  apply (download_stays_in_its_directory (Sample.env Runs.cat) Runs.cat_url false
           Sample.start (inr true) Runs.after_cat).
  - vm_compute. repeat split; congruence.
  - vm_compute; reflexivity.
Defined.

(** ** What an accepted download leaves *)

Lemma is_duplicate_loop_false_inv l h :
  is_duplicate_loop l h = inr false →
  Forall (λ record, ∃ v, py_getitem record "hash" = inr v ∧ py_eq_str v h = false) l.
Proof.
  induction l as [|record l IH]; simpl; [done|].
  destruct (py_getitem record "hash") as [e|v] eqn:Hv; [done|].
  destruct (py_eq_str v h) eqn:Heq; [done|]. intros H. constructor; eauto.
Qed.

Lemma is_duplicate_loop_false_intro l h :
  Forall (λ record, ∃ v, py_getitem record "hash" = inr v ∧ py_eq_str v h = false) l →
  is_duplicate_loop l h = inr false.
Proof.
  induction 1 as [|record l (v & Hv & Heq) _ IH]; simpl; [done|].
  by rewrite Hv, Heq.
Qed.

(** When the loop of the body runs to its end, either nothing was written or
    what was written is within the limit. *)
Lemma write_chunks_within_limit env path chunks i downloaded_size st st' :
  write_chunks env path chunks i downloaded_size st = (inr None, st') →
  total_length chunks = 0 ∨
  downloaded_size + total_length chunks ≤ max_file_size (self st).
Proof.
  revert i downloaded_size st.
  induction chunks as [|chunk rest IH]; intros i d st; simpl; [by left|].
  case_bool_decide as Hc.
  { subst chunk. intros Hrest%IH. simpl. lia. }
  unfold write. case_bool_decide; mrun; [done|].
  destruct (fs st !! path) as [[data|]|]; mrun; try done.
  destruct (_ >? _) eqn:Hcmp.
  { destruct (remove path _) as [[e|[]] s']; by intros; simplify_eq. }
  intros Hrest%IH. simpl in Hrest. apply gtb_false in Hcmp. right.
  destruct Hrest as [Hrest|Hrest]; lia.
Qed.

(** X2.  When [download_image] returns [True]: the GET request gave a
    response whose body is not empty and not longer than the limit; the body
    was stored at a path that did not exist before the call, which (unless it
    is the path of the ledger file) now holds exactly the body; no record of
    the ledger had the digest of the body; and the ledger in memory is the
    old one followed by one record with the digest, the URL, the path, the
    length of the body and the date.  The run ends on the success message. *)
Theorem accepted_download_is_stored env url batch_mode st st' :
  download_image env url batch_mode st = (inr true, st') →
  ∃ response body filepath l evs,
    get_reply env = inr response ∧
    content response = inr body ∧
    body ≠ "" ∧
    Z.of_nat (String.length body) ≤ max_file_size (self st) ∧
    fs st !! filepath = None ∧
    (filepath ≠ metadata_file (self st) → fs st' !! filepath = Some (File body)) ∧
    downloaded_hashes (self st) = JList l ∧
    Forall (λ record, ∃ v, py_getitem record "hash" = inr v ∧
                           py_eq_str v (Sha256.hexdigest body) = false) l ∧
    downloaded_hashes (self st') =
      JList (l ++ [entry (Sha256.hexdigest body) url filepath
                     (Z.of_nat (String.length body)) (isoformat (now_metadata env))]) ∧
    trace st' = trace st ++ evs ++
      [EvPrint (if batch_mode
                then MsgDownloaded filepath (Z.of_nat (String.length body))
                else MsgFetched filepath (Z.of_nat (String.length body)))].
Proof.
  intros Hrun.
  apply download_image_true_inv in Hrun
    as (response & st1 & st2 & body & records & Hreq & Hval & Hbody & Hl & Hloop & Hstore).
  pose proof (request_validate_quiet _ _ _ _ _ _ _ Hreq Hval) as (Hs2 & Hf2 & evs2 & Ht2 & _).
  apply request_some_inv in Hreq as (_ & Hget & _).
  apply store_true_inv in Hstore
    as (filename & filepath & body' & l & st4 & _ & Hpath & _ & _ & Hbody' & Hchunks
        & Hne & Hl' & Hs4 & Hf4 & Hst').
  rewrite Hbody in Hbody'. injection Hbody' as <-.
  simpl in Hpath, Hl', Hs4, Hf4, Hst'. cbv zeta in Hst'.
  rewrite Hl in Hl'. injection Hl' as <-. rewrite Hs2 in Hl, Hst'.
  apply get_unique_filepath_fresh, exists_false_none in Hpath.
  pose proof (write_chunks_done _ _ _ _ _ _ _ "" Hchunks (lookup_insert_eq _ _ _))
    as (_ & _ & (evs4 & Ht4 & _) & _).
  apply write_chunks_within_limit in Hchunks. simpl in Hchunks, Ht4.
  rewrite (proj1 (iter_slices_total (Z.to_nat 8192) body ltac:(lia))), Hs2 in Hchunks.
  exists response, body, filepath, records,
    (evs2 ++ [EvReadContent; EvOpen filepath] ++ evs4 ++
     [if dump_fault env || isdir (fs st4) (metadata_file (self st))
      then EvPrint MsgMetadataWarning else EvDump (metadata_file (self st))]).
  split; [done|]. split; [done|]. split; [done|]. split.
  { destruct Hchunks as [H0|H]; [|lia]. destruct body; [done|]. simpl in H0. lia. }
  split.
  { destruct Hf2 as [E|E]; rewrite E in Hpath; [done|by eapply ensure_dir_none]. }
  split.
  { intros Hmf. rewrite Hst'. simpl.
    destruct (_ || _); [|rewrite lookup_insert_ne by done];
      rewrite Hf4; apply lookup_insert_eq. }
  split; [done|]. split; [by apply is_duplicate_loop_false_inv|]. split.
  { by rewrite Hst'. }
  rewrite Hst'. simpl. rewrite Ht4, Ht2. repeat (rewrite <-app_assoc; simpl).
  reflexivity.
Qed.

(** A case of X2: the fetch of [cat] on a fresh directory. *)
Lemma accepted_download_is_stored_witness :
  ∃ response body filepath l evs,
    get_reply (Sample.env Runs.cat) = inr response ∧
    content response = inr body ∧
    body ≠ "" ∧
    Z.of_nat (String.length body) ≤ max_file_size (self Sample.start) ∧
    fs Sample.start !! filepath = None ∧
    (filepath ≠ metadata_file (self Sample.start) →
     fs Runs.after_cat !! filepath = Some (File body)) ∧
    downloaded_hashes (self Sample.start) = JList l ∧
    Forall (λ record, ∃ v, py_getitem record "hash" = inr v ∧
                           py_eq_str v (Sha256.hexdigest body) = false) l ∧
    downloaded_hashes (self Runs.after_cat) =
      JList (l ++ [entry (Sha256.hexdigest body) Runs.cat_url filepath
                     (Z.of_nat (String.length body))
                     (isoformat (now_metadata (Sample.env Runs.cat)))]) ∧
    trace Runs.after_cat = trace Sample.start ++ evs ++
      [EvPrint (if false
                then MsgDownloaded filepath (Z.of_nat (String.length body))
                else MsgFetched filepath (Z.of_nat (String.length body)))].
Proof.
  apply (accepted_download_is_stored (Sample.env Runs.cat) Runs.cat_url false
           Sample.start Runs.after_cat).
  vm_compute; reflexivity.
Defined.

(** ** Requests that fail *)

(** X3.  When the GET request raises, or is answered with a status from 400
    to 599, [download_image] returns [False] whatever else happens, the
    fetcher object is unchanged, no file is opened, written or removed, and
    the file system is as before but for the download directory, which may
    have been created. *)
Theorem failed_get_writes_nothing env url batch_mode st :
  (∃ e, get_reply env = inl e) ∨
  (∃ response, get_reply env = inr response ∧ 400 ≤ status_code response < 600) →
  ∃ st' evs,
    download_image env url batch_mode st = (inr false, st') ∧
    self st' = self st ∧
    (fs st' = fs st ∨ fs st' = ensure_dir (download_dir (self st)) (fs st)) ∧
    trace st' = trace st ++ evs ∧
    Forall (λ e, is_file_event e = false) evs.
Proof.
  intros Hget.
  assert (∃ st', download_image env url batch_mode st = (inr false, st') ∧
                 quiet (download_dir (self st)) st st')
    as (st' & Hrun & Hs & Hf & evs & Ht & He); [|by exists st', evs].
  unfold download_image. rewrite try_except_run, bind_run.
  destruct (request env url st) as [[e|[response|]] st1] eqn:Hreq.
  - rewrite report_run. eexists. split; [done|].
    by apply quiet_request, (quiet_then_print _ _ _ (match e with
        | Timeout => MsgTimeout | ConnectionError => MsgConnectionError
        | HTTPError => MsgHTTPError | TooManyRedirects => MsgTooManyRedirects
        | RequestException => MsgRequestError | OSError => MsgFileError
        | _ => MsgUnexpected e end)) in Hreq.
  - apply request_some_inv in Hreq as (_ & Hr & Hstatus).
    destruct Hget as [[e He]|(r & Hr' & Hstatus')]; [congruence|].
    rewrite Hr in Hr'. by simplify_eq.
  - mrun. eexists. split; [done|]. by apply quiet_request in Hreq.
Qed.

(** A case of X3: the server answers 404. *)
Lemma failed_get_writes_nothing_witness :
  ∃ st' evs,
    download_image
      (Sample.env {| status_code := 404; headers := []; content := inr "gone" |})
      Runs.cat_url false Sample.start = (inr false, st') ∧
    self st' = self Sample.start ∧
    (fs st' = fs Sample.start ∨
     fs st' = ensure_dir (download_dir (self Sample.start)) (fs Sample.start)) ∧
    trace st' = trace Sample.start ++ evs ∧
    Forall (λ e, is_file_event e = false) evs.
Proof.
  apply (failed_get_writes_nothing
           (Sample.env {| status_code := 404; headers := []; content := inr "gone" |})
           Runs.cat_url false Sample.start).
  right. eexists. split; [reflexivity|]. simpl. lia.
Defined.

(** ** The HEAD request *)

Lemma emits_refl P : Reflexive (emits P).
Proof. intros st. exists []. by rewrite app_nil_r. Qed.
#[global] Existing Instance emits_refl.

Lemma emits_trans P : Transitive (emits P).
Proof.
  intros a b c (evs1 & Ht1 & He1) (evs2 & Ht2 & He2).
  exists (evs1 ++ evs2). rewrite Ht2, Ht1, app_assoc. split; [done|].
  by apply Forall_app.
Qed.
#[global] Existing Instance emits_trans.

Lemma emits_emit P (e : event) : P e = true → mframe (emits P) (emit e).
Proof. intros He st r st' [= <- <-]. exists [e]. split; [done|]. by constructor. Qed.

Lemma emits_makedirs P env d :
  P (EvMakedirs d) = true → mframe (emits P) (makedirs env d).
Proof.
  intros HP st r st'. unfold makedirs. mrun.
  destruct (fs st !! d) as [[?|]|]; [| |destruct (makedirs_fault env)];
    intros [= <- <-]; exists [EvMakedirs d]; split; try done; by constructor.
Qed.

Ltac before_get_step :=
  first
    [ apply mframe_ret; apply _
    | apply mframe_raise; apply _
    | apply mframe_lift; apply _
    | apply mframe_get_self; apply _
    | apply mframe_get_fs; apply _
    | apply emits_makedirs; reflexivity
    | apply emits_emit; reflexivity
    | apply mframe_bind; [apply _| |intros ?]
    | apply mframe_try; [apply _| |intros ?]
    | progress cbv zeta
    | case_match ].

Lemma before_get_is_valid_url url : mframe (emits before_get) (is_valid_url url).
Proof. unfold is_valid_url, print. repeat before_get_step. Qed.

Lemma before_get_validate response :
  mframe (emits before_get) (validate_response_headers response).
Proof. unfold validate_response_headers, print. repeat before_get_step. Qed.

(** The verdict of [validate_response_headers] depends on the fetcher object
    only. *)
Lemma validate_verdict response st st2 :
  self st2 = self st →
  (validate_response_headers response st2).1 = (validate_response_headers response st).1.
Proof.
  intros Hs. unfold validate_response_headers. mrun. rewrite Hs.
  repeat case_match; mrun; try done.
Qed.

Lemma request_head_rejected env url st head_response :
  head_reply env = inr head_response →
  (validate_response_headers head_response st).1 = inr false →
  ∃ r st1, request env url st = (r, st1) ∧
           (∀ response, r ≠ inr (Some response)) ∧
           emits before_get st st1.
Proof.
  intros Hhead Hval. unfold request. rewrite bind_run.
  change (get_self st) with (@inr exn _ (self st), st). cbn beta iota.
  rewrite bind_run.
  destruct (makedirs env _ st) as [[e|[]] st1] eqn:Hmk;
    pose proof (emits_makedirs before_get env _ eq_refl _ _ _ Hmk) as He1;
    [by eauto|].
  assert (self st1 = self st) as Hs1.
  { by destruct (quiet_makedirs _ _ _ _ _ Hmk). }
  rewrite bind_run.
  destruct (is_valid_url url st1) as [[e|[|]] st2] eqn:Hv;
    pose proof (before_get_is_valid_url url _ _ _ Hv) as He2.
  - eexists _, _. split; [done|]. split; [done|]. by etrans.
  - apply is_valid_url_true_inv in Hv as [-> _]. cbn [negb].
    rewrite bind_run, try_except_run. unfold requests_head.
    rewrite bind_run. mrun. rewrite Hhead. mrun.
    set (st3 := {| self := self st1; fs := fs st1; trace := trace st1 ++ [EvHead url] |}).
    pose proof (validate_verdict head_response st st3 Hs1) as Hverdict.
    rewrite Hval in Hverdict.
    destruct (validate_response_headers head_response st3) as [r st4] eqn:Hv4.
    simpl in Hverdict. subst r.
    apply before_get_validate in Hv4.
    eexists _, _. split; [done|]. split; [done|].
    etrans; [exact He1|]. etrans; [|exact Hv4].
    by apply (emits_emit before_get (EvHead url) eq_refl st1 (inr ())).
  - cbn [negb]. mrun. eexists _, _. split; [done|]. split; [done|].
    etrans; [exact He1|]. etrans; [exact He2|].
    by apply (emits_emit before_get (EvPrint MsgInvalidUrl) eq_refl st2 (inr ())).
Qed.

(** X4.  When the HEAD request is answered and [validate_response_headers]
    rejects the headers of the answer, [download_image] returns [False]
    without sending the GET request: no body is fetched, no file is opened,
    written or removed, and the fetcher object is unchanged. *)
Theorem rejected_head_stops_the_fetch env url batch_mode st head_response :
  head_reply env = inr head_response →
  (validate_response_headers head_response st).1 = inr false →
  ∃ st' evs,
    download_image env url batch_mode st = (inr false, st') ∧
    self st' = self st ∧
    trace st' = trace st ++ evs ∧
    Forall (λ e, is_file_event e = false ∧ is_body_event e = false) evs.
Proof.
  intros Hhead Hval.
  destruct (request_head_rejected env url st head_response Hhead Hval)
    as (r & st1 & Hreq & Hr & He).
  pose proof (quiet_request _ _ _ _ _ Hreq) as (Hs & _).
  assert (∃ st', download_image env url batch_mode st = (inr false, st') ∧
                 self st' = self st ∧ emits before_get st st')
    as (st' & Hrun & Hs' & evs & Ht & Hevs).
  { unfold download_image. rewrite try_except_run, bind_run, Hreq.
    destruct r as [e|[response|]]; [|by destruct (Hr response)|].
    - rewrite report_run. eexists. split; [done|]. split; [done|].
      etrans; [exact He|]. eexists [_]. split; [done|]. by constructor.
    - mrun. eauto. }
  exists st', evs. repeat split; try done.
  eapply Forall_impl; [exact Hevs|]. intros e [H1 H2]%andb_true_iff.
  by apply negb_true_iff in H1, H2.
Qed.

(** A case of X4: the HEAD request announces an HTML page. *)
Lemma rejected_head_stops_the_fetch_witness :
  ∃ st' evs,
    download_image
      {| head_reply := inr (Sample.response [("Content-Type", "text/html")] "");
         get_reply := inr Runs.cat;
         now_filename := Sample.clock; now_metadata := Sample.clock;
         makedirs_fault := false; open_fault := false; write_fault := None;
         dump_fault := false |}
      Runs.cat_url false Sample.start = (inr false, st') ∧
    self st' = self Sample.start ∧
    trace st' = trace Sample.start ++ evs ∧
    Forall (λ e, is_file_event e = false ∧ is_body_event e = false) evs.
Proof.
  apply (rejected_head_stops_the_fetch _ Runs.cat_url false Sample.start
           (Sample.response [("Content-Type", "text/html")] "")).
  - reflexivity.
  - vm_compute; reflexivity.
Defined.

(** ** The ledger changes with a success only *)

Lemma keeps_self_refl : Reflexive keeps_self.
Proof. by intros st. Qed.
#[global] Existing Instance keeps_self_refl.

Lemma keeps_self_trans : Transitive keeps_self.
Proof. unfold keeps_self. intros a b c ? ?. congruence. Qed.
#[global] Existing Instance keeps_self_trans.

Lemma keeps_self_of_quiet d st st' : quiet d st st' → keeps_self st st'.
Proof. by intros (Hs & _). Qed.

Lemma keeps_self_emit e : mframe keeps_self (emit e).
Proof. by intros st r st' [= <- <-]. Qed.

Lemma keeps_self_open_wb env p : mframe keeps_self (open_wb env p).
Proof.
  intros st r st'. unfold open_wb. mrun.
  destruct (fs st !! p) as [[data|]|]; try destruct (open_fault env);
    by intros [= <- <-].
Qed.

Lemma keeps_self_write env p i chunk : mframe keeps_self (write env p i chunk).
Proof.
  intros st r st'. unfold write. case_bool_decide; mrun; [by intros [= <- <-]|].
  destruct (fs st !! p) as [[data|]|]; by intros [= <- <-].
Qed.

Lemma keeps_self_remove p : mframe keeps_self (remove p).
Proof.
  intros st r st'. unfold remove. mrun.
  destruct (fs st !! p) as [[data|]|]; by intros [= <- <-].
Qed.

Lemma keeps_self_getsize p : mframe keeps_self (getsize p).
Proof.
  intros st r st'. unfold getsize. mrun.
  destruct (fs st !! p) as [[data|]|]; by intros [= <- <-].
Qed.

Ltac keeps_self_step :=
  first
    [ apply mframe_ret; apply _
    | apply mframe_raise; apply _
    | apply mframe_lift; apply _
    | apply mframe_get_self; apply _
    | apply mframe_get_fs; apply _
    | apply keeps_self_emit
    | apply keeps_self_open_wb
    | apply keeps_self_write
    | apply keeps_self_remove
    | apply keeps_self_getsize
    | apply mframe_bind; [apply _| |intros ?]
    | apply mframe_try; [apply _| |intros ?]
    | progress cbv zeta
    | case_match ].

Lemma keeps_self_write_chunks env p chunks i downloaded_size :
  mframe keeps_self (write_chunks env p chunks i downloaded_size).
Proof.
  revert i downloaded_size.
  induction chunks as [|chunk rest IH]; intros i downloaded_size; simpl.
  - apply mframe_ret; apply _.
  - unfold print. repeat first [apply IH | keeps_self_step].
Qed.

Lemma keeps_self_extract_filename env url response :
  mframe keeps_self (extract_filename env url response).
Proof. intros st r st' H. by apply extract_filename_pure in H as ->. Qed.

Lemma keeps_self_get_unique_filepath filename :
  mframe keeps_self (get_unique_filepath filename).
Proof. unfold get_unique_filepath. repeat keeps_self_step. Qed.

Lemma keeps_self_validate response :
  mframe keeps_self (validate_response_headers response).
Proof. intros st r st' H. by eapply keeps_self_of_quiet, (quiet_validate ""). Qed.

Lemma keeps_self_request env url : mframe keeps_self (request env url).
Proof. intros st r st' H. by eapply keeps_self_of_quiet, quiet_request. Qed.

(** The rules of [true_or_same]. *)

Lemma true_or_same_frame (m : M bool) : mframe keeps_self m → true_or_same m.
Proof. intros Hm st r st' H. right. by eapply Hm. Qed.

Lemma true_or_same_bind {A} (m : M A) (f : A → M bool) :
  mframe keeps_self m → (∀ x, true_or_same (f x)) → true_or_same (m ≫= f).
Proof.
  intros Hm Hf st r st'. rewrite bind_run.
  destruct (m st) as [[e|x] st1] eqn:E.
  - intros [= <- <-]. right. by eapply Hm.
  - intros H. apply Hm in E. destruct (Hf x _ _ _ H) as [?|Hs]; [by left|].
    right. unfold keeps_self in E. congruence.
Qed.

Lemma true_or_same_try (m : M bool) (h : exn → M bool) :
  true_or_same m → (∀ e, mframe keeps_self (h e)) → true_or_same (try_except m h).
Proof.
  intros Hm Hh st r st'. rewrite try_except_run.
  destruct (m st) as [[e|x] st1] eqn:E.
  - intros H. right. destruct (Hm _ _ _ E) as [?|Hs]; [done|].
    apply Hh in H. unfold keeps_self in H. congruence.
  - intros [= <- <-]. by eapply Hm.
Qed.

(** Once the ledger is appended to, the call returns [True]. *)
Lemma true_or_same_save env content_hash url filepath file_size (m : message) :
  true_or_same
    (save_download_metadata env content_hash url filepath file_size ;;
     print m ;; mret true).
Proof.
  intros st r st'. rewrite bind_run.
  destruct (downloaded_hashes (self st)) as [|?|?|?|l|?] eqn:Hl;
    try (rewrite save_raises by (rewrite Hl; intros ? ?; discriminate);
         intros [= <- <-]; by right).
  rewrite (save_run _ _ _ _ _ _ l Hl). mrun. intros [= <- <-]. by left.
Qed.

Lemma true_or_same_store env url batch_mode response content_hash :
  true_or_same (store env url batch_mode response content_hash).
Proof.
  unfold store.
  apply true_or_same_bind; [apply keeps_self_extract_filename|intros filename].
  apply true_or_same_bind; [apply keeps_self_get_unique_filepath|intros filepath].
  apply true_or_same_bind;
    [unfold declared_file_size; repeat keeps_self_step|intros file_size].
  apply true_or_same_bind; [apply mframe_get_self; apply _|intros slf].
  case_match.
  { apply true_or_same_frame. unfold print. repeat keeps_self_step. }
  apply true_or_same_bind; [apply keeps_self_open_wb|intros []].
  apply true_or_same_bind; [unfold iter_content; repeat keeps_self_step|intros chunks].
  apply true_or_same_bind; [apply keeps_self_write_chunks|intros [b|]].
  { apply true_or_same_frame. apply mframe_ret; apply _. }
  apply true_or_same_bind; [apply keeps_self_getsize|intros actual_size].
  case_match.
  { apply true_or_same_frame. unfold print. repeat keeps_self_step. }
  apply true_or_same_save.
Qed.

Lemma true_or_same_download_image env url batch_mode :
  true_or_same (download_image env url batch_mode).
Proof.
  unfold download_image.
  apply true_or_same_try;
    [|intros e; unfold report, print; repeat keeps_self_step].
  apply true_or_same_bind; [apply keeps_self_request|intros [response|]].
  2: { apply true_or_same_frame. apply mframe_ret; apply _. }
  unfold check_and_store.
  apply true_or_same_bind; [apply keeps_self_validate|intros [|]]; cbn [negb].
  2: { apply true_or_same_frame. apply mframe_ret; apply _. }
  apply true_or_same_bind;
    [unfold calculate_content_hash; repeat keeps_self_step|intros content_hash].
  apply true_or_same_bind; [unfold is_duplicate; repeat keeps_self_step|intros [|]].
  { apply true_or_same_frame. unfold print. repeat keeps_self_step. }
  apply true_or_same_store.
Qed.

Lemma download_image_total env url batch_mode st :
  ∃ ok st', download_image env url batch_mode st = (inr ok, st').
Proof.
  destruct (download_image_returns env url batch_mode st) as [ok Hok].
  destruct (download_image env url batch_mode st) as [r st'] eqn:E.
  simpl in Hok. subst r. eauto.
Qed.

Lemma download_image_false_same env url batch_mode st st' :
  download_image env url batch_mode st = (inr false, st') → self st' = self st.
Proof.
  intros H. by destruct (true_or_same_download_image _ _ _ _ _ _ H).
Qed.


(** ** A ledger that is no list of records *)

(** X6.  The ledger is loaded from its file without any check of its shape.
    When the ledger in memory is not a list, or is a list one of whose
    records has no [hash] field (or is no dict), no call of [download_image]
    succeeds: each returns [False] and leaves the fetcher object as it
    was. *)
Theorem malformed_ledger_blocks_every_download env url batch_mode st :
  (∀ l, downloaded_hashes (self st) ≠ JList l) ∨
  (∃ l record e, downloaded_hashes (self st) = JList l ∧ record ∈ l ∧
                 py_getitem record "hash" = inl e) →
  ∃ st', download_image env url batch_mode st = (inr false, st') ∧
         self st' = self st.
Proof.
  intros Hbad.
  destruct (download_image_total env url batch_mode st) as ([|] & st' & Hrun).
  2: { exists st'. split; [done|]. by apply download_image_false_same in Hrun. }
  exfalso.
  apply download_image_true_inv in Hrun
    as (response & st1 & st2 & body & records & Hreq & Hval & _ & Hl & Hloop & _).
  destruct (request_validate_quiet _ _ _ _ _ _ _ Hreq Hval) as (Hs2 & _).
  rewrite Hs2 in Hl.
  destruct Hbad as [Hbad|(l & record & e & Hl' & Hin & He)]; [by destruct (Hbad records)|].
  rewrite Hl in Hl'. injection Hl' as <-.
  apply is_duplicate_loop_false_inv in Hloop.
  rewrite Forall_forall in Hloop. destruct (Hloop record Hin) as (v & Hv & _).
  congruence.
Qed.

(** A case of X6: the ledger file holds the JSON object [{}]. *)
Lemma malformed_ledger_blocks_every_download_witness :
  ∃ st',
    download_image (Sample.env Runs.cat) Runs.cat_url false
      {| self := init (<["Fetched_Images" := Dir]> {["Fetched_Images/download_metadata.json" := File "{}"]}) false;
         fs := (<["Fetched_Images" := Dir]> {["Fetched_Images/download_metadata.json" := File "{}"]});
         trace := [] |} = (inr false, st') ∧
    self st' = init (<["Fetched_Images" := Dir]> {["Fetched_Images/download_metadata.json" := File "{}"]}) false.
Proof.
  apply (malformed_ledger_blocks_every_download (Sample.env Runs.cat) Runs.cat_url false
           {| self := init (<["Fetched_Images" := Dir]> {["Fetched_Images/download_metadata.json" := File "{}"]}) false;
              fs := (<["Fetched_Images" := Dir]> {["Fetched_Images/download_metadata.json" := File "{}"]});
              trace := [] |}).
  left. intros l. vm_compute. discriminate.
Defined.

(** ** A batch of URLs *)

Lemma emits_not_makedirs_of_quiet_print m :
  mframe (emits not_makedirs) (print m).
Proof. by apply emits_emit. Qed.















(** ** An empty body *)

Lemma validate_keeps_disk response st r st' :
  validate_response_headers response st = (r, st') →
  self st' = self st ∧ fs st' = fs st.
Proof.
  intros H. split; [by apply (quiet_validate "") in H as (? & _)|].
  revert H. unfold validate_response_headers. mrun.
  destruct (_ && _); [by intros [= _ <-]|].
  destruct (match headers_get "Content-Length" _ with Some _ => _ | None => _ end);
    mrun; [by intros [= _ <-]|].
  destruct (_ && _); mrun; by intros [= _ <-].
Qed.

Lemma accepted_body_not_empty env url batch_mode st st' :
  download_image env url batch_mode st = (inr true, st') →
  ∃ response body, get_reply env = inr response ∧ content response = inr body ∧
                   body ≠ "".
Proof.
  intros Hrun.
  apply download_image_true_inv in Hrun
    as (response & st1 & st2 & body & records & Hreq & Hval & Hbody & _ & _ & Hstore).
  apply request_some_inv in Hreq as (_ & Hget & _).
  apply store_true_inv in Hstore
    as (filename & filepath & body' & l & st4 & _ & _ & _ & _ & Hbody' & _ & Hne & _).
  rewrite Hbody in Hbody'. injection Hbody' as <-. eauto.
Qed.

Lemma store_empty_body env url batch_mode response content_hash st r st' :
  content response = inr "" →
  store env url batch_mode response content_hash st = (r, st') →
  fs st' = fs st.
Proof.
  intros Hbody. unfold store. rewrite bind_run.
  destruct (extract_filename env url response st) as [[e|filename] st0] eqn:Hname;
    pose proof (extract_filename_pure _ _ _ _ _ _ Hname) as ->;
    [by intros [= <- <-]|].
  rewrite bind_run, get_unique_filepath_run.
  destruct (Starter.get_unique_filepath _ _ _) as [filepath|] eqn:Hpath;
    [|by intros [= <- <-]].
  apply get_unique_filepath_fresh, exists_false_none in Hpath.
  rewrite bind_run, declared_file_size_run.
  destruct (match headers_get _ _ with None => _ | Some _ => _ end) as [e|n];
    [by intros [= <- <-]|].
  rewrite bind_run. change (get_self st) with (@inr exn _ (self st), st).
  cbn beta iota.
  destruct (n >? max_file_size (self st)); [by mrun; intros [= <- <-]|].
  rewrite bind_run.
  destruct (open_fault env) eqn:Hopen.
  { unfold open_wb. mrun. rewrite Hpath, Hopen. by intros [= <- <-]. }
  rewrite open_wb_run by done. rewrite bind_run, iter_content_run, Hbody by lia.
  change (iter_slices (String.length "") (Z.to_nat 8192) "") with (@nil string).
  rewrite bind_run. cbn [write_chunks mret M_ret].
  rewrite bind_run, (getsize_run _ _ "") by apply lookup_insert_eq.
  rewrite bool_decide_eq_true_2 by done.
  rewrite bind_run, (remove_run _ _ "") by apply lookup_insert_eq.
  mrun. intros [= <- <-]. simpl. by rewrite delete_insert_id.
Qed.

(** X8.  A response whose body is empty is never stored: [download_image]
    returns [False], the fetcher object is unchanged, and the file system
    after the call is the one before it but for the download directory,
    which may have been created; the file opened for the body, if any, has
    been removed. *)
Theorem empty_body_leaves_nothing env url batch_mode st response :
  get_reply env = inr response →
  content response = inr "" →
  ∃ st',
    download_image env url batch_mode st = (inr false, st') ∧
    self st' = self st ∧
    (fs st' = fs st ∨ fs st' = ensure_dir (download_dir (self st)) (fs st)).
Proof.
  intros Hget Hbody.
  destruct (download_image_total env url batch_mode st) as ([|] & st' & Hrun).
  { apply accepted_body_not_empty in Hrun as (r & body & Hr & Hb & Hne).
    rewrite Hget in Hr. injection Hr as <-. rewrite Hbody in Hb. by injection Hb as <-. }
  exists st'. split; [done|]. split; [by apply download_image_false_same in Hrun|].
  revert Hrun. unfold download_image. rewrite try_except_run, bind_run.
  destruct (request env url st) as [[e|[r|]] st1] eqn:Hreq;
    pose proof (quiet_request _ _ _ _ _ Hreq) as (_ & Hf1 & _).
  { rewrite report_run. by intros [= <-]. }
  2: { mrun. by intros [= <-]. }
  apply request_some_inv in Hreq as (_ & Hr & _).
  rewrite Hget in Hr. injection Hr as <-.
  unfold check_and_store. rewrite bind_run.
  destruct (validate_response_headers response st1) as [[e|[|]] st2] eqn:Hval;
    apply validate_keeps_disk in Hval as [_ Hfs2].
  { rewrite report_run. intros [= <-]. simpl. by rewrite Hfs2. }
  2: { mrun. intros [= <-]. by rewrite Hfs2. }
  cbn [negb]. rewrite bind_run, calculate_content_hash_run, Hbody.
  rewrite bind_run, is_duplicate_run.
  destruct (match py_iter _ with inl e => _ | inr records => _ end) as [e|[|]].
  { rewrite report_run. intros [= <-]. simpl. by rewrite Hfs2. }
  { mrun. intros [= <-]. simpl. by rewrite Hfs2. }
  destruct (store _ _ _ _ _ _) as [[e|b] st4] eqn:Hstore;
    apply store_empty_body in Hstore; try done; simpl in Hstore.
  - rewrite report_run. intros [= <-]. simpl. by rewrite Hstore, Hfs2.
  - intros [= -> <-]. by rewrite Hstore, Hfs2.
Qed.

(** A case of X8: a PNG response without body. *)
Lemma empty_body_leaves_nothing_witness :
  ∃ st',
    download_image (Sample.env (Sample.png "")) Runs.cat_url false Sample.start
      = (inr false, st') ∧
    self st' = self Sample.start ∧
    (fs st' = fs Sample.start ∨
     fs st' = ensure_dir (download_dir (self Sample.start)) (fs Sample.start)).
Proof.
  apply (empty_body_leaves_nothing (Sample.env (Sample.png "")) Runs.cat_url false
           Sample.start (Sample.png "")); reflexivity.
Defined.

(** ** The ledger as a set of digests *)

Lemma py_eq_str_true v s : py_eq_str v s = true ↔ v = JStr s.
Proof.
  destruct v; simpl; try (split; [done|discriminate]).
  rewrite bool_decide_eq_true. split; congruence.
Qed.

Lemma hashes_cons record l v :
  py_getitem record "hash" = inr v → hashes (record :: l) = v :: hashes l.
Proof. intros Hv. unfold hashes. simpl. by rewrite Hv. Qed.

Lemma hashes_app l l' : hashes (l ++ l') = hashes l ++ hashes l'.
Proof. unfold hashes. apply omap_app. Qed.

Lemma is_duplicate_loop_spec l h :
  Forall (λ record, ∃ v, py_getitem record "hash" = inr v) l →
  ∃ b, is_duplicate_loop l h = inr b ∧ (b = true ↔ JStr h ∈ hashes l).
Proof.
  induction 1 as [|record l [v Hv] _ (b & IH & Hb)]; cbn [is_duplicate_loop].
  { exists false. split; [done|]. split; [done|]. by intros ?%elem_of_nil. }
  rewrite Hv, (hashes_cons _ _ _ Hv). destruct (py_eq_str v h) eqn:Heq.
  - exists true. split; [done|]. split; [|done]. intros _.
    apply py_eq_str_true in Heq as ->. left.
  - exists b. split; [done|]. rewrite Hb. split; [by right|].
    intros [E|Hin]%elem_of_cons; [|done].
    symmetry in E. apply py_eq_str_true in E. congruence.
Qed.

(** X9.  On a ledger whose records all have a [hash] field, [is_duplicate]
    is the membership test among these fields: it returns (never raises,
    changes nothing), whatever the URL given, and answers [True] exactly when
    the digest is the [hash] of some record.  [save_download_metadata] adds
    the digest it is given to these fields and nothing else, whether or not
    the ledger file could be written. *)
Theorem ledger_is_a_set_of_digests (st : state) (l : list json) :
  downloaded_hashes (self st) = JList l →
  Forall (λ record, ∃ v, py_getitem record "hash" = inr v) l →
  (∀ content_hash url,
     ∃ b, is_duplicate content_hash url st = (inr b, st) ∧
          (b = true ↔ JStr content_hash ∈ hashes l)) ∧
  (∀ env content_hash url filepath file_size,
     ∃ st1 l1,
       save_download_metadata env content_hash url filepath file_size st
         = (inr (), st1) ∧
       downloaded_hashes (self st1) = JList l1 ∧
       Forall (λ record, ∃ v, py_getitem record "hash" = inr v) l1 ∧
       hashes l1 = hashes l ++ [JStr content_hash]).
Proof.
  intros Hl Hall. split.
  - intros h url. rewrite is_duplicate_run, Hl. simpl.
    destruct (is_duplicate_loop_spec l h Hall) as (b & -> & Hb). eauto.
  - intros env h url filepath n. rewrite (save_run _ _ _ _ _ _ l Hl).
    eexists _, (l ++ [entry h url filepath n (isoformat (now_metadata env))]).
    split; [done|]. split; [by destruct (_ || _)|]. split.
    + apply Forall_app. split; [done|]. constructor; [|done]. by eexists.
    + by rewrite hashes_app.
Qed.

(** A case of X9: the ledger after the fetch of [cat]. *)
Lemma ledger_is_a_set_of_digests_witness :
  (∀ content_hash url,
     ∃ b, is_duplicate content_hash url Runs.after_cat = (inr b, Runs.after_cat) ∧
          (b = true ↔ JStr content_hash ∈ hashes [Runs.cat_entry])) ∧
  (∀ env content_hash url filepath file_size,
     ∃ st1 l1,
       save_download_metadata env content_hash url filepath file_size Runs.after_cat
         = (inr (), st1) ∧
       downloaded_hashes (self st1) = JList l1 ∧
       Forall (λ record, ∃ v, py_getitem record "hash" = inr v) l1 ∧
       hashes l1 = hashes [Runs.cat_entry] ++ [JStr content_hash]).
Proof.
  apply (ledger_is_a_set_of_digests Runs.after_cat [Runs.cat_entry]).
  - vm_compute; reflexivity.
  - constructor; [|done]. by eexists.
Defined.

(** ** The ledger across sessions *)

Lemma fetcher_eq (a b : fetcher) :
  same_config a b → downloaded_hashes a = downloaded_hashes b → a = b.
Proof.
  destruct a, b. unfold same_config. simpl. intros (-> & -> & -> & ->) ->. done.
Qed.

(** X10.  A ledger written in one session is the ledger of the next.  Take a
    fetcher with the settings [__init__] gives, whose ledger is a Python value
    (the keys of each dict distinct).  When [download_image] returns [True]
    and the ledger file could be written, a fetcher constructed afterwards on
    the same disk ([__init__], which calls [load_download_history]) is the
    very object the call has left: same settings, same ledger. *)
Theorem ledger_survives_restart env url batch_mode st st' :
  download_image env url batch_mode st = (inr true, st') →
  same_config (init ∅ false) (self st) →
  wf_json (downloaded_hashes (self st)) →
  dump_fault env = false →
  fs st !! metadata_file (self st) ≠ Some Dir →
  init (fs st') false = self st'.
Proof.
  intros Hrun Hconf Hwf Hdump Hmf.
  pose proof Hconf as (Hd & Hm & _).
  apply download_image_true_inv in Hrun
    as (response & st1 & st2 & body & records & Hreq & Hval & Hbody & Hl & _ & Hstore).
  destruct (request_validate_quiet _ _ _ _ _ _ _ Hreq Hval) as (Hs2 & Hf2 & _).
  apply store_true_inv in Hstore
    as (filename & filepath & body' & l & st4 & _ & _ & _ & _ & _ & _ & _ & Hl'
        & _ & Hf4 & Hst').
  simpl in Hl', Hf4, Hst'. cbv zeta in Hst'.
  rewrite Hl in Hl'. injection Hl' as <-. rewrite Hs2 in Hl, Hst'.
  assert (isdir (fs st4) (metadata_file (self st)) = false) as Hdir.
  { unfold isdir. rewrite Hf4.
    destruct (decide (metadata_file (self st) = filepath)) as [<-|Hne].
    { by rewrite lookup_insert_eq. }
    rewrite lookup_insert_ne by done.
    destruct Hf2 as [->| ->].
    - by destruct (fs st !! metadata_file (self st)) as [[?|]|].
    - rewrite ensure_dir_other by (rewrite <-Hm, <-Hd; vm_compute; discriminate).
      by destruct (fs st !! metadata_file (self st)) as [[?|]|]. }
  rewrite Hdump, Hdir in Hst'. cbn [orb] in Hst'. subst st'. cbn [self fs].
  apply fetcher_eq.
  - etrans; [exact Hconf|]. by destruct (self st).
  - cbn [init downloaded_hashes with_ledger].
    change (OsPath.join "Fetched_Images" "download_metadata.json")
      with (metadata_file (init ∅ false)).
    rewrite Hm. apply load_written.
    rewrite Hl in Hwf. apply wf_json_list in Hwf. apply wf_json_list, Forall_app.
    split; [done|]. constructor; [|done]. apply entry_shape_wf.
    unfold entry_shape, entry. eauto 10.
Qed.

(** A case of X10: the first fetch on a fresh directory. *)
Lemma ledger_survives_restart_witness :
  init (fs Runs.after_cat) false = self Runs.after_cat.
Proof.
  apply (ledger_survives_restart (Sample.env Runs.cat) Runs.cat_url false
           Sample.start Runs.after_cat).
  - vm_compute; reflexivity.
  - reflexivity.
  - exact I.
  - reflexivity.
  - intros H. vm_compute in H. discriminate.
Defined.

(** ** The content type a response declares *)

Lemma rev_app_rev_app (a b c : string) :
  String.rev_app (String.rev_app a b) c = String.rev_app b (a +:+ c).
Proof.
  revert b. induction a as [|x a IH]; intros b; [done|]. simpl. by rewrite IH.
Qed.

Lemma rev_rev_app (a : string) : String.rev (String.rev_app a "") = a.
Proof. unfold String.rev. rewrite rev_app_rev_app. simpl. apply str_app_nil_r. Qed.

Lemma lower_app (a b : string) : Py.lower (a +:+ b) = Py.lower a +:+ Py.lower b.
Proof. induction a as [|x a IH]; [done|]. simpl. by rewrite IH. Qed.

Lemma lower_char_semicolon (c : ascii) :
  Py.lower_char c = ";"%char → c = ";"%char.
Proof. destruct c as [[] [] [] [] [] [] [] []]; vm_compute; congruence. Qed.

Lemma mem_char_lower_semicolon (s : string) :
  Py.mem_char ";" s = false → Py.mem_char ";" (Py.lower s) = false.
Proof.
  induction s as [|x s IH]; [done|]. simpl.
  destruct (decide (x = ";"%char)); [done|]. intros Hs.
  destruct (decide (Py.lower_char x = ";"%char)) as [E|_]; [|by apply IH].
  by apply lower_char_semicolon in E.
Qed.

Lemma split_go_prefix (c : ascii) (cur a rest : string) :
  Py.mem_char c a = false →
  Py.split_go (String c "") 0 cur (a +:+ rest) =
  Py.split_go (String c "") 0 (String.rev_app a cur) rest.
Proof.
  revert cur. induction a as [|x a IH]; intros cur; [done|].
  rewrite str_app_cons. simpl.
  destruct (decide (x = c)) as [->|Hne]; [done|]. intros Ha.
  destruct (decide (c = x)) as [->|_]; [done|]. by apply IH.
Qed.

(** The first piece of [s.split(c)] when [s] is [a] followed by nothing or by
    [c] and more. *)
Lemma split_first_piece (c : ascii) (a rest : string) :
  Py.mem_char c a = false →
  rest = "" ∨ Py.startswith (String c "") rest = true →
  nth 0 (Py.split (String c "") (a +:+ rest)) "" = a.
Proof.
  intros Ha Hrest. unfold Py.split. rewrite split_go_prefix by done.
  destruct Hrest as [->|Hrest].
  - simpl. apply rev_rev_app.
  - destruct rest as [|x rest]; [done|]. cbn [Py.split_go]. rewrite Hrest.
    simpl. apply rev_rev_app.
Qed.

Lemma declared_content_type_lower response t params :
  headers_get "Content-Type" (headers response) = Some (t +:+ params) →
  Py.mem_char ";" t = false →
  params = "" ∨ Py.startswith ";" params = true →
  declared_content_type response = Py.lower t.
Proof.
  intros Hh Ht Hp. unfold declared_content_type. rewrite Hh. simpl default.
  unfold id.
  rewrite lower_app. apply split_first_piece; [by apply mem_char_lower_semicolon|].
  destruct Hp as [->|Hp]; [by left|]. right.
  destruct params as [|x params]; [done|]. simpl in Hp |- *.
  destruct (decide (";"%char = x)) as [<-|]; [|done]. done.
Qed.

(** X11.  The check of the content type looks at the declared type only up to
    the first semicolon and without regard to letter case: for a
    [Content-Type] header [t] or [t;parameters], [validate_response_headers]
    tests [t.lower()].  It returns (never raises); it accepts only if
    [t.lower()] is empty or one of the allowed types, and, when no
    [Content-Length] is declared, it accepts whenever that holds. *)
Theorem content_type_check_ignores_case_and_parameters response t params st :
  headers_get "Content-Type" (headers response) = Some (t +:+ params) →
  Py.mem_char ";" t = false →
  params = "" ∨ Py.startswith ";" params = true →
  declared_content_type response = Py.lower t ∧
  ∃ b st',
    validate_response_headers response st = (inr b, st') ∧
    (b = true →
     Py.lower t = "" ∨ Py.lower t ∈ allowed_content_types (self st)) ∧
    (headers_get "Content-Length" (headers response) = None →
     Py.lower t = "" ∨ Py.lower t ∈ allowed_content_types (self st) →
     b = true).
Proof.
  intros Hh Ht Hp.
  pose proof (declared_content_type_lower response t params Hh Ht Hp) as Hct.
  split; [done|]. unfold validate_response_headers. mrun. rewrite Hct.
  unfold Py.in_tuple.
  destruct (bool_decide (Py.lower t = "")) eqn:He; cbn [negb andb].
  - apply bool_decide_eq_true in He.
    destruct (match headers_get "Content-Length" _ with Some _ => _ | None => _ end)
      eqn:Hlen; mrun.
    + eexists false, _. split; [done|]. split; [done|]. intros Hnone.
      by rewrite Hnone in Hlen.
    + destruct (_ && _); mrun; eexists true, _; (split; [done|]); auto.
  - apply bool_decide_eq_false in He.
    destruct (bool_decide (Py.lower t ∈ allowed_content_types (self st))) eqn:Hin;
      cbn [negb].
    + apply bool_decide_eq_true in Hin.
      destruct (match headers_get "Content-Length" _ with Some _ => _ | None => _ end)
        eqn:Hlen; mrun.
      * eexists false, _. split; [done|]. split; [done|]. intros Hnone.
        by rewrite Hnone in Hlen.
      * destruct (_ && _); mrun; eexists true, _; (split; [done|]); auto.
    + apply bool_decide_eq_false in Hin. mrun.
      eexists false, _. split; [done|]. split; [done|]. intros _ [?|?]; done.
Qed.

(** A case of X11: [IMAGE/PNG; charset=binary] is taken as [image/png]. *)
Lemma content_type_check_ignores_case_and_parameters_witness :
  declared_content_type
    (Sample.response [("Content-Type", "IMAGE/PNG; charset=binary")] "abc")
  = Py.lower "IMAGE/PNG" ∧
  ∃ b st',
    validate_response_headers
      (Sample.response [("Content-Type", "IMAGE/PNG; charset=binary")] "abc")
      Sample.start = (inr b, st') ∧
    (b = true →
     Py.lower "IMAGE/PNG" = "" ∨
     Py.lower "IMAGE/PNG" ∈ allowed_content_types (self Sample.start)) ∧
    (headers_get "Content-Length"
       (headers (Sample.response [("Content-Type", "IMAGE/PNG; charset=binary")] "abc"))
     = None →
     Py.lower "IMAGE/PNG" = "" ∨
     Py.lower "IMAGE/PNG" ∈ allowed_content_types (self Sample.start) →
     b = true).
Proof.
  apply (content_type_check_ignores_case_and_parameters
           (Sample.response [("Content-Type", "IMAGE/PNG; charset=binary")] "abc")
           "IMAGE/PNG" "; charset=binary" Sample.start).
  - reflexivity.
  - reflexivity.
  - right. reflexivity.
Defined.

(** ** The text of the ledger file *)

Lemma json_ind_nested (P : json → Prop) :
  P JNull → (∀ b, P (JBool b)) → (∀ n, P (JInt n)) → (∀ s, P (JStr s)) →
  (∀ l, Forall P l → P (JList l)) →
  (∀ d, Forall (λ kv, P kv.2) d → P (JDict d)) →
  ∀ v, P v.
Proof.
  intros Hnull Hbool Hint Hstr Hlist Hdict. fix IH 1.
  intros [|b|n|s|l|d]; [exact Hnull|apply Hbool|apply Hint|apply Hstr| |].
  - apply Hlist.
    refine ((fix go (l : list json) : Forall P l :=
               match l with
               | [] => List.Forall_nil _
               | x :: l' => List.Forall_cons _ x l' (IH x) (go l')
               end) l).
  - apply Hdict.
    refine ((fix go (d : list (string * json)) : Forall (λ kv, P kv.2) d :=
               match d with
               | [] => List.Forall_nil _
               | kv :: d' => List.Forall_cons _ kv d' (IH kv.2) (go d')
               end) d).
Qed.

Lemma escape_char_plain (c : ascii) :
  Py.all_chars plain_ascii (escape_char c) = true.
Proof. destruct c as [[] [] [] [] [] [] [] []]; reflexivity. Qed.

Lemma encode_string_plain (s : string) :
  Py.all_chars plain_ascii (encode_string s) = true.
Proof.
  unfold encode_string. cbn [Py.all_chars]. rewrite all_chars_app.
  replace (Py.all_chars plain_ascii (escape s)) with true; [done|].
  induction s as [|c s IH]; [done|]. simpl.
  by rewrite all_chars_app, escape_char_plain, <-IH.
Qed.

Lemma spaces_plain (n : nat) : Py.all_chars plain_ascii (spaces n) = true.
Proof. induction n as [|n IH]; [done|]. exact IH. Qed.

Lemma newline_indent_plain (level : nat) :
  Py.all_chars plain_ascii (newline_indent level) = true.
Proof. unfold newline_indent. cbn [Py.all_chars]. apply spaces_plain. Qed.

Lemma str_plain (n : Z) : Py.all_chars plain_ascii (Py.str n) = true.
Proof.
  assert (∀ x : N, Py.all_chars plain_ascii (pretty x) = true) as HN.
  { intros x. eapply all_chars_impl, pretty_N_digits.
    intros c. unfold Py.is_digit, plain_ascii.
    intros [H1%Nat.leb_le H2%Nat.leb_le]%andb_true_iff.
    apply orb_true_iff. left. apply andb_true_iff.
    split; apply Nat.leb_le; lia. }
  destruct n as [|p|p]; [done|apply (HN (Npos p))|].
  change (Py.str (Z.neg p)) with ("-" +:+ pretty (Npos p)).
  rewrite all_chars_app. by rewrite HN.
Qed.

Lemma encode_plain (v : json) (level : nat) :
  Py.all_chars plain_ascii (encode level v) = true.
Proof.
  revert level. induction v as [|[]|n|s|l IH|d IH] using json_ind_nested;
    intros level; try done.
  - apply str_plain.
  - apply encode_string_plain.
  - destruct l as [|x xs]; [done|]. rewrite encode_list.
    apply Forall_cons in IH as [Hx Hxs].
    rewrite !all_chars_app, newline_indent_plain, Hx. cbn [Py.all_chars andb].
    change (plain_ascii "[") with true. cbn [andb].
    induction Hxs as [|y ys Hy _ IHys]; cbn [list_rest].
    + by rewrite all_chars_app, newline_indent_plain.
    + by rewrite !all_chars_app, newline_indent_plain, Hy, IHys.
  - destruct d as [|[k x] kvs]; [done|]. rewrite encode_dict.
    apply Forall_cons in IH as [Hx Hkvs]. simpl in Hx.
    rewrite !all_chars_app, newline_indent_plain, encode_string_plain, Hx.
    change (Py.all_chars plain_ascii "{") with true.
    change (Py.all_chars plain_ascii ": ") with true. cbn [andb].
    induction Hkvs as [|[k' y] ys Hy _ IHys]; cbn [dict_rest].
    + by rewrite all_chars_app, newline_indent_plain.
    + simpl in Hy.
      by rewrite !all_chars_app, newline_indent_plain, encode_string_plain, Hy, IHys.
Qed.

(** X12.  The text written to the ledger file is plain ASCII whatever the
    ledger holds: every character of [json.dumps(ledger, indent=2)] is a
    printable ASCII character or a line feed, so that the file reads back the
    same under any encoding that extends ASCII. *)
Theorem ledger_file_is_plain_ascii (v : json) :
  Py.all_chars plain_ascii (dumps v) = true.
Proof. apply encode_plain. Qed.

(** X13.  Writing and reading back any value.  For every JSON value whose
    dicts have distinct keys (every Python value made of [None], booleans,
    integers, strings, lists and dicts with string keys), [json.loads] of the
    text [json.dumps(v, indent=2)] is [v] again, with the same order of the
    keys; hence two such values with the same text are equal. *)
Theorem json_text_is_read_back (v : json) :
  wf_json v →
  loads (dumps v) = Some v ∧
  ∀ w, wf_json w → dumps w = dumps v → w = v.
Proof.
  intros Hv. split; [by apply loads_dumps|].
  intros w Hw Heq. apply loads_dumps in Hv, Hw. congruence.
Qed.

(** A case of X13: a nested value with a negative number and an escape. *)
Lemma json_text_is_read_back_witness :
  loads (dumps (JList [JDict [("a", JList [JInt (-3); JNull]); ("b", JBool true)];
                       JStr (String "010" "x")]))
  = Some (JList [JDict [("a", JList [JInt (-3); JNull]); ("b", JBool true)];
                 JStr (String "010" "x")]) ∧
  ∀ w, wf_json w →
       dumps w = dumps (JList [JDict [("a", JList [JInt (-3); JNull]); ("b", JBool true)];
                               JStr (String "010" "x")]) →
       w = JList [JDict [("a", JList [JInt (-3); JNull]); ("b", JBool true)];
                  JStr (String "010" "x")].
Proof.
  apply (json_text_is_read_back
           (JList [JDict [("a", JList [JInt (-3); JNull]); ("b", JBool true)];
                   JStr (String "010" "x")])).
  simpl. repeat split; try done.
  apply (bool_decide_unpack _). vm_compute. reflexivity.
Defined.

(** ** The size of a file as shown *)

Import FileSize.

Lemma truediv_pow2_exact (n k : Z) :
  n < 2 ^ 53 → truediv_pow2 n k = Some (n, - k).
Proof.
  intros Hn. unfold truediv_pow2.
  assert (Z.log2 n < 53) as Hlog.
  { destruct (decide (0 < n)) as [Hpos|Hneg].
    - by apply Z.log2_lt_pow2.
    - rewrite Z.log2_nonpos by lia. lia. }
  cbv zeta. by rewrite (proj2 (Z.leb_le _ _)) by lia.
Qed.

Lemma tenths_nearest (m k : Z) :
  0 < k → 0 ≤ m →
  2 * Z.abs (10 * m - tenths m (- k) * 2 ^ k) ≤ 2 ^ k ∧
  (10 * m) / 2 ^ k ≤ tenths m (- k) ≤ (10 * m) / 2 ^ k + 1.
Proof.
  intros Hk Hm. unfold tenths.
  rewrite (proj2 (Z.leb_gt _ _)) by lia. rewrite Z.opp_involutive. cbv zeta.
  assert (0 < 2 ^ k) as Hd by (apply Z.pow_pos_nonneg; lia).
  pose proof (Z.div_mod (10 * m) (2 ^ k) ltac:(lia)) as Hdm.
  pose proof (Z.mod_pos_bound (10 * m) (2 ^ k) Hd) as Hr.
  set (d := 2 ^ k) in *. set (q := 10 * m / d) in *. set (r := (10 * m) mod d) in *.
  destruct ((d <? 2 * r) || ((2 * r =? d) && Z.odd q)) eqn:Hup.
  - assert (d ≤ 2 * r) as Hge.
    { apply orb_true_iff in Hup as [H%Z.ltb_lt|[H%Z.eqb_eq _]%andb_true_iff]; lia. }
    split; [|lia]. replace (10 * m - (q + 1) * d) with (r - d) by lia. lia.
  - apply orb_false_iff in Hup as [H%Z.ltb_ge _].
    split; [|lia]. replace (10 * m - q * d) with r by lia. lia.
Qed.

Lemma scaled_exact (n k : Z) (unit : string) :
  n < 2 ^ 53 →
  scaled n k unit =
  Some (Py.str (tenths n (- k) / 10) +:+ "." +:+ Py.str (tenths n (- k) mod 10) +:+ unit).
Proof.
  intros Hn. unfold scaled. rewrite truediv_pow2_exact by done. simpl.
  unfold format_1f. by rewrite !str_app_assoc.
Qed.

Lemma format_file_size_scaled (n : Z) :
  1024 ≤ n → n < 2 ^ 53 →
  format_file_size n =
  Some (Py.str (tenths n (- (unit_of n).1) / 10) +:+ "." +:+
        Py.str (tenths n (- (unit_of n).1) mod 10) +:+ (unit_of n).2).
Proof.
  intros Hlo Hhi. unfold format_file_size, unit_of.
  rewrite (proj2 (Z.ltb_ge _ _)) by lia.
  destruct (n <? 1024 ^ 2); [by apply scaled_exact|].
  destruct (n <? 1024 ^ 3); by apply scaled_exact.
Qed.

(** X14.  [format_file_size] shows a size below 1024 (a negative one
    included) as the integer itself followed by [ bytes].  A size from 1024
    up to [2**53] is shown in KB, MB or GB with one digit after the point,
    and the number shown is the multiple of one tenth nearest to the exact
    quotient (at most 0.05 unit away) and at least 1.0; in KB and in MB it
    can reach 1024.0. *)
Theorem file_size_is_shown_to_the_nearest_tenth (n : Z) :
  n < 2 ^ 53 →
  (n < 1024 → format_file_size n = Some (Py.str n +:+ " bytes")) ∧
  (1024 ≤ n →
   ∃ t,
     format_file_size n =
       Some (Py.str (t / 10) +:+ "." +:+ Py.str (t mod 10) +:+ (unit_of n).2) ∧
     2 * Z.abs (10 * n - t * 2 ^ (unit_of n).1) ≤ 2 ^ (unit_of n).1 ∧
     10 ≤ t ∧
     (n < 1024 ^ 3 → t ≤ 10240)).
Proof.
  intros Hhi. split.
  - intros Hlo. unfold format_file_size. by rewrite (proj2 (Z.ltb_lt _ _)).
  - intros Hlo. exists (tenths n (- (unit_of n).1)).
    split; [by apply format_file_size_scaled|].
    assert (0 < (unit_of n).1 ∧ 2 ^ (unit_of n).1 ≤ n ∧
            (n < 1024 ^ 3 → n < 1024 * 2 ^ (unit_of n).1)) as (Hk & Hunit & Hup).
    { unfold unit_of. destruct (n <? 1024 ^ 2) eqn:H2; [apply Z.ltb_lt in H2|apply Z.ltb_ge in H2].
      { simpl. lia. }
      destruct (n <? 1024 ^ 3) eqn:H3; [apply Z.ltb_lt in H3|apply Z.ltb_ge in H3];
        simpl; lia. }
    destruct (tenths_nearest n (unit_of n).1 Hk ltac:(lia)) as (Hnear & Hq1 & Hq2).
    split; [done|].
    assert (0 < 2 ^ (unit_of n).1) as Hd by (apply Z.pow_pos_nonneg; lia).
    split.
    + etrans; [|exact Hq1]. apply Z.div_le_lower_bound; lia.
    + intros H3. specialize (Hup H3).
      assert (10 * n / 2 ^ (unit_of n).1 < 10240); [|lia].
      apply Z.div_lt_upper_bound; lia.
Qed.

(** A case of X14: 1280 bytes are 1.25 KB, shown as [1.2 KB] (ties go to the
    even digit). *)
Lemma file_size_is_shown_to_the_nearest_tenth_witness :
  (1280 < 1024 → format_file_size 1280 = Some (Py.str 1280 +:+ " bytes")) ∧
  (1024 ≤ 1280 →
   ∃ t,
     format_file_size 1280 =
       Some (Py.str (t / 10) +:+ "." +:+ Py.str (t mod 10) +:+ (unit_of 1280).2) ∧
     2 * Z.abs (10 * 1280 - t * 2 ^ (unit_of 1280).1) ≤ 2 ^ (unit_of 1280).1 ∧
     10 ≤ t ∧
     (1280 < 1024 ^ 3 → t ≤ 10240)).
Proof.
  apply (file_size_is_shown_to_the_nearest_tenth 1280). lia.
Defined.

(** X15.  The unit is chosen from the size, not from the number shown: the
    51 sizes just below one MB are shown as [1024.0 KB], and the 52429 sizes
    just below one GB as [1024.0 MB]. *)
Theorem file_size_rolls_over_late (n : Z) :
  (1048525 ≤ n < 1048576 → format_file_size n = Some "1024.0 KB") ∧
  (1073689397 ≤ n < 1073741824 → format_file_size n = Some "1024.0 MB").
Proof.
  split; intros Hn.
  - rewrite format_file_size_scaled by lia.
    assert (unit_of n = (10, " KB")) as ->.
    { unfold unit_of. by rewrite (proj2 (Z.ltb_lt _ _)) by lia. }
    cbn [fst snd].
    destruct (tenths_nearest n 10 ltac:(lia) ltac:(lia)) as (Hnear & _).
    assert (tenths n (Z.opp 10) = 10240) as ->; [|reflexivity].
    change (2 ^ 10) with 1024 in Hnear. lia.
  - rewrite format_file_size_scaled by lia.
    assert (unit_of n = (20, " MB")) as ->.
    { unfold unit_of. rewrite (proj2 (Z.ltb_ge _ _)) by lia.
      by rewrite (proj2 (Z.ltb_lt _ _)) by lia. }
    cbn [fst snd].
    destruct (tenths_nearest n 20 ltac:(lia) ltac:(lia)) as (Hnear & _).
    assert (tenths n (Z.opp 20) = 10240) as ->; [|reflexivity].
    change (2 ^ 20) with 1048576 in Hnear. lia.
Qed.

(** A case of X15: one byte less than one MB. *)
Lemma file_size_rolls_over_late_witness :
  format_file_size 1048575 = Some "1024.0 KB".
Proof.
  apply (proj1 (file_size_rolls_over_late 1048575)). lia.
Defined.

(** ** The interactive part *)

Import Ui.

Arguments download_image : simpl never.
Arguments process_urls : simpl never.
Arguments strip : simpl never.

Lemma ui_bind_run {A B} (m : UiM A) (f : A → UiM B) (s : session) :
  (m ≫= f) s =
  match m s with
  | (inr x, s') => f x s'
  | (inl e, s') => (inl e, s')
  end.
Proof. reflexivity. Qed.

Lemma session_eta (s : session) :
  {| core := core s; stdin := stdin s; fetched := fetched s; console := console s |} = s.
Proof. by destruct s. Qed.

(** The loop that reads the URLs stops at the first blank line. *)
Lemma ask_urls_reads fuel urls s lines blank rest :
  stdin s = lines ++ blank :: rest →
  Forall (λ line, strip line ≠ "") lines →
  strip blank = "" →
  (length lines < fuel)%nat →
  ask_urls fuel urls s =
  (inr (urls ++ map strip lines),
   {| core := core s; stdin := rest; fetched := fetched s;
      console := console s ++ typed (length urls) (lines ++ [blank]) |}).
Proof.
  revert urls s lines. induction fuel as [|fuel IH]; intros urls s lines Hin Hall Hblank Hfuel;
    [lia|].
  cbn [ask_urls]. rewrite ui_bind_run. unfold input. rewrite Hin.
  destruct lines as [|line lines]; cbn [app].
  - rewrite Hblank. rewrite bool_decide_eq_true_2 by done.
    cbn [map typed]. by rewrite app_nil_r.
  - apply Forall_cons in Hall as [Hline Hall].
    rewrite bool_decide_eq_false_2 by done.
    rewrite (IH (urls ++ [strip line])
               {| core := core s; stdin := lines ++ blank :: rest; fetched := fetched s;
                  console := console s ++ [UiInput (PromptUrl (length urls + 1)) line] |}
               lines) by (try done; simpl in Hfuel; lia).
    cbn [core stdin fetched console map typed]. rewrite length_app. cbn [length].
    replace (length urls + 1)%nat with (S (length urls)) at 2 by lia.
    by rewrite <-!app_assoc.
Qed.

(** Without a blank line, the loop ends on [EOFError]. *)
Lemma ask_urls_eof fuel urls s :
  Forall (λ line, strip line ≠ "") (stdin s) →
  (length (stdin s) < fuel)%nat →
  ∃ evs,
    ask_urls fuel urls s =
    (inl EOFError,
     {| core := core s; stdin := []; fetched := fetched s;
        console := console s ++ evs |}) ∧
    Forall (λ e, ∀ x, e ≠ UiFetch x) evs.
Proof.
  revert urls s. induction fuel as [|fuel IH]; intros urls s Hall Hfuel; [lia|].
  cbn [ask_urls]. rewrite ui_bind_run. unfold input.
  destruct (stdin s) as [|line lines] eqn:Hin.
  - exists [UiEof (PromptUrl (length urls + 1))]. split; [done|].
    constructor; [done|constructor].
  - apply Forall_cons in Hall as [Hline Hall].
    rewrite bool_decide_eq_false_2 by done.
    edestruct (IH (urls ++ [strip line])
                 {| core := core s; stdin := lines; fetched := fetched s;
                    console := console s ++ [UiInput (PromptUrl (length urls + 1)) line] |})
      as (evs & Hrun & Hevs); [done|simpl in *; lia|].
    rewrite Hrun. cbn [core stdin fetched console].
    exists (UiInput (PromptUrl (length urls + 1)) line :: evs). split.
    + by rewrite <-app_assoc.
    + constructor; [done|done].
Qed.

(** The [for] loop acts on the fetcher as [process_urls] does. *)
Lemma process_core world total i urls successful s :
  ∃ n st' evs,
    process_urls (calls_from world (fetched s) urls) successful (core s) = (inr n, st') ∧
    process world total i urls successful s =
    (inr n,
     {| core := st'; stdin := stdin s; fetched := (fetched s + length urls)%nat;
        console := console s ++ evs |}).
Proof.
  revert i successful s. induction urls as [|url rest IH]; intros i k s.
  - exists k, (core s), []. split; [done|]. cbn [process length].
    unfold mret, UiM_ret. by rewrite Nat.add_0_r, app_nil_r, session_eta.
  - cbn [calls_from process]. unfold process_urls; fold process_urls.
    rewrite bind_run.
    destruct (download_image_total (world (fetched s)) url true (core s))
      as (ok & st1 & Hrun).
    rewrite Hrun. rewrite ui_bind_run. unfold ui_print, show.
    rewrite ui_bind_run. unfold fetch. cbn [core stdin fetched console].
    rewrite Hrun.
    edestruct (IH (S i) (if ok then S k else k)
                 {| core := st1; stdin := stdin s; fetched := S (fetched s);
                    console := (console s ++ [UiPrint (MsgProcessing i total url)]) ++
                               map UiFetch (List.skipn (length (trace (core s))) (trace st1)) |})
      as (n & st' & evs & Hrest & Hproc).
    cbn [core stdin fetched console] in Hrest, Hproc.
    exists n, st'. eexists. split; [exact Hrest|]. rewrite Hproc.
    f_equal. f_equal; [cbn [length]; lia|]. rewrite <-!app_assoc. reflexivity.
Qed.

(** X16.  [multiple_urls_mode] reads first and fetches afterwards.  When the
    input holds lines that are not blank, then a blank line, the URLs are
    these lines stripped of surrounding white space; the lines after the
    blank one are left unread; the fetcher and its disk end as the loop
    [process_urls] leaves them on these URLs, in their order, each with its
    own call of [download_image]; and the summary gives the number of calls
    that returned [True] out of the number of URLs.  When the blank line
    comes first, nothing is fetched. *)
Theorem multiple_urls_mode_reads_then_fetches world s lines blank rest :
  stdin s = lines ++ blank :: rest →
  Forall (λ line, strip line ≠ "") lines →
  strip blank = "" →
  ∃ n st' evs,
    process_urls (calls_from world (fetched s) (map strip lines)) 0 (core s)
      = (inr n, st') ∧
    multiple_urls_mode world s =
    (inr (),
     {| core := st'; stdin := rest; fetched := (fetched s + length lines)%nat;
        console := console s ++ UiPrint MsgEnterUrls :: typed 0 (lines ++ [blank]) ++ evs |}) ∧
    (lines = [] → evs = [UiPrint MsgNoUrls] ∧ st' = core s) ∧
    (lines ≠ [] →
     ∃ evs0, evs = UiPrint (MsgProcessingCount (length lines)) :: evs0 ++
                   [UiPrint (MsgSummary n (length lines)); UiPrint MsgCommunity]).
Proof.
  intros Hin Hall Hblank. unfold multiple_urls_mode.
  rewrite ui_bind_run. unfold ui_print at 1, show at 1. rewrite ui_bind_run.
  cbn [stdin]. rewrite Hin.
  rewrite (ask_urls_reads (S (length (lines ++ blank :: rest))) []
             {| core := core s; stdin := lines ++ blank :: rest; fetched := fetched s;
                console := console s ++ [UiPrint MsgEnterUrls] |} lines blank rest)
    by (try done; rewrite length_app; simpl; lia).
  cbn [core stdin fetched console app length].
  destruct lines as [|line lines].
  - cbn [map]. rewrite bool_decide_eq_true_2 by done.
    exists 0%nat, (core s), [UiPrint MsgNoUrls]. split; [done|]. split.
    + unfold ui_print, show. cbn [core stdin fetched console length].
      rewrite Nat.add_0_r. f_equal. f_equal. by rewrite <-!app_assoc.
    + split; [done|]. by intros [].
  - rewrite bool_decide_eq_false_2 by done.
    rewrite ui_bind_run. unfold ui_print at 1, show at 1. rewrite ui_bind_run.
    edestruct (process_core world (length (map strip (line :: lines))) 1
                 (map strip (line :: lines)) 0) as (n & st' & evs2 & Hcore & Hproc).
    rewrite Hproc. cbn [core stdin fetched console] in Hcore |- *.
    exists n, st'. eexists. split; [exact Hcore|]. split.
    + rewrite ui_bind_run. unfold ui_print, show. cbn [core stdin fetched console].
      rewrite !length_map. f_equal. f_equal. rewrite <-!app_assoc. cbn [app].
      reflexivity.
    + split; [done|]. intros _. by exists evs2.
Qed.

(** A case of X16: two URLs, then a blank line, then a line that stays. *)
Lemma multiple_urls_mode_reads_then_fetches_witness :
  ∃ n st' evs,
    process_urls
      (calls_from (λ _, Sample.env Runs.cat) 0
         (map strip [" https://example.com/cat.png "; "ftp://x/y.png"])) 0 Sample.start
      = (inr n, st') ∧
    multiple_urls_mode (λ _, Sample.env Runs.cat)
      {| core := Sample.start;
         stdin := [" https://example.com/cat.png "; "ftp://x/y.png"] ++ " " :: ["later"];
         fetched := 0; console := [] |} =
    (inr (),
     {| core := st'; stdin := ["later"];
        fetched := (0 + length [" https://example.com/cat.png "; "ftp://x/y.png"])%nat;
        console := [] ++ UiPrint MsgEnterUrls ::
                   typed 0 ([" https://example.com/cat.png "; "ftp://x/y.png"] ++ [" "]) ++
                   evs |}) ∧
    ([" https://example.com/cat.png "; "ftp://x/y.png"] = [] →
     evs = [UiPrint MsgNoUrls] ∧ st' = Sample.start) ∧
    ([" https://example.com/cat.png "; "ftp://x/y.png"] ≠ [] →
     ∃ evs0, evs = UiPrint (MsgProcessingCount
                              (length [" https://example.com/cat.png "; "ftp://x/y.png"])) ::
                   evs0 ++
                   [UiPrint (MsgSummary n
                               (length [" https://example.com/cat.png "; "ftp://x/y.png"]));
                    UiPrint MsgCommunity]).
Proof.
  apply (multiple_urls_mode_reads_then_fetches (λ _, Sample.env Runs.cat)
           {| core := Sample.start;
              stdin := [" https://example.com/cat.png "; "ftp://x/y.png"] ++ " " :: ["later"];
              fetched := 0; console := [] |}
           [" https://example.com/cat.png "; "ftp://x/y.png"] " " ["later"]).
  - reflexivity.
  - repeat constructor; vm_compute; discriminate.
  - vm_compute; reflexivity.
Defined.

(** X17.  Without a blank line in the input, [multiple_urls_mode] fetches
    nothing: it reads every line, meets the end of the input, and raises
    [EOFError] before any call of [download_image]; the fetcher and its disk
    are untouched. *)
Theorem multiple_urls_mode_needs_a_blank_line world s :
  Forall (λ line, strip line ≠ "") (stdin s) →
  ∃ evs,
    multiple_urls_mode world s =
    (inl EOFError,
     {| core := core s; stdin := []; fetched := fetched s;
        console := console s ++ evs |}) ∧
    Forall (λ e, ∀ x, e ≠ UiFetch x) evs.
Proof.
  intros Hall. unfold multiple_urls_mode.
  rewrite ui_bind_run. unfold ui_print at 1, show at 1. rewrite ui_bind_run.
  cbn [stdin].
  edestruct (ask_urls_eof (S (length (stdin s))) []
               {| core := core s; stdin := stdin s; fetched := fetched s;
                  console := console s ++ [UiPrint MsgEnterUrls] |})
    as (evs & Hask & Hevs); [done|simpl; lia|].
  rewrite Hask. cbn [core stdin fetched console].
  exists (UiPrint MsgEnterUrls :: evs). split; [by rewrite <-app_assoc|].
  constructor; [done|done].
Qed.

(** A case of X17: two URLs and the end of the input. *)
Lemma multiple_urls_mode_needs_a_blank_line_witness :
  ∃ evs,
    multiple_urls_mode (λ _, Sample.env Runs.cat)
      {| core := Sample.start; stdin := ["https://example.com/cat.png"; "b"];
         fetched := 0; console := [] |} =
    (inl EOFError,
     {| core := Sample.start; stdin := []; fetched := 0; console := [] ++ evs |}) ∧
    Forall (λ e, ∀ x, e ≠ UiFetch x) evs.
Proof.
  apply (multiple_urls_mode_needs_a_blank_line (λ _, Sample.env Runs.cat)
           {| core := Sample.start; stdin := ["https://example.com/cat.png"; "b"];
              fetched := 0; console := [] |}).
  repeat constructor; vm_compute; discriminate.
Defined.

Lemma main_run world s choice rest :
  stdin s = choice :: rest →
  main world s =
  let s1 := {| core := core s; stdin := rest; fetched := fetched s;
               console := console s ++
                 [UiPrint MsgWelcome; UiPrint MsgTool; UiPrint MsgBuilt;
                  UiPrint MsgChoose; UiPrint MsgOptionSingle; UiPrint MsgOptionMultiple;
                  UiInput PromptChoice choice] |} in
  if bool_decide (strip choice = "1") then single_url_mode world s1
  else if bool_decide (strip choice = "2") then multiple_urls_mode world s1
  else ui_print MsgInvalidChoice s1.
Proof.
  intros Hin. unfold main, get_mode_choice, ui_print, show, input.
  unfold mbind, mret, UiM_bind, UiM_ret. cbn [core stdin fetched console].
  rewrite Hin. cbv zeta. rewrite <-!app_assoc.
  destruct (bool_decide (strip choice = "1")); [reflexivity|].
  destruct (bool_decide (strip choice = "2")); [reflexivity|].
  cbn [core stdin fetched console app]. by rewrite <-app_assoc.
Qed.

(** X18.  [main] acts on the first line of the input, stripped of white
    space.  Unless it is [1] or [2], nothing is read further and nothing is
    fetched: the fetcher and its disk are untouched and the run ends on the
    notice of an invalid choice.  On [1], one more line is read: when it is
    blank nothing is fetched, otherwise [download_image] is called once, on
    the line stripped, not in batch mode; at the end of the input [EOFError]
    is raised.  On [2], the rest of the input goes to [multiple_urls_mode]. *)
Theorem main_dispatches_on_the_first_line world s choice rest :
  stdin s = choice :: rest →
  ∃ r s',
    main world s = (r, s') ∧
    (strip choice ≠ "1" → strip choice ≠ "2" →
     r = inr () ∧ core s' = core s ∧ stdin s' = rest ∧ fetched s' = fetched s ∧
     last (console s') = Some (UiPrint MsgInvalidChoice)) ∧
    (strip choice = "1" →
     match rest with
     | [] => r = inl EOFError ∧ core s' = core s ∧ fetched s' = fetched s
     | line :: rest' =>
         r = inr () ∧ stdin s' = rest' ∧
         if bool_decide (strip line = "")
         then core s' = core s ∧ fetched s' = fetched s
         else core s' = (download_image (world (fetched s)) (strip line) false (core s)).2 ∧
              fetched s' = S (fetched s)
     end) ∧
    (strip choice = "2" →
     ∃ evs, (r, s') = multiple_urls_mode world
                        {| core := core s; stdin := rest; fetched := fetched s;
                           console := console s ++ evs |}).
Proof.
  intros Hin. rewrite (main_run world s choice rest Hin). cbv zeta.
  destruct (decide (strip choice = "1")) as [H1|H1].
  { rewrite bool_decide_eq_true_2 by done.
    destruct (single_url_mode world _) as [r s'] eqn:Hrun. exists r, s'.
    split; [done|]. split; [done|]. split; [|intros H2; rewrite H1 in H2; discriminate].
    intros _. revert Hrun. unfold single_url_mode. rewrite ui_bind_run. unfold input.
    cbn [core stdin fetched console]. destruct rest as [|line rest'].
    { by intros [= <- <-]. }
    destruct (bool_decide (strip line = "")); cbn [negb].
    { by intros [= <- <-]. }
    rewrite ui_bind_run. unfold fetch. cbn [core stdin fetched console].
    destruct (download_image_total (world (fetched s)) (strip line) false (core s))
      as (ok & st' & Hdl).
    rewrite Hdl. by intros [= <- <-]. }
  rewrite bool_decide_eq_false_2 by done.
  destruct (decide (strip choice = "2")) as [H2|H2].
  { rewrite bool_decide_eq_true_2 by done.
    destruct (multiple_urls_mode world _) as [r s'] eqn:Hrun. exists r, s'.
    split; [done|]. split; [done|]. split; [done|]. intros _. eexists. by rewrite Hrun. }
  rewrite bool_decide_eq_false_2 by done.
  eexists _, _. split; [reflexivity|]. split; [|done].
  intros _ _. cbn [core stdin fetched console]. repeat split; try done.
  by rewrite last_snoc.
Qed.

(** A case of X18: the choice [3]. *)
Lemma main_dispatches_on_the_first_line_witness :
  ∃ r s',
    main (λ _, Sample.env Runs.cat)
      {| core := Sample.start; stdin := ["3"; "x"]; fetched := 0; console := [] |}
    = (r, s') ∧
    (strip "3" ≠ "1" → strip "3" ≠ "2" →
     r = inr () ∧ core s' = Sample.start ∧ stdin s' = ["x"] ∧ fetched s' = 0%nat ∧
     last (console s') = Some (UiPrint MsgInvalidChoice)) ∧
    (strip "3" = "1" →
     r = inr () ∧ stdin s' = [] ∧
     if bool_decide (strip "x" = "")
     then core s' = Sample.start ∧ fetched s' = 0%nat
     else core s' = (download_image (Sample.env Runs.cat) (strip "x") false Sample.start).2 ∧
          fetched s' = 1%nat) ∧
    (strip "3" = "2" →
     ∃ evs, (r, s') = multiple_urls_mode (λ _, Sample.env Runs.cat)
                        {| core := Sample.start; stdin := ["x"]; fetched := 0;
                           console := [] ++ evs |}).
Proof.
  apply (main_dispatches_on_the_first_line (λ _, Sample.env Runs.cat)
           {| core := Sample.start; stdin := ["3"; "x"]; fetched := 0; console := [] |}
           "3" ["x"]).
  reflexivity.
Defined.

(** ** The digest of a body *)

Import Digest.

Lemma round_length (st : list Z) (kw : Z * Z) :
  length (Sha256.round st kw) = length st.
Proof.
  unfold Sha256.round.
  destruct st as [|a [|b [|c [|d [|e [|f [|g [|h [|i st]]]]]]]]]; reflexivity.
Qed.

Lemma fold_round_length (kws : list (Z * Z)) (st : list Z) :
  length (fold_left Sha256.round kws st) = length st.
Proof.
  revert st. induction kws as [|kw kws IH]; intros st; [done|]. simpl.
  by rewrite IH, round_length.
Qed.

Lemma compress_length (h block : list Z) :
  length (Sha256.compress h block) = length h.
Proof.
  unfold Sha256.compress. rewrite length_zip_with, fold_round_length. lia.
Qed.

Lemma blocks_length (fuel : nat) (ws h : list Z) :
  length (Sha256.blocks fuel ws h) = length h.
Proof.
  revert ws h. induction fuel as [|fuel IH]; intros ws h; [done|]. simpl.
  destruct ws; [done|]. by rewrite IH, compress_length.
Qed.

Lemma hex_digit_is_hex (x : Z) : 0 ≤ x < 16 → is_hex_digit (Sha256.hex_digit x) = true.
Proof.
  intros Hx.
  assert (x = 0 ∨ x = 1 ∨ x = 2 ∨ x = 3 ∨ x = 4 ∨ x = 5 ∨ x = 6 ∨ x = 7 ∨ x = 8 ∨
          x = 9 ∨ x = 10 ∨ x = 11 ∨ x = 12 ∨ x = 13 ∨ x = 14 ∨ x = 15) as Hc by lia.
  repeat destruct Hc as [->|Hc]; try subst x; reflexivity.
Qed.

Lemma be_bytes_range (n : nat) (x : Z) :
  Forall (λ b, 0 ≤ b < 256) (Sha256.be_bytes n x).
Proof.
  induction n as [|n IH]; simpl; constructor; [|done].
  apply Z.mod_pos_bound. lia.
Qed.

Lemma be_bytes_length (n : nat) (x : Z) : length (Sha256.be_bytes n x) = n.
Proof. induction n as [|n IH]; simpl; auto. Qed.

Lemma hex_length (bs : list Z) : String.length (Sha256.hex bs) = (2 * length bs)%nat.
Proof. induction bs as [|b bs IH]; simpl; [done|]. rewrite IH. lia. Qed.

Lemma hex_is_hex (bs : list Z) :
  Forall (λ b, 0 ≤ b < 256) bs → Py.all_chars is_hex_digit (Sha256.hex bs) = true.
Proof.
  induction 1 as [|b bs Hb _ IH]; [done|]. simpl.
  rewrite !hex_digit_is_hex, IH; [done| |].
  - apply Z.mod_pos_bound. lia.
  - split; [apply Z.div_pos; lia|]. apply Z.div_lt_upper_bound; lia.
Qed.

Lemma concat_be_bytes (ws : list Z) :
  length (concat (map (Sha256.be_bytes 4) ws)) = (4 * length ws)%nat ∧
  Forall (λ b, 0 ≤ b < 256) (concat (map (Sha256.be_bytes 4) ws)).
Proof.
  induction ws as [|w ws [IHl IHr]]; [by split|]. cbn [map concat]. split.
  - rewrite length_app, be_bytes_length, IHl. simpl. lia.
  - apply Forall_app. split; [apply be_bytes_range|done].
Qed.

Lemma hexdigest_shape (data : string) :
  String.length (Sha256.hexdigest data) = 64%nat ∧
  Py.all_chars is_hex_digit (Sha256.hexdigest data) = true.
Proof.
  unfold Sha256.hexdigest. cbv zeta.
  set (h := Sha256.blocks _ _ _).
  assert (length h = 8%nat) as Hh by (unfold h; by rewrite blocks_length).
  destruct (concat_be_bytes h) as [Hl Hr].
  split; [rewrite hex_length, Hl, Hh; done|by apply hex_is_hex].
Qed.

(** X19.  The digest [calculate_content_hash] returns is always 64 characters
    long, each a digit or a letter from [a] to [f]: the [hash] field of every
    record the program appends has this form. *)
Theorem content_hash_is_64_hex_digits response st content_hash st' :
  calculate_content_hash response st = (inr content_hash, st') →
  String.length content_hash = 64%nat ∧
  Py.all_chars is_hex_digit content_hash = true ∧
  ∃ body, content response = inr body ∧ content_hash = Sha256.hexdigest body.
Proof.
  rewrite calculate_content_hash_run.
  destruct (content response) as [e|body]; [done|]. intros [= <- _].
  destruct (hexdigest_shape body). eauto.
Qed.

(** A case of X19: the digest of [hello]. *)
Lemma content_hash_is_64_hex_digits_witness :
  String.length (Sha256.hexdigest "hello") = 64%nat ∧
  Py.all_chars is_hex_digit (Sha256.hexdigest "hello") = true ∧
  ∃ body, content Runs.cat = inr body ∧ Sha256.hexdigest "hello" = Sha256.hexdigest body.
Proof.
  apply (content_hash_is_64_hex_digits Runs.cat Sample.start (Sha256.hexdigest "hello")
           {| self := self Sample.start; fs := fs Sample.start;
              trace := trace Sample.start ++ [EvReadContent] |}).
  reflexivity.
Defined.
